(** * Atom-boilua: the documentation scraper ([lib/scraper/scraper.py])

    A shallow embedding of the scraper that turns the Afterbirth+ HTML
    documentation into classes, namespaces and enumerators, followed by
    the properties of the builders that the specification states.

    Conventions of the embedding.
    - A Python value that may be [None] is an [option]; a [str] that is
      never [None] is a [string].
    - A computation that may raise is a [result]; the exception classes
      of the module and the built-in ones the code can meet are the
      constructors of [exn].
    - The regular expressions come from the module [scraper_regexs],
      which the scraper imports with [from scraper_regexs import *].
      They are taken as a record of search functions, [scraper_regexs],
      over which every builder is parametrised.
    - The class-level list [AfterbirthApi.enumerators] is one shared
      object: it lives in a [Store] and instances refer to it. *)

From Stdlib Require Import String Ascii List Bool Arith Lia.
Import ListNotations.
Open Scope list_scope.
Open Scope string_scope.

(* ================================================================= *)
(** ** Exceptions and the error monad *)

Inductive exn : Type :=
| InvalidRematcher            (* base class of the two below *)
| InvalidFunctionRematcher
| InvalidAttributeRematcher
| UpdatedDocError
| AttributeError              (* attribute access on None *)
| IndexError                  (* no such group; list index out of range *)
| TypeError                   (* None where a str is required *)
| OSError.                    (* open / scandir failures *)

Definition exn_eqb (a b : exn) : bool :=
  match a, b with
  | InvalidRematcher, InvalidRematcher
  | InvalidFunctionRematcher, InvalidFunctionRematcher
  | InvalidAttributeRematcher, InvalidAttributeRematcher
  | UpdatedDocError, UpdatedDocError
  | AttributeError, AttributeError
  | IndexError, IndexError
  | TypeError, TypeError
  | OSError, OSError => true
  | _, _ => false
  end.

(** The two kinds of error of the specification. *)
Definition is_field_level (e : exn) : bool :=
  match e with
  | InvalidRematcher | InvalidFunctionRematcher | InvalidAttributeRematcher => true
  | _ => false
  end.

Definition is_structural (e : exn) : bool := exn_eqb e UpdatedDocError.

Inductive result (A : Type) : Type :=
| Ok (a : A)
| Raise (e : exn).
Arguments Ok {A} a.
Arguments Raise {A} e.

Definition bind {A B} (r : result A) (k : A -> result B) : result B :=
  match r with
  | Ok a => k a
  | Raise e => Raise e
  end.

Notation "x <- r ;; k" := (bind r (fun x => k))
  (at level 61, r at next level, right associativity).

(** [try: r except e: h] for a handler on exactly one exception class. *)
Definition try_except {A} (r : result A) (e : exn) (h : result A) : result A :=
  match r with
  | Ok a => Ok a
  | Raise e' => if exn_eqb e' e then h else Raise e'
  end.

(** [x + y] on a possibly-None left or right operand of a str. *)
Definition as_str (v : option string) : result string :=
  match v with
  | Some s => Ok s
  | None => Raise TypeError
  end.

(* ================================================================= *)
(** ** Strings: the [str] and [os.path] operations the scraper uses *)

Definition newline : ascii := ascii_of_nat 10.
Definition slash : ascii := "/"%char.

Fixpoint has_slash (p : string) : bool :=
  match p with
  | EmptyString => false
  | String c p' => Ascii.eqb c slash || has_slash p'
  end.

(** [os.path.basename]: what follows the last ['/']. *)
Fixpoint basename (p : string) : string :=
  match p with
  | EmptyString => EmptyString
  | String c p' =>
      if has_slash p' then basename p'
      else if Ascii.eqb c slash then p' else String c p'
  end.

Fixpoint ends_with_slash (p : string) : bool :=
  match p with
  | EmptyString => false
  | String c EmptyString => Ascii.eqb c slash
  | String _ p' => ends_with_slash p'
  end.

Definition starts_with_slash (p : string) : bool :=
  match p with
  | String c _ => Ascii.eqb c slash
  | EmptyString => false
  end.

(** [os.path.join a b] (posixpath). *)
Definition path_join (a b : string) : string :=
  if starts_with_slash b then b
  else if (String.eqb a "" || ends_with_slash a)%bool then a ++ b
  else a ++ "/" ++ b.

(** Truthiness of an [Optional[str]]: neither [None] nor ['']. *)
Definition truthy (v : option string) : bool :=
  match v with
  | None => false
  | Some s => negb (String.eqb s "")
  end.

(** [str.isspace] on the ASCII range. *)
Definition is_space (c : ascii) : bool :=
  let n := nat_of_ascii c in
  (Nat.leb 9 n && Nat.leb n 13) || (Nat.leb 28 n && Nat.leb n 32).

Fixpoint lstrip (s : string) : string :=
  match s with
  | EmptyString => EmptyString
  | String c s' => if is_space c then lstrip s' else s
  end.

Fixpoint rstrip (s : string) : string :=
  match s with
  | EmptyString => EmptyString
  | String c s' =>
      match rstrip s' with
      | EmptyString => if is_space c then EmptyString else String c EmptyString
      | r => String c r
      end
  end.

(** [str.strip()]. *)
Definition strip (s : string) : string := rstrip (lstrip s).

(** [s.split(', ')]. *)
Fixpoint split_comma (s : string) : list string :=
  match s with
  | EmptyString => [EmptyString]
  | String c s' =>
      let keep := match split_comma s' with
                  | [] => [String c EmptyString]
                  | h :: t => String c h :: t
                  end in
      if Ascii.eqb c ","%char then
        match s' with
        | String c2 s'' =>
            if Ascii.eqb c2 " "%char then EmptyString :: split_comma s'' else keep
        | EmptyString => keep
        end
      else keep
  end.

(** The lines of a text file, each with its terminator, as iterating
    over the file object or calling [readline] repeatedly gives them. *)
Fixpoint file_lines (s : string) : list string :=
  match s with
  | EmptyString => []
  | String c s' =>
      if Ascii.eqb c newline then String c EmptyString :: file_lines s'
      else match file_lines s' with
           | [] => [String c EmptyString]
           | l :: ls => String c l :: ls
           end
  end.

Fixpoint string_drop (n : nat) (s : string) : string :=
  match n, s with
  | O, _ => s
  | S n', String _ s' => string_drop n' s'
  | S _, EmptyString => EmptyString
  end.

(* ================================================================= *)
(** ** Match objects *)

(** A group is addressed by name or by number. *)
Inductive gkey : Type :=
| GName (name : string)
| GIdx (n : nat).

Definition gkey_eqb (a b : gkey) : bool :=
  match a, b with
  | GName x, GName y => String.eqb x y
  | GIdx x, GIdx y => Nat.eqb x y
  | _, _ => false
  end.

(** A match object: the groups the pattern defines, each with the text
    it captured, or [None] when it took no part in the match. *)
Definition Match : Type := list (gkey * option string).

Fixpoint lookup_group (x : Match) (k : gkey) : option (option string) :=
  match x with
  | [] => None
  | (k', v) :: x' => if gkey_eqb k' k then Some v else lookup_group x' k
  end.

(** [x.group(k)]: IndexError when the pattern has no such group. *)
Definition group (x : Match) (k : gkey) : result (option string) :=
  match lookup_group x k with
  | Some v => Ok v
  | None => Raise IndexError
  end.

(** [x.group(k)] on an [Optional[Match]]. *)
Definition group_of (x : option Match) (k : gkey) : result (option string) :=
  match x with
  | None => Raise AttributeError
  | Some m => group m k
  end.

Definition tryMatch (x : option Match) (prop : gkey) : bool :=
  match group_of x prop with
  | Ok v => match v with Some _ => true | None => false end
  | Raise _ => false   (* except (IndexError, AttributeError) *)
  end.

Definition tryMatchNone (x : option Match) (prop : gkey) : result (option string) :=
  match x with
  | None => Ok None
  | Some m => group m prop
  end.

Definition tryMatchString (x : option Match) (prop : gkey) : result string :=
  match x with
  | None => Ok ""
  | Some m =>
      ret <- group m prop ;;
      Ok (match ret with Some s => s | None => "" end)
  end.

(** The patterns of [scraper_regexs]: for each compiled pattern its
    [search], for RE_HTML_REPLACER its [sub('', _)], and the helper
    [subHtmlFlags]. *)
Record scraper_regexs : Type := {
  RE_FUNCTION_SIGNATURE : string -> option Match;
  RE_FUNCTION_PARAMETER : string -> option Match;
  RE_FUNCTION_RETURNS : string -> option Match;
  RE_ATTRIBUTE : string -> option Match;
  RE_ATTRIBUTE_TYPE : string -> option Match;
  RE_DESCRIPTION : string -> option Match;
  RE_CLASS_NAME : string -> option Match;
  RE_INHERITS_FROM : string -> option Match;
  RE_NAMESPACE_NAME : string -> option Match;
  RE_ENUM_NAME : string -> option Match;
  RE_ENUM_MEMBER : string -> option Match;
  RE_HTML_REPLACER_sub : string -> string;
  subHtmlFlags : string -> string
}.

(* ================================================================= *)
(** ** Value objects *)

Definition doc_base_url : string := "https://moddingofisaac.com/docs/".

Record DocDescription : Type := {
  dd_description : string;
  dd_link : option string
}.

Definition DocDescription_init (description : string) (docLink : option string)
  : DocDescription :=
  {| dd_description := description;
     dd_link := match docLink with
                | Some p => if truthy docLink then Some (doc_base_url ++ basename p)
                            else None
                | None => None
                end |}.

Record LuaType : Type := {
  lt_name : option string;
  lt_isConst : bool;
  lt_isStatic : bool
}.

(** The first argument of [LuaType]: absent, a match object or a str. *)
Inductive TypeHint : Type :=
| HintNone
| HintMatch (m : Match)
| HintStr (s : string).

Definition LuaType_initFlat (name : option string) (isConst isStatic : bool)
  : LuaType :=
  {| lt_name := match name with
                | Some s => if String.eqb s "" then Some "nil" else Some s
                | None => None
                end;
     lt_isConst := isConst;
     lt_isStatic := isStatic |}.

Definition LuaType_init (typeHint : TypeHint) (isConst isStatic : bool)
  : result LuaType :=
  match typeHint with
  | HintNone => Ok (LuaType_initFlat (Some "nil") false false)
  | HintMatch m =>
      ty <- group m (GName "type") ;;
      Ok (LuaType_initFlat ty (tryMatch (Some m) (GName "const"))
                              (tryMatch (Some m) (GName "static")))
  | HintStr s => Ok (LuaType_initFlat (Some s) isConst isStatic)
  end.

(** [LuaType(m)] for the result [m] of a [search]. *)
Definition hint_of_search (m : option Match) : TypeHint :=
  match m with
  | None => HintNone
  | Some x => HintMatch x
  end.

Record LuaVariable : Type := {
  lv_name : option string;
  lv_luaType : LuaType
}.

Definition LuaVariable_init (name : string) (luaType : LuaType) : LuaVariable :=
  {| lv_name := if String.eqb name "" then lt_name luaType else Some name;
     lv_luaType := luaType |}.

(** [LuaParam] adds no field to [LuaVariable]. *)
Abbreviation LuaParam := LuaVariable (only parsing).

Record LuaAttribute : Type := {
  la_name : string;
  la_luaType : LuaType;
  la_description : option DocDescription
}.

Record LuaFunction : Type := {
  lf_name : option string;
  lf_description : option DocDescription;
  lf_parameters : list LuaParam;
  lf_returnType : LuaType
}.

(** [LuaMethod] adds no field to [LuaFunction]. *)
Abbreviation LuaMethod := LuaFunction (only parsing).

(** The argument of [LuaFunction]: a match object (possibly None) or a line. *)
Inductive FunArg : Type :=
| ArgMatch (m : option Match)
| ArgLine (line : string).

Definition METHOD_SET : nat := 1.
Definition ATTRIB_SET : nat := 2.

(** A class under construction and once built.  [lc_constructor] is the
    reference [class_.constructor]: it designates one of the class's own
    method objects, which is named by its position in [lc_methods]
    (methods are only ever appended). *)
Record LuaClass : Type := {
  lc_name : string;
  lc_description : DocDescription;
  lc_parentNames : list (option string);
  lc_attributes : list LuaAttribute;
  lc_methods : list LuaMethod;
  lc_constructor : option nat
}.

Record LuaNamespace : Type := {
  ln_name : option string;
  ln_functions : list LuaFunction
}.

Definition with_description (f : LuaFunction) (d : DocDescription) : LuaFunction :=
  {| lf_name := lf_name f; lf_description := Some d;
     lf_parameters := lf_parameters f; lf_returnType := lf_returnType f |}.

Definition with_returnType (f : LuaFunction) (t : LuaType) : LuaFunction :=
  {| lf_name := lf_name f; lf_description := lf_description f;
     lf_parameters := lf_parameters f; lf_returnType := t |}.

Definition attr_with_description (a : LuaAttribute) (d : DocDescription)
  : LuaAttribute :=
  {| la_name := la_name a; la_luaType := la_luaType a; la_description := Some d |}.

Definition set_methods (c : LuaClass) (ms : list LuaMethod) : LuaClass :=
  {| lc_name := lc_name c; lc_description := lc_description c;
     lc_parentNames := lc_parentNames c; lc_attributes := lc_attributes c;
     lc_methods := ms; lc_constructor := lc_constructor c |}.

Definition set_attributes (c : LuaClass) (az : list LuaAttribute) : LuaClass :=
  {| lc_name := lc_name c; lc_description := lc_description c;
     lc_parentNames := lc_parentNames c; lc_attributes := az;
     lc_methods := lc_methods c; lc_constructor := lc_constructor c |}.

Definition set_constructor (c : LuaClass) (k : option nat) : LuaClass :=
  {| lc_name := lc_name c; lc_description := lc_description c;
     lc_parentNames := lc_parentNames c; lc_attributes := lc_attributes c;
     lc_methods := lc_methods c; lc_constructor := k |}.

(** [l[-1] = f(l[-1])]: IndexError on the empty list. *)
Fixpoint update_last {A} (f : A -> A) (l : list A) : result (list A) :=
  match l with
  | [] => Raise IndexError
  | [x] => Ok [f x]
  | x :: l' => l'' <- update_last f l' ;; Ok (x :: l'')
  end.

Fixpoint mapM {A B} (f : A -> result B) (l : list A) : result (list B) :=
  match l with
  | [] => Ok []
  | x :: l' => y <- f x ;; ys <- mapM f l' ;; Ok (y :: ys)
  end.

Fixpoint foldM {S A} (f : S -> A -> result S) (l : list A) (s : S) : result S :=
  match l with
  | [] => Ok s
  | x :: l' => s' <- f s x ;; foldM f l' s'
  end.

(** The documentation tree on disk: regular files with their text, and
    directories with their entries in the order [os.scandir] lists them. *)
Record DirEntry : Type := {
  de_name : string;
  de_is_dir : bool
}.

Record FileSystem : Type := {
  fs_files : list (string * string);
  fs_dirs : list (string * list DirEntry)
}.

Fixpoint assoc {V} (k : string) (l : list (string * V)) : option V :=
  match l with
  | [] => None
  | (k', v) :: l' => if String.eqb k' k then Some v else assoc k l'
  end.

(** [open(path, 'r')] followed by [read()]; the empty path names no file.
    The files of a tree are text files, each given by the text [read()]
    returns: opening fails with OSError when the tree has no such file,
    and reading what was opened does not fail.  A file whose bytes do
    not decode, on which [read()] raises UnicodeDecodeError, is a file
    of no tree; what is said of the errors of a builder is said of trees
    of text files. *)
Definition open_read (fs : FileSystem) (path : string) : result string :=
  if String.eqb path "" then Raise OSError
  else match assoc path (fs_files fs) with
       | Some content => Ok content
       | None => Raise OSError
       end.

Definition scandir (fs : FileSystem) (path : string) : result (list DirEntry) :=
  match assoc path (fs_dirs fs) with
  | Some entries => Ok entries
  | None => Raise OSError
  end.

Section Builders.

Variable re : scraper_regexs.

Definition LuaParam_init (line : string) : result LuaParam :=
  let paramMatcher := RE_FUNCTION_PARAMETER re line in
  name <- tryMatchString paramMatcher (GName "name") ;;
  luaType <- LuaType_init (hint_of_search paramMatcher) false false ;;
  Ok (LuaVariable_init name luaType).

Definition LuaAttribute_init (line : string) : result LuaAttribute :=
  let attribScraper := RE_ATTRIBUTE re line in
  name <- tryMatchNone attribScraper (GName "name") ;;
  match name with
  | None => Raise InvalidAttributeRematcher
  | Some name =>
      ty <- group_of attribScraper (GName "type") ;;
      ty <- as_str ty ;;
      let typeFetcher := RE_ATTRIBUTE_TYPE re (RE_HTML_REPLACER_sub re ty) in
      luaType <- LuaType_init (hint_of_search typeFetcher) false false ;;
      Ok {| la_name := name; la_luaType := luaType; la_description := None |}
  end.

(** [_findParameters]: the class-level default [[]] stays when the
    captured text is empty or absent. *)
Definition findParameters (paramMatchedVals : option string)
  : result (list LuaParam) :=
  match paramMatchedVals with
  | Some s =>
      if truthy paramMatchedVals then
        let paramScraper := split_comma (RE_HTML_REPLACER_sub re s) in
        mapM LuaParam_init
             (filter (fun param => negb (String.eqb param "")) paramScraper)
      else Ok []
  | None => Ok []
  end.

Definition findReturnval (retMatchval : option string) : result LuaType :=
  match retMatchval with
  | Some s =>
      if truthy retMatchval then
        let returnMatcher := RE_FUNCTION_RETURNS re (RE_HTML_REPLACER_sub re s) in
        LuaType_init (hint_of_search returnMatcher) false false
      else LuaType_init HintNone false false
  | None => LuaType_init HintNone false false
  end.

Definition LuaFunction_initMatch (functionRematcher : option Match)
  : result LuaFunction :=
  match functionRematcher with
  | None => Raise InvalidFunctionRematcher
  | Some m =>
      name <- group m (GName "name") ;;
      ps <- group m (GName "parameters") ;;
      parameters <- findParameters ps ;;
      rs <- group m (GName "returns") ;;
      returnType <- findReturnval rs ;;
      Ok {| lf_name := name; lf_description := None;
            lf_parameters := parameters; lf_returnType := returnType |}
  end.

Definition LuaFunction_initLine (line : string) : result LuaFunction :=
  match RE_FUNCTION_SIGNATURE re line with
  | Some m => LuaFunction_initMatch (Some m)
  | None => Raise InvalidFunctionRematcher
  end.

Definition LuaFunction_init (arg : FunArg) : result LuaFunction :=
  match arg with
  | ArgMatch m => LuaFunction_initMatch m
  | ArgLine line => LuaFunction_initLine line
  end.

Definition pystr_eqb (a : option string) (b : string) : bool :=
  match a with
  | Some s => String.eqb s b
  | None => false
  end.

(** [LuaMethod(args, class_)]: returns the method and the class, whose
    [constructor] now refers to the new method when the names agree; the
    caller appends the method to [class_.methods] next, at the position
    recorded here. *)
Definition LuaMethod_init (args : FunArg) (class_ : LuaClass)
  : result (LuaMethod * LuaClass) :=
  self <- LuaFunction_init args ;;
  if pystr_eqb (lf_name self) (lc_name class_) then
    returnType <- LuaType_init (HintStr (lc_name class_)) false true ;;
    Ok (with_returnType self returnType,
        set_constructor class_ (Some (List.length (lc_methods class_))))
  else Ok (self, class_).

Definition parseDescription (line : string) : result (option string) :=
  try_except
    (g <- group_of (RE_DESCRIPTION re line) (GIdx 1) ;;
     match g with
     | None => Raise AttributeError        (* None.strip() *)
     | Some s => Ok (Some (subHtmlFlags re (strip s)))
     end)
    AttributeError (Ok None).

(** The loop [for curLine in classFile] has three parts.  First:
    try to find a function. *)
Definition try_method (st : LuaClass * nat) (curLine : string)
  : result (LuaClass * nat) :=
  let '(self, lastSet) := st in
  match LuaMethod_init (ArgLine curLine) self with
  | Ok (m, self') =>
      Ok (set_methods self' (lc_methods self' ++ [m])%list, METHOD_SET)
  | Raise InvalidFunctionRematcher => Ok (self, lastSet)
  | Raise e => Raise e
  end.

(** Second: try to find an attribute. *)
Definition try_attribute (st : LuaClass * nat) (curLine : string)
  : result (LuaClass * nat) :=
  let '(self, lastSet) := st in
  match LuaAttribute_init curLine with
  | Ok a => Ok (set_attributes self (lc_attributes self ++ [a])%list, ATTRIB_SET)
  | Raise InvalidAttributeRematcher => Ok (self, lastSet)
  | Raise e => Raise e
  end.

(** Third: find the description of the previously found field. *)
Definition attach_description (classPath : string) (st : LuaClass * nat)
           (curLine : string) : result (LuaClass * nat) :=
  let '(self, lastSet) := st in
  lineDescr <- parseDescription curLine ;;
  match lineDescr with
  | None => Ok (self, lastSet)
  | Some d =>
      let descr := DocDescription_init d (Some classPath) in
      if Nat.eqb lastSet METHOD_SET then
        ms <- update_last (fun m => with_description m descr) (lc_methods self) ;;
        Ok (set_methods self ms, lastSet)
      else if Nat.eqb lastSet ATTRIB_SET then
        az <- update_last (fun a => attr_with_description a descr)
                          (lc_attributes self) ;;
        Ok (set_attributes self az, lastSet)
      else Ok (self, lastSet)
  end.

(** One turn of the loop. *)
Definition LuaClass_line (classPath : string) (st : LuaClass * nat)
           (curLine : string) : result (LuaClass * nat) :=
  st1 <- try_method st curLine ;;
  st2 <- try_attribute st1 curLine ;;
  attach_description classPath st2 curLine.

Definition LuaClass_init (fs : FileSystem) (classPath : string)
  : result LuaClass :=
  content <- open_read fs classPath ;;
  name <- group_of (RE_CLASS_NAME re content) (GIdx 1) ;;
  name <- as_str name ;;                     (* self.name + ' instance' *)
  let description := DocDescription_init (name ++ " instance") (Some classPath) in
  parentNames <- match RE_INHERITS_FROM re content with
                 | Some inheritedMatcher =>
                     p <- group inheritedMatcher (GIdx 1) ;; Ok [p]
                 | None => Ok []
                 end ;;
  let self := {| lc_name := name; lc_description := description;
                 lc_parentNames := parentNames; lc_attributes := [];
                 lc_methods := []; lc_constructor := None |} in
  st <- foldM (LuaClass_line classPath) (file_lines content) (self, 0) ;;
  Ok (fst st).

(** The loop [for curLine in namespaceFile]: try to find a function, *)
Definition try_function (functions : list LuaFunction) (curLine : string)
  : result (list LuaFunction) :=
  match LuaFunction_init (ArgLine curLine) with
  | Ok f => Ok (functions ++ [f])%list
  | Raise InvalidFunctionRematcher => Ok functions
  | Raise e => Raise e
  end.

(** then give the description to the last function. *)
Definition attach_to_function (functions : list LuaFunction) (curLine : string)
  : result (list LuaFunction) :=
  lineDescr <- parseDescription curLine ;;
  match lineDescr with
  | None => Ok functions
  | Some d =>
      update_last (fun f => with_description f (DocDescription_init d None))
                  functions
  end.

Definition LuaNamespace_line (functions : list LuaFunction) (curLine : string)
  : result (list LuaFunction) :=
  functions <- try_function functions curLine ;;
  attach_to_function functions curLine.

(** The first pass of [LuaNamespace.__init__]: the name. *)
Definition LuaNamespace_name (namespacePath content : string)
  : result (option string) :=
  try_except
    (group_of (RE_NAMESPACE_NAME re content) (GIdx 1))
    AttributeError
    (if String.eqb (basename namespacePath) "group__funcs.html"
     then Ok (Some "_G")
     else Raise AttributeError).

Definition LuaNamespace_init (fs : FileSystem) (namespacePath : string)
  : result LuaNamespace :=
  content <- open_read fs namespacePath ;;
  name <- LuaNamespace_name namespacePath content ;;
  functions <- foldM LuaNamespace_line (file_lines content) [] ;;
  Ok {| ln_name := name; ln_functions := functions |}.

End Builders.

(* ================================================================= *)
(** ** The enumerator stream reader *)

Record EnumTag : Type := {
  et_name : option string;
  et_value : nat;
  et_description : string
}.

Record LuaEnumerator : Type := {
  le_name : string;
  le_members : list EnumTag;
  le_description : DocDescription
}.

Definition LuaEnumerator_init (name : string) (link : option string)
           (members : list EnumTag) : LuaEnumerator :=
  {| le_name := name;
     le_members := members;
     le_description := DocDescription_init ("Enum " ++ name) link |}.

(** An open text file: its name, its text and the read position. *)
Record IO : Type := {
  io_name : string;
  io_content : string;
  io_pos : nat
}.

Definition tell (f : IO) : nat := io_pos f.

Definition seek (f : IO) (pos : nat) : IO :=
  {| io_name := io_name f; io_content := io_content f; io_pos := pos |}.

(** The lines [readline] will give from the current position on. *)
Definition upcoming (f : IO) : list string :=
  file_lines (string_drop (io_pos f) (io_content f)).

Definition readline (f : IO) : string * IO :=
  match upcoming f with
  | [] => ("", f)
  | l :: _ => (l, seek f (io_pos f + String.length l))
  end.

Definition open_file (fs : FileSystem) (path : string) : result IO :=
  content <- open_read fs path ;;
  Ok {| io_name := path; io_content := content; io_pos := 0 |}.

Section Stream.

Variable re : scraper_regexs.

(** The loop [while curLine != ''] of [__streamInit].  [lines] are the
    lines still to be read, the first of which is the one [readline]
    gives next; [openFile] stands before that line. *)
Fixpoint streamInit_while (fileName : string) (lines : list string)
         (openFile : IO) (curEnumName curEnumLink : option string)
         (curMemberList : list EnumTag)
  : result (option LuaEnumerator * IO) :=
  match lines with
  | [] =>                                         (* reached end of file *)
      match curEnumName with
      | Some name =>
          Ok (Some (LuaEnumerator_init name curEnumLink curMemberList), openFile)
      | None => Ok (None, openFile)
      end
  | curLine :: lines' =>
      let oldPointerPosition := tell openFile in
      let openFile := seek openFile (tell openFile + String.length curLine) in
      match RE_ENUM_NAME re curLine with
      | Some enumNameScraper =>
          match curEnumName with
          | None =>
              name <- group enumNameScraper (GName "name") ;;
              link <- group enumNameScraper (GName "link") ;;
              streamInit_while fileName lines' openFile name link curMemberList
          | Some name =>
              let openFile := seek openFile oldPointerPosition in
              link <- as_str curEnumLink ;;       (* fileName + '#' + link *)
              Ok (Some (LuaEnumerator_init name (Some (fileName ++ "#" ++ link))
                                           curMemberList),
                  openFile)
          end
      | None =>
          match RE_ENUM_MEMBER re curLine with
          | Some memberScraper =>
              descripString <- tryMatchString (Some memberScraper) (GName "desc") ;;
              name <- group memberScraper (GName "name") ;;
              streamInit_while fileName lines' openFile curEnumName curEnumLink
                (curMemberList ++
                 [{| et_name := name; et_value := 0;
                     et_description := RE_HTML_REPLACER_sub re descripString |}])%list
          | None =>
              streamInit_while fileName lines' openFile curEnumName curEnumLink
                               curMemberList
          end
      end
  end.

Definition streamInit (openFile : IO) : result (option LuaEnumerator * IO) :=
  streamInit_while (io_name openFile) (upcoming openFile) openFile None None [].

End Stream.

(* ================================================================= *)
(** ** The file categorizer *)

(** What a generator does when it is run to its end: the values it
    yields, in order, and the exception that ends it, if any.  The
    consumer handles each yielded value before the generator resumes. *)
Definition generator (A : Type) : Type := (list A * option exn)%type.

Definition gen_cons {A} (x : A) (g : generator A) : generator A :=
  (x :: fst g, snd g).

Definition gen_app {A} (xs : list A) (g : generator A) : generator A :=
  ((xs ++ fst g)%list, snd g).

Fixpoint allDocFiles_from (fs : FileSystem) (docPath : string)
         (entries : list DirEntry) : generator (string * string) :=
  match entries with
  | [] => ([], None)
  | dirEntry :: rest =>
      if de_is_dir dirEntry then
        if String.eqb (de_name dirEntry) "search" then
          let path := path_join docPath (de_name dirEntry) in
          match scandir fs path with
          | Ok searchFiles =>
              gen_app (map (fun searchFile => (de_name searchFile, path)) searchFiles)
                      (allDocFiles_from fs docPath rest)
          | Raise e => ([], Some e)
          end
        else ([], Some UpdatedDocError)
      else gen_cons (de_name dirEntry, docPath) (allDocFiles_from fs docPath rest)
  end.

Definition allDocFiles (fs : FileSystem) (docPath : string)
  : generator (string * string) :=
  match scandir fs docPath with
  | Ok entries => allDocFiles_from fs docPath entries
  | Raise e => ([], Some e)
  end.

Definition in_range (lo hi : nat) (c : ascii) : bool :=
  Nat.leb lo (nat_of_ascii c) && Nat.leb (nat_of_ascii c) hi.

(** [[0-9A-Za-z_]]; also [\w] on ASCII text. *)
Definition is_word (c : ascii) : bool :=
  in_range 48 57 c || in_range 65 90 c || in_range 97 122 c
  || Ascii.eqb c "_"%char.

Fixpoint strip_prefix (p s : string) : option string :=
  match p, s with
  | EmptyString, _ => Some s
  | String a p', String b s' => if Ascii.eqb a b then strip_prefix p' s' else None
  | String _ _, EmptyString => None
  end.

(** [[0-9A-Za-z_]*\.html] against the whole of [s]. *)
Fixpoint words_then_html (s : string) : bool :=
  String.eqb s ".html" ||
  match s with
  | String c s' => is_word c && words_then_html s'
  | EmptyString => false
  end.

(** [re.fullmatch(r'class_[0-9A-Za-z_]*(?!-members.html)\.html', name)].
    The look-ahead stands where [\.html] must follow, so it never
    rejects anything. *)
Definition isClassFile (name : string) : bool :=
  match strip_prefix "class_" name with
  | Some rest => words_then_html rest
  | None => false
  end.

(** [re.fullmatch(r'namespace_[\w]+\.html', name)], on names made of
    ASCII characters: there [\w] is [[0-9A-Za-z_]].  On a [str] pattern
    [\w] also holds the letters and digits outside ASCII, which a
    [string] of 8-bit characters does not tell apart; a statement about
    the names this filter refuses is a statement about ASCII names. *)
Definition isNamespaceFile (name : string) : bool :=
  match strip_prefix "namespace_" name with
  | Some (String c rest) => is_word c && words_then_html rest
  | _ => false
  end.

(** The calls of the two filters, in the order they are made. *)
Inductive event : Type :=
| CallIsClassFile (name : string)
| CallIsNamespaceFile (name : string).

(** [[pth.join(curDir, curFile) for curFile, curDir in g if keep(curFile)]]:
    the names the filter was called on, and the list or the exception. *)
Definition comprehension (keep : string -> bool)
           (g : generator (string * string)) : list string * result (list string) :=
  (map fst (fst g),
   match snd g with
   | Some e => Raise e
   | None =>
       Ok (map (fun '(curFile, curDir) => path_join curDir curFile)
               (filter (fun '(curFile, _) => keep curFile) (fst g)))
   end).

Definition Categories : Type :=
  (list string * list string * list string * list string)%type.

Definition categorizeFiles (fs : FileSystem) (docPath : string)
  : list event * result Categories :=
  let '(tested1, r1) := comprehension isClassFile (allDocFiles fs docPath) in
  let log1 := map CallIsClassFile tested1 in
  match r1 with
  | Raise e => (log1, Raise e)
  | Ok classFiles =>
      let '(tested2, r2) := comprehension isNamespaceFile (allDocFiles fs docPath) in
      let log2 := (log1 ++ map CallIsNamespaceFile tested2)%list in
      match r2 with
      | Raise e => (log2, Raise e)
      | Ok nsFiles =>
          (log2, Ok (classFiles, nsFiles,
                     [path_join docPath "group__enums.html"],
                     [path_join docPath "group__funcs.html"]))
      end
  end.

(* ================================================================= *)
(** ** The API assembler *)

(** List objects that live longer than one construction.  The only one
    is the list bound to [enumerators] in the body of [class AfterbirthApi]. *)
Inductive loc : Type :=
| AfterbirthApi_enumerators.

Record Store : Type := {
  st_enumerators : list LuaEnumerator
}.

Definition deref (s : Store) (l : loc) : list LuaEnumerator :=
  match l with
  | AfterbirthApi_enumerators => st_enumerators s
  end.

(** The state of the interpreter once the module is loaded. *)
Definition module_loaded : Store := {| st_enumerators := [] |}.

(** An instance.  [classes] and [namespaces] are fresh lists assigned in
    [__init__]; [self.enumerators] is the class-level list, whether
    [+=] rebound it on the instance or the lookup falls back to the class. *)
Record AfterbirthApi : Type := {
  classes : list LuaClass;
  namespaces : list LuaNamespace;
  enumerators : loc
}.

(** [AfterbirthApi.enumerators += es]: the list object is extended in place. *)
Definition append_enumerators (s : Store) (es : list LuaEnumerator) : Store :=
  {| st_enumerators := (st_enumerators s ++ es)%list |}.

Section Assembler.

Variable re : scraper_regexs.

(** The loop [while True] over one enum file.  [fuel] bounds the number
    of turns; [None] means the bound was reached. *)
Fixpoint drain (fuel : nat) (enumStream : IO) (s : Store)
  : option (Store * result unit) :=
  match fuel with
  | O => None
  | S fuel' =>
      match streamInit re enumStream with
      | Raise e => Some (s, Raise e)
      | Ok (None, _) => Some (s, Ok tt)
      | Ok (Some curEnum, enumStream') =>
          drain fuel' enumStream' (append_enumerators s [curEnum])
      end
  end.

Fixpoint drain_files (fs : FileSystem) (enumFiles : list string) (s : Store)
  : option (Store * result unit) :=
  match enumFiles with
  | [] => Some (s, Ok tt)
  | curFile :: rest =>
      match open_file fs curFile with
      | Raise e => Some (s, Raise e)
      | Ok enumStream =>
          match drain (S (String.length (io_content enumStream))) enumStream s with
          | Some (s', Ok _) => drain_files fs rest s'
          | other => other
          end
      end
  end.

Definition AfterbirthApi_init (fs : FileSystem) (docPath : string) (s : Store)
  : option (Store * result AfterbirthApi) :=
  match snd (categorizeFiles fs docPath) with
  | Raise e => Some (s, Raise e)
  | Ok (classFiles, nsFiles, enumFiles, funFiles) =>
      match mapM (LuaClass_init re fs) classFiles with
      | Raise e => Some (s, Raise e)
      | Ok cs =>
          match mapM (LuaNamespace_init re fs) (nsFiles ++ funFiles)%list with
          | Raise e => Some (s, Raise e)
          | Ok ns =>
              match drain_files fs enumFiles s with
              | None => None
              | Some (s', Raise e) => Some (s', Raise e)
              | Some (s', Ok _) =>
                  Some (s', Ok {| classes := cs; namespaces := ns;
                                  enumerators := AfterbirthApi_enumerators |})
              end
          end
      end
  end.

End Assembler.

(* ================================================================= *)
(** ** A small pattern library and documentation trees to run the model on

    The library recognises one record per line, each introduced by a
    tag: [@class], [@inherits], [@namespace], [@fn], [@attr], [@desc],
    [@enum] and [@member]. *)

Module Sample.

Definition nl : string := String newline EmptyString.

Fixpoint until_newline (s : string) : string :=
  match s with
  | EmptyString => EmptyString
  | String c s' => if Ascii.eqb c newline then EmptyString
                   else String c (until_newline s')
  end.

(** The text that follows the first occurrence of [tag], to the end of
    its line. *)
Fixpoint find_tag (tag s : string) : option string :=
  match strip_prefix tag s with
  | Some rest => Some (until_newline rest)
  | None =>
      match s with
      | String _ s' => find_tag tag s'
      | EmptyString => None
      end
  end.

Definition capture1 (tag s : string) : option Match :=
  match find_tag tag s with
  | Some v => Some [(GIdx 1, Some v)]
  | None => None
  end.

Definition whole_as_type (s : string) : option Match :=
  if String.eqb s "" then None
  else Some [(GName "name", None); (GName "type", Some s);
             (GName "const", None); (GName "static", None)].

Definition patterns : scraper_regexs :=
  {| RE_FUNCTION_SIGNATURE := fun s =>
       match find_tag "@fn " s with
       | Some v => Some [(GName "name", Some v); (GName "parameters", None);
                         (GName "returns", None)]
       | None => None
       end;
     RE_FUNCTION_PARAMETER := whole_as_type;
     RE_FUNCTION_RETURNS := whole_as_type;
     RE_ATTRIBUTE := fun s =>
       match find_tag "@attr " s with
       | Some v => Some [(GName "name", Some v); (GName "type", Some "")]
       | None => None
       end;
     RE_ATTRIBUTE_TYPE := whole_as_type;
     RE_DESCRIPTION := capture1 "@desc ";
     RE_CLASS_NAME := capture1 "@class ";
     RE_INHERITS_FROM := capture1 "@inherits ";
     RE_NAMESPACE_NAME := capture1 "@namespace ";
     RE_ENUM_NAME := fun s =>
       match find_tag "@enum " s with
       | Some v => Some [(GName "name", Some v); (GName "link", Some v)]
       | None => None
       end;
     RE_ENUM_MEMBER := fun s =>
       match find_tag "@member " s with
       | Some v => Some [(GName "name", Some v); (GName "desc", None)]
       | None => None
       end;
     RE_HTML_REPLACER_sub := fun s => s;
     subHtmlFlags := fun s => s |}.

Definition text (lines : list string) : string :=
  fold_right (fun l acc => l ++ nl ++ acc) "" lines.

(** A class file with the lines method, description, attribute, description. *)
Definition class_foo : string :=
  text ["@class foo"; "@fn bar"; "@desc does bar"; "@attr size"; "@desc the size"].

(** A class file whose methods are foo, bar, foo. *)
Definition class_ctor : string :=
  text ["@class foo"; "@fn foo"; "@fn bar"; "@fn foo"; "@desc second foo"].

(** Two enumerators back to back. *)
Definition enums : string :=
  text ["@enum EnumX"; "@member A"; "@member B"; "@enum EnumY"; "@member C"].

Definition one_enum : string := text ["@enum EnumX"; "@member A"].

Definition funcs : string := text ["@fn print"; "@desc prints"].

Definition tree : FileSystem :=
  {| fs_files := [("doc/class_foo.html", class_foo);
                  ("doc/class_ctor.html", class_ctor);
                  ("doc/class_empty.html", text ["hello"]);
                  ("doc/namespace_empty.html", text ["hello"]);
                  ("doc/group__enums.html", enums);
                  ("doc/group__funcs.html", funcs);
                  ("orphan/group__funcs.html", text ["@desc lost"; "@fn print"]);
                  ("small/group__enums.html", one_enum);
                  ("small/group__funcs.html", funcs)];
     fs_dirs := [("doc", [{| de_name := "class_foo.html"; de_is_dir := false |};
                          {| de_name := "search"; de_is_dir := true |};
                          {| de_name := "group__enums.html"; de_is_dir := false |};
                          {| de_name := "group__funcs.html"; de_is_dir := false |}]);
                 ("doc/search", [{| de_name := "all_1.js"; de_is_dir := false |}]);
                 ("small", [{| de_name := "group__enums.html"; de_is_dir := false |};
                            {| de_name := "group__funcs.html"; de_is_dir := false |}]);
                 ("moved", [{| de_name := "class_a.html"; de_is_dir := false |};
                            {| de_name := "html"; de_is_dir := true |}])] |}.

(** Patterns whose parameter pattern matches every text and captures
    none of its groups, as a pattern whose groups are all optional. *)
Definition bare_parameter : scraper_regexs :=
  {| RE_FUNCTION_SIGNATURE := RE_FUNCTION_SIGNATURE patterns;
     RE_FUNCTION_PARAMETER := fun _ =>
       Some [(GName "name", None); (GName "type", None);
             (GName "const", None); (GName "static", None)];
     RE_FUNCTION_RETURNS := RE_FUNCTION_RETURNS patterns;
     RE_ATTRIBUTE := RE_ATTRIBUTE patterns;
     RE_ATTRIBUTE_TYPE := RE_ATTRIBUTE_TYPE patterns;
     RE_DESCRIPTION := RE_DESCRIPTION patterns;
     RE_CLASS_NAME := RE_CLASS_NAME patterns;
     RE_INHERITS_FROM := RE_INHERITS_FROM patterns;
     RE_NAMESPACE_NAME := RE_NAMESPACE_NAME patterns;
     RE_ENUM_NAME := RE_ENUM_NAME patterns;
     RE_ENUM_MEMBER := RE_ENUM_MEMBER patterns;
     RE_HTML_REPLACER_sub := RE_HTML_REPLACER_sub patterns;
     subHtmlFlags := subHtmlFlags patterns |}.

End Sample.


(* ================================================================= *)
(** ** Vocabulary of the properties *)

Definition nil_type : LuaType :=
  {| lt_name := Some "nil"; lt_isConst := false; lt_isStatic := false |}.

(** The type a constructor returns. *)
Definition class_type (name : string) : LuaType :=
  LuaType_initFlat (Some name) false true.

(** An optional description that, when present, carries the link [link]. *)
Definition linked_to (link : option string) (d : option DocDescription) : Prop :=
  match d with
  | None => True
  | Some dd => dd_link dd = link
  end.

Definition link_of_file (path : string) : option string :=
  Some (doc_base_url ++ basename path).

Definition class_links (link : option string) (c : LuaClass) : Prop :=
  Forall (fun m => linked_to link (lf_description m)) (lc_methods c)
  /\ Forall (fun a => linked_to link (la_description a)) (lc_attributes c).

(** The pattern of a match object has the group [k]; the group took
    part in the match. *)
Definition defines (m : Match) (k : gkey) : Prop :=
  exists v, lookup_group m k = Some v.

Definition captures (m : Match) (k : gkey) : Prop :=
  exists s, lookup_group m k = Some (Some s).

(** The groups the scraper asks of each pattern without a handler for
    their absence.  A library with these groups never makes a builder
    raise IndexError or TypeError on a group. *)
Record well_formed (re : scraper_regexs) : Prop := {
  wf_signature : forall s m, RE_FUNCTION_SIGNATURE re s = Some m ->
    defines m (GName "name") /\ defines m (GName "parameters")
    /\ defines m (GName "returns");
  wf_parameter : forall s m, RE_FUNCTION_PARAMETER re s = Some m ->
    defines m (GName "name") /\ defines m (GName "type");
  wf_returns : forall s m, RE_FUNCTION_RETURNS re s = Some m ->
    defines m (GName "type");
  wf_attribute : forall s m, RE_ATTRIBUTE re s = Some m ->
    defines m (GName "name") /\ captures m (GName "type");
  wf_attribute_type : forall s m, RE_ATTRIBUTE_TYPE re s = Some m ->
    defines m (GName "type");
  wf_description : forall s m, RE_DESCRIPTION re s = Some m ->
    defines m (GIdx 1);
  wf_inherits : forall s m, RE_INHERITS_FROM re s = Some m ->
    defines m (GIdx 1);
  wf_enum_member : forall s m, RE_ENUM_MEMBER re s = Some m ->
    defines m (GName "name") /\ defines m (GName "desc")
}.

(** The names captured on the lines that match the signature pattern,
    one per line, in file order. *)
Definition signature_names (re : scraper_regexs) (lines : list string)
  : list (option string) :=
  flat_map (fun line =>
              match RE_FUNCTION_SIGNATURE re line with
              | Some m => match group m (GName "name") with
                          | Ok n => [n]
                          | Raise _ => []
                          end
              | None => []
              end) lines.

(** The position of the last name equal to [name]. *)
Fixpoint last_index_of (name : string) (names : list (option string))
  : option nat :=
  match names with
  | [] => None
  | n :: names' =>
      match last_index_of name names' with
      | Some i => Some (S i)
      | None => if pystr_eqb n name then Some 0 else None
      end
  end.

(** The three kinds of line of a class file: a line that gives a method
    and nothing else, an attribute and nothing else, a description and
    nothing else. *)
Definition is_method_line (re : scraper_regexs) (l : string) (f : LuaFunction)
  : Prop :=
  LuaFunction_init re (ArgLine l) = Ok f
  /\ LuaAttribute_init re l = Raise InvalidAttributeRematcher
  /\ parseDescription re l = Ok None.

Definition is_attribute_line (re : scraper_regexs) (l : string) (a : LuaAttribute)
  : Prop :=
  LuaFunction_init re (ArgLine l) = Raise InvalidFunctionRematcher
  /\ LuaAttribute_init re l = Ok a
  /\ parseDescription re l = Ok None.

Definition is_description_line (re : scraper_regexs) (l d : string) : Prop :=
  LuaFunction_init re (ArgLine l) = Raise InvalidFunctionRematcher
  /\ LuaAttribute_init re l = Raise InvalidAttributeRematcher
  /\ parseDescription re l = Ok (Some d).

Definition is_some {A} (o : option A) : bool :=
  match o with Some _ => true | None => false end.

(** No description line comes before the first signature line.
    [seen]: a signature line has been read already. *)
Fixpoint descriptions_follow_functions (re : scraper_regexs) (seen : bool)
         (lines : list string) : bool :=
  match lines with
  | [] => true
  | l :: lines' =>
      let seen' := seen || is_some (RE_FUNCTION_SIGNATURE re l) in
      (seen' || match parseDescription re l with
                | Ok (Some _) => false
                | _ => true
                end)
      && descriptions_follow_functions re seen' lines'
  end.

(** A subdirectory whose name is not the reserved one. *)
Definition offending (e : DirEntry) : bool :=
  de_is_dir e && negb (String.eqb (de_name e) "search").

(** The subdirectories among [entries] can be listed. *)
Definition listable (fs : FileSystem) (docPath : string) (entries : list DirEntry)
  : Prop :=
  Forall (fun e => de_is_dir e = true ->
                   exists l, scandir fs (path_join docPath (de_name e)) = Ok l)
         entries.

Definition is_call_to_isClassFile (ev : event) : bool :=
  match ev with
  | CallIsClassFile _ => true
  | CallIsNamespaceFile _ => false
  end.

(** What holds of a class under construction once the lines [pre] have
    been read: its name is [cname], its methods are those of the
    signature lines, its constructor is the last method named as the
    class, and every method named as the class returns the class type. *)
Definition constructor_invariant (re : scraper_regexs) (cname : string)
           (pre : list string) (st : LuaClass * nat) : Prop :=
  lc_name (fst st) = cname
  /\ map lf_name (lc_methods (fst st)) = signature_names re pre
  /\ lc_constructor (fst st)
     = last_index_of cname (map lf_name (lc_methods (fst st)))
  /\ Forall (fun m => pystr_eqb (lf_name m) cname = true ->
                      lf_returnType m = class_type cname)
            (lc_methods (fst st)).

(** [lastSet] never designates an empty list. *)
Definition last_set_ok (st : LuaClass * nat) : Prop :=
  (snd st = METHOD_SET -> lc_methods (fst st) <> [])
  /\ (snd st = ATTRIB_SET -> lc_attributes (fst st) <> []).

(** A line that gives nothing: no method, no attribute, no description. *)
Definition is_neutral_line (re : scraper_regexs) (l : string) : Prop :=
  LuaFunction_init re (ArgLine l) = Raise InvalidFunctionRematcher
  /\ LuaAttribute_init re l = Raise InvalidAttributeRematcher
  /\ parseDescription re l = Ok None.

(** The method [LuaMethod] makes of a function in the class [cname]. *)
Definition as_method (cname : string) (f : LuaFunction) : LuaFunction :=
  if pystr_eqb (lf_name f) cname then with_returnType f (class_type cname)
  else f.

Definition total_length (ls : list string) : nat :=
  fold_right (fun l n => String.length l + n) 0 ls.

(** A line that opens an enumerator named [n] with link [k]; a line
    that gives a member. *)
Definition is_enum_line (re : scraper_regexs) (l n : string) (k : option string)
  : Prop :=
  exists m, RE_ENUM_NAME re l = Some m
            /\ group m (GName "name") = Ok (Some n)
            /\ group m (GName "link") = Ok k.

Definition is_member_line (re : scraper_regexs) (l : string) : Prop :=
  RE_ENUM_NAME re l = None
  /\ exists m, RE_ENUM_MEMBER re l = Some m
               /\ defines m (GName "name") /\ defines m (GName "desc").

Fixpoint has_comma (s : string) : bool :=
  match s with
  | EmptyString => false
  | String c s' => Ascii.eqb c ","%char || has_comma s'
  end.

Definition captured (m : Match) (k : gkey) : bool :=
  match lookup_group m k with
  | Some (Some _) => true
  | _ => false
  end.

(** The errors of Python itself that the builders let through. *)
Definition is_builtin_error (e : exn) : bool :=
  match e with
  | AttributeError | IndexError | TypeError | OSError => true
  | _ => false
  end.

(** The names captured on the lines from which an attribute is built,
    one per line, in file order. *)
Definition attribute_names (re : scraper_regexs) (lines : list string)
  : list string :=
  flat_map (fun line =>
              match tryMatchNone (RE_ATTRIBUTE re line) (GName "name") with
              | Ok (Some n) => [n]
              | _ => []
              end) lines.

(** A class with a name and nothing else yet. *)
Definition bare_class (name : string) : LuaClass :=
  {| lc_name := name;
     lc_description := DocDescription_init (name ++ " instance") None;
     lc_parentNames := []; lc_attributes := []; lc_methods := [];
     lc_constructor := None |}.

(** The names captured on the enum-name lines, in file order. *)
Definition enum_names (re : scraper_regexs) (lines : list string) : list string :=
  flat_map (fun line =>
              match RE_ENUM_NAME re line with
              | Some m => match group m (GName "name") with
                          | Ok (Some n) => [n]
                          | _ => []
                          end
              | None => []
              end) lines.

(** A line of a well-formed enum file: an enum-name line whose name and
    link are captured, a member line, or a line that is neither. *)
Definition is_stream_line (re : scraper_regexs) (l : string) : Prop :=
  (exists n k, is_enum_line re l n (Some k))
  \/ is_member_line re l
  \/ (RE_ENUM_NAME re l = None /\ RE_ENUM_MEMBER re l = None).

(** [f'] is the stream [f] moved to the position [pos]. *)
Definition moved_to (f f' : IO) (pos : nat) : Prop :=
  io_name f' = io_name f /\ io_content f' = io_content f /\ io_pos f' = pos.

Fixpoint all_word (s : string) : bool :=
  match s with
  | EmptyString => true
  | String c s' => is_word c && all_word s'
  end.

Fixpoint has_dash (s : string) : bool :=
  match s with
  | EmptyString => false
  | String c s' => Ascii.eqb c "-"%char || has_dash s'
  end.


(** Text made of ASCII characters only: on such text the class [\w] of
    a Python [str] pattern is [[0-9A-Za-z_]]. *)
Definition is_ascii (c : ascii) : bool := Nat.ltb (nat_of_ascii c) 128.

Fixpoint is_ascii_string (s : string) : bool :=
  match s with
  | EmptyString => true
  | String c s' => is_ascii c && is_ascii_string s'
  end.

(* ================================================================= *)
(** ** General facts: the error monad, loops, the last element *)

Lemma bind_Ok {A B} (r : result A) (k : A -> result B) (b : B) :
  bind r k = Ok b -> exists a, r = Ok a /\ k a = Ok b.
Proof.
  destruct r as [a|e]; simpl; intros H; [eauto | discriminate].
Qed.

Lemma foldM_app {S A} (f : S -> A -> result S) (l1 l2 : list A) (s : S) :
  foldM f (l1 ++ l2)%list s = (s' <- foldM f l1 s ;; foldM f l2 s').
Proof.
  revert s; induction l1 as [|x l1 IH]; intros s; simpl; [reflexivity|].
  destruct (f s x); simpl; auto.
Qed.

(** A property of the state and of the part of the input already read,
    set up at the start and kept by every turn, holds at the end. *)
Lemma foldM_invariant {S A} (f : S -> A -> result S)
      (P : list A -> S -> Prop) :
  (forall pre x s s', P pre s -> f s x = Ok s' -> P (pre ++ [x])%list s') ->
  forall l pre s s', P pre s -> foldM f l s = Ok s' -> P (pre ++ l)%list s'.
Proof.
  intros step l; induction l as [|x l IH]; intros pre s s' HP H; simpl in H.
  - inversion H; subst. now rewrite app_nil_r.
  - apply bind_Ok in H as (s1 & H1 & H2).
    replace (pre ++ x :: l)%list with ((pre ++ [x]) ++ l)%list
      by (rewrite <- app_assoc; reflexivity).
    eapply IH; eauto.
Qed.

(** A turn that never raises while the invariant holds makes the whole
    loop return. *)
Lemma foldM_total {S A} (f : S -> A -> result S) (Q : A -> Prop)
      (P : S -> Prop) :
  (forall x s, Q x -> P s -> exists s', f s x = Ok s' /\ P s') ->
  forall l s, Forall Q l -> P s -> exists s', foldM f l s = Ok s' /\ P s'.
Proof.
  intros step l; induction l as [|x l IH]; intros s HQ HP; simpl.
  - eauto.
  - inversion HQ; subst.
    destruct (step x s) as (s1 & E & HP1); auto.
    rewrite E; simpl. apply IH; auto.
Qed.

Lemma update_last_snoc {A} (f : A -> A) (pre : list A) (x : A) :
  update_last f (pre ++ [x])%list = Ok (pre ++ [f x])%list.
Proof.
  induction pre as [|y pre IH]; simpl; [reflexivity|].
  rewrite IH. destruct (pre ++ [x])%list eqn:E; [|reflexivity].
  destruct pre; discriminate.
Qed.

Lemma update_last_inv {A} (f : A -> A) (l l' : list A) :
  update_last f l = Ok l' ->
  exists pre x, l = (pre ++ [x])%list /\ l' = (pre ++ [f x])%list.
Proof.
  destruct l as [|y l] using rev_ind; intros H.
  - discriminate.
  - rewrite update_last_snoc in H. inversion H; subst. eauto.
Qed.

Lemma update_last_some {A} (f : A -> A) (l : list A) :
  l <> [] -> exists l', update_last f l = Ok l'.
Proof.
  destruct l as [|y l] using rev_ind; intros H; [congruence|].
  rewrite update_last_snoc. eauto.
Qed.

Lemma update_last_Forall {A} (P : A -> Prop) (f : A -> A) (l l' : list A) :
  (forall x, P x -> P (f x)) ->
  Forall P l -> update_last f l = Ok l' -> Forall P l'.
Proof.
  intros Hf HP H. apply update_last_inv in H as (pre & x & -> & ->).
  apply Forall_app in HP as [HP Hx]. apply Forall_app; split; auto.
  inversion Hx; subst. constructor; auto.
Qed.

Lemma update_last_length {A} (f : A -> A) (l l' : list A) :
  update_last f l = Ok l' -> List.length l' = List.length l.
Proof.
  intros H. apply update_last_inv in H as (pre & x & -> & ->).
  now rewrite !length_app.
Qed.

Lemma update_last_map {A B} (g : A -> B) (f : A -> A) (l l' : list A) :
  (forall x, g (f x) = g x) -> update_last f l = Ok l' -> map g l' = map g l.
Proof.
  intros Hg H. apply update_last_inv in H as (pre & x & -> & ->).
  rewrite !map_app; simpl. now rewrite Hg.
Qed.

Lemma String_eqb_false_iff (a b : string) : String.eqb a b = false <-> a <> b.
Proof.
  destruct (String.eqb_spec a b); split; intros; congruence.
Qed.

(* ================================================================= *)
(** ** Types default to nil *)

Lemma LuaType_initFlat_name_nonempty (name : option string) (c s : bool) :
  pystr_eqb (lt_name (LuaType_initFlat name c s)) "" = false.
Proof.
  destruct name as [n|]; simpl; [|reflexivity].
  destruct (String.eqb n "") eqn:E; simpl; [reflexivity | exact E].
Qed.


(* ================================================================= *)
(** ** What the builders of one line return *)

Section LineFacts.

Variable re : scraper_regexs.

Lemma LuaFunction_initMatch_inv (x : option Match) (f : LuaFunction) :
  LuaFunction_initMatch re x = Ok f ->
  exists m, x = Some m /\ group m (GName "name") = Ok (lf_name f)
            /\ lf_description f = None.
Proof.
  destruct x as [m|]; simpl; [|discriminate].
  intros H.
  apply bind_Ok in H as (n & Hn & H).
  apply bind_Ok in H as (ps & _ & H).
  apply bind_Ok in H as (params & _ & H).
  apply bind_Ok in H as (rs & _ & H).
  apply bind_Ok in H as (rt & _ & H).
  inversion H; subst; simpl. eauto.
Qed.

Lemma LuaFunction_initLine_inv (line : string) (f : LuaFunction) :
  LuaFunction_initLine re line = Ok f ->
  exists m, RE_FUNCTION_SIGNATURE re line = Some m
            /\ group m (GName "name") = Ok (lf_name f)
            /\ lf_description f = None.
Proof.
  unfold LuaFunction_initLine.
  destruct (RE_FUNCTION_SIGNATURE re line) as [m|] eqn:E; [|discriminate].
  intros H. apply LuaFunction_initMatch_inv in H as (m' & Hm & Hn & Hd).
  inversion Hm; subst. eauto.
Qed.

Lemma LuaFunction_init_description (arg : FunArg) (f : LuaFunction) :
  LuaFunction_init re arg = Ok f -> lf_description f = None.
Proof.
  destruct arg as [m|line]; simpl; intros H.
  - apply LuaFunction_initMatch_inv in H as (? & _ & _ & H); exact H.
  - apply LuaFunction_initLine_inv in H as (? & _ & _ & H); exact H.
Qed.

Lemma LuaMethod_init_inv (arg : FunArg) (c c' : LuaClass) (m : LuaMethod) :
  LuaMethod_init re arg c = Ok (m, c') ->
  exists f, LuaFunction_init re arg = Ok f
    /\ lf_name m = lf_name f /\ lf_description m = None
    /\ ((pystr_eqb (lf_name f) (lc_name c) = true
         /\ m = with_returnType f (class_type (lc_name c))
         /\ c' = set_constructor c (Some (List.length (lc_methods c))))
        \/ (pystr_eqb (lf_name f) (lc_name c) = false /\ m = f /\ c' = c)).
Proof.
  unfold LuaMethod_init. intros H.
  apply bind_Ok in H as (f & Hf & H).
  exists f. split; [exact Hf|].
  pose proof (LuaFunction_init_description _ _ Hf) as Hd.
  destruct (pystr_eqb (lf_name f) (lc_name c)) eqn:E.
  - simpl in H. inversion H; subst; simpl.
    split; [reflexivity | split; [assumption | left; repeat split]].
  - inversion H; subst.
    split; [reflexivity | split; [assumption | right; repeat split]].
Qed.

Lemma LuaMethod_init_raises (arg : FunArg) (c : LuaClass) (e : exn) :
  LuaMethod_init re arg c = Raise e -> LuaFunction_init re arg = Raise e.
Proof.
  unfold LuaMethod_init.
  destruct (LuaFunction_init re arg) as [f|e']; simpl; [|congruence].
  destruct (pystr_eqb (lf_name f) (lc_name c)); simpl; discriminate.
Qed.

Lemma try_method_inv (c c' : LuaClass) (lastSet lastSet' : nat) (line : string) :
  try_method re (c, lastSet) line = Ok (c', lastSet') ->
  (LuaFunction_init re (ArgLine line) = Raise InvalidFunctionRematcher
   /\ c' = c /\ lastSet' = lastSet)
  \/ (exists m c1, LuaMethod_init re (ArgLine line) c = Ok (m, c1)
        /\ c' = set_methods c1 (lc_methods c1 ++ [m])%list
        /\ lastSet' = METHOD_SET).
Proof.
  unfold try_method.
  destruct (LuaMethod_init re (ArgLine line) c) as [[m c1]|e] eqn:E.
  - intros H; inversion H; subst. right; eauto.
  - apply LuaMethod_init_raises in E.
    destruct e; try discriminate.
    intros H; inversion H; subst. left; auto.
Qed.

Lemma LuaAttribute_init_description (line : string) (a : LuaAttribute) :
  LuaAttribute_init re line = Ok a -> la_description a = None.
Proof.
  unfold LuaAttribute_init. intros H.
  apply bind_Ok in H as ([n|] & _ & H); [|discriminate].
  apply bind_Ok in H as (t & _ & H).
  apply bind_Ok in H as (t' & _ & H).
  apply bind_Ok in H as (lt & _ & H).
  inversion H; reflexivity.
Qed.

Lemma try_attribute_inv (c c' : LuaClass) (lastSet lastSet' : nat) (line : string) :
  try_attribute re (c, lastSet) line = Ok (c', lastSet') ->
  (LuaAttribute_init re line = Raise InvalidAttributeRematcher
   /\ c' = c /\ lastSet' = lastSet)
  \/ (exists a, LuaAttribute_init re line = Ok a
        /\ c' = set_attributes c (lc_attributes c ++ [a])%list
        /\ lastSet' = ATTRIB_SET).
Proof.
  unfold try_attribute.
  destruct (LuaAttribute_init re line) as [a|e] eqn:E.
  - intros H; inversion H; subst. right; eauto.
  - destruct e; try discriminate.
    intros H; inversion H; subst. left; auto.
Qed.

Lemma attach_description_inv (path : string) (c c' : LuaClass)
      (lastSet lastSet' : nat) (line : string) :
  attach_description re path (c, lastSet) line = Ok (c', lastSet') ->
  lastSet' = lastSet /\
  ((parseDescription re line = Ok None /\ c' = c)
   \/ (exists d, parseDescription re line = Ok (Some d) /\
         let descr := DocDescription_init d (Some path) in
         (lastSet = METHOD_SET /\ exists ms,
             update_last (fun m => with_description m descr) (lc_methods c) = Ok ms
             /\ c' = set_methods c ms)
         \/ (lastSet = ATTRIB_SET /\ exists az,
             update_last (fun a => attr_with_description a descr)
                         (lc_attributes c) = Ok az
             /\ c' = set_attributes c az)
         \/ (lastSet <> METHOD_SET /\ lastSet <> ATTRIB_SET /\ c' = c))).
Proof.
  unfold attach_description. intros H.
  apply bind_Ok in H as ([d|] & Hd & H).
  - destruct (Nat.eqb_spec lastSet METHOD_SET) as [E1|E1].
    + apply bind_Ok in H as (ms & Hms & H). inversion H; subst.
      split; [reflexivity|]. right. exists d. split; [exact Hd|].
      left; eauto.
    + destruct (Nat.eqb_spec lastSet ATTRIB_SET) as [E2|E2].
      * apply bind_Ok in H as (az & Haz & H). inversion H; subst.
        split; [reflexivity|]. right. exists d. split; [exact Hd|].
        right; left; eauto.
      * inversion H; subst. split; [reflexivity|]. right. exists d.
        split; [exact Hd|]. right; right; auto.
  - inversion H; subst. auto.
Qed.

Lemma LuaClass_line_inv (path : string) (st st' : LuaClass * nat) (line : string) :
  LuaClass_line re path st line = Ok st' ->
  exists st1 st2, try_method re st line = Ok st1
                  /\ try_attribute re st1 line = Ok st2
                  /\ attach_description re path st2 line = Ok st'.
Proof.
  unfold LuaClass_line. intros H.
  apply bind_Ok in H as (st1 & H1 & H).
  apply bind_Ok in H as (st2 & H2 & H). eauto.
Qed.

End LineFacts.

(* ================================================================= *)
(** ** Documentation links *)

Lemma DocDescription_init_file (d path : string) :
  path <> "" -> dd_link (DocDescription_init d (Some path)) = link_of_file path.
Proof.
  intros H. unfold DocDescription_init; simpl.
  apply String_eqb_false_iff in H. rewrite H. reflexivity.
Qed.

Lemma open_read_path (fs : FileSystem) (path content : string) :
  open_read fs path = Ok content -> path <> "".
Proof.
  unfold open_read. destruct (String.eqb_spec path ""); [discriminate|auto].
Qed.

Section Links.

Variable re : scraper_regexs.

Lemma LuaClass_line_links (path : string) (st st' : LuaClass * nat) (line : string) :
  path <> "" ->
  class_links (link_of_file path) (fst st) ->
  LuaClass_line re path st line = Ok st' ->
  class_links (link_of_file path) (fst st').
Proof.
  intros Hp [Hm Ha] H.
  apply LuaClass_line_inv in H as ([c1 s1] & [c2 s2] & H1 & H2 & H3).
  destruct st as [c s], st' as [c' s']; simpl in *.
  assert (I1 : class_links (link_of_file path) c1).
  { apply try_method_inv in H1 as [(_ & -> & _) | (m & c0 & Hmi & -> & _)].
    - split; assumption.
    - apply LuaMethod_init_inv in Hmi as (f & _ & _ & Hd & [(_ & _ & ->) | (_ & _ & ->)]);
        split; simpl; auto; apply Forall_app; split; auto;
        constructor; auto; rewrite Hd; exact I. }
  assert (I2 : class_links (link_of_file path) c2).
  { destruct I1 as [Hm1 Ha1].
    apply try_attribute_inv in H2 as [(_ & -> & _) | (a & Hai & -> & _)].
    - split; assumption.
    - split; simpl; auto. apply Forall_app; split; auto.
      constructor; auto.
      rewrite (LuaAttribute_init_description _ _ _ Hai). exact I. }
  destruct I2 as [Hm2 Ha2].
  apply attach_description_inv in H3
    as (_ & [(_ & ->) | (d & _ & [(_ & ms & Hu & ->) | [(_ & az & Hu & ->) | (_ & _ & ->)]])]).
  - split; assumption.
  - split; simpl; auto.
    eapply update_last_Forall; [| exact Hm2 | exact Hu].
    intros x _. exact (DocDescription_init_file d path Hp).
  - split; simpl; auto.
    eapply update_last_Forall; [| exact Ha2 | exact Hu].
    intros x _. exact (DocDescription_init_file d path Hp).
  - split; assumption.
Qed.

Lemma LuaClass_init_inv (fs : FileSystem) (path : string) (c : LuaClass) :
  LuaClass_init re fs path = Ok c ->
  exists content m parents lastSet,
    open_read fs path = Ok content
    /\ RE_CLASS_NAME re content = Some m
    /\ group m (GIdx 1) = Ok (Some (lc_name c))
    /\ foldM (LuaClass_line re path) (file_lines content)
             ({| lc_name := lc_name c;
                 lc_description :=
                   DocDescription_init (lc_name c ++ " instance") (Some path);
                 lc_parentNames := parents; lc_attributes := [];
                 lc_methods := []; lc_constructor := None |}, 0)
       = Ok (c, lastSet).
Proof.
  unfold LuaClass_init. intros H.
  apply bind_Ok in H as (content & Ho & H).
  apply bind_Ok in H as (n & Hn & H).
  apply bind_Ok in H as (name & Hs & H).
  apply bind_Ok in H as (parents & _ & H).
  apply bind_Ok in H as ([c' ls] & Hf & H).
  inversion H; subst; clear H.
  destruct n as [n|]; [|discriminate]. inversion Hs; subst; clear Hs.
  destruct (RE_CLASS_NAME re content) as [m|] eqn:Em; [|discriminate].
  simpl in Hn.
  assert (Hname : lc_name c = name).
  { pose proof (@foldM_invariant _ _ (LuaClass_line re path)
                  (fun _ st => lc_name (fst st) = name)) as Inv.
    eapply (Inv) with (pre := []) in Hf; [exact Hf| |reflexivity].
    intros pre x [a sa] [b sb] Ha Hl; simpl in *.
    apply LuaClass_line_inv in Hl as ([c1 s1] & [c2 s2] & H1 & H2 & H3).
    apply try_method_inv in H1 as [(_ & -> & _) | (m0 & c0 & Hmi & -> & _)].
    2: apply LuaMethod_init_inv in Hmi as (f & _ & _ & _ & [(_ & _ & ->) | (_ & _ & ->)]).
    all: apply try_attribute_inv in H2 as [(_ & -> & _) | (a0 & _ & -> & _)].
    all: apply attach_description_inv in H3
        as (_ & [(_ & ->) | (d & _ & [(_ & ms & _ & ->) | [(_ & az & _ & ->) | (_ & _ & ->)]])]).
    all: simpl; assumption. }
  subst name. exists content, m, parents, ls. auto.
Qed.

Lemma LuaClass_init_links (fs : FileSystem) (path : string) (c : LuaClass) :
  LuaClass_init re fs path = Ok c -> class_links (link_of_file path) c.
Proof.
  intros H. apply LuaClass_init_inv in H as (content & m & ps & ls & Ho & _ & _ & Hf).
  apply open_read_path in Ho.
  pose proof (@foldM_invariant _ _ (LuaClass_line re path)
                (fun _ st => class_links (link_of_file path) (fst st))) as Inv.
  eapply Inv with (pre := []) in Hf.
  - exact Hf.
  - intros pre x s s' Hs Hl. eapply LuaClass_line_links; eauto.
  - split; constructor.
Qed.

Lemma LuaNamespace_line_links (fns fns' : list LuaFunction) (line : string) :
  Forall (fun f => linked_to None (lf_description f)) fns ->
  LuaNamespace_line re fns line = Ok fns' ->
  Forall (fun f => linked_to None (lf_description f)) fns'.
Proof.
  intros Hf H. unfold LuaNamespace_line in H.
  apply bind_Ok in H as (fns1 & H1 & H2).
  assert (I1 : Forall (fun f => linked_to None (lf_description f)) fns1).
  { unfold try_function in H1.
    destruct (LuaFunction_init re (ArgLine line)) as [f|e] eqn:E.
    - inversion H1; subst. apply Forall_app; split; auto.
      constructor; auto. rewrite (LuaFunction_init_description _ _ _ E). exact I.
    - destruct e; try discriminate. inversion H1; subst; auto. }
  unfold attach_to_function in H2.
  apply bind_Ok in H2 as ([d|] & _ & H2).
  - eapply update_last_Forall; [| exact I1 | exact H2].
    intros x _; reflexivity.
  - inversion H2; subst; auto.
Qed.

Lemma LuaNamespace_init_links (fs : FileSystem) (path : string) (n : LuaNamespace) :
  LuaNamespace_init re fs path = Ok n ->
  Forall (fun f => linked_to None (lf_description f)) (ln_functions n).
Proof.
  unfold LuaNamespace_init. intros H.
  apply bind_Ok in H as (content & _ & H).
  apply bind_Ok in H as (name & _ & H).
  apply bind_Ok in H as (fns & Hf & H).
  inversion H; subst; simpl.
  pose proof (@foldM_invariant _ _ (LuaNamespace_line re)
                (fun _ l => Forall (fun f => linked_to None (lf_description f)) l))
    as Inv.
  eapply Inv with (pre := []) in Hf; [exact Hf | | constructor].
  intros pre x s s' Hs Hl. eapply LuaNamespace_line_links; eauto.
Qed.

End Links.

(** C8.  A description built with a source file carries the link made of
    the documentation base URL followed by the file's basename; one
    built with no source file carries no link.  So every description
    found on a method or an attribute of a class links to the class
    file, and every description found on a function of a namespace has
    no link. *)
Theorem DocDescription_link_derivation (re : scraper_regexs) (fs : FileSystem) :
  (forall d path, path <> "" ->
      dd_link (DocDescription_init d (Some path))
      = Some (doc_base_url ++ basename path))
  /\ (forall d, dd_link (DocDescription_init d None) = None)
  /\ (forall classPath c, LuaClass_init re fs classPath = Ok c ->
        Forall (fun m => linked_to (Some (doc_base_url ++ basename classPath))
                                   (lf_description m)) (lc_methods c)
        /\ Forall (fun a => linked_to (Some (doc_base_url ++ basename classPath))
                                      (la_description a)) (lc_attributes c))
  /\ (forall namespacePath n, LuaNamespace_init re fs namespacePath = Ok n ->
        Forall (fun f => linked_to None (lf_description f)) (ln_functions n)).
Proof.
  split; [|split; [|split]].
  - intros d path H. now apply DocDescription_init_file.
  - reflexivity.
  - intros classPath c H. exact (LuaClass_init_links _ _ _ _ H).
  - intros p n H. exact (LuaNamespace_init_links _ _ _ _ H).
Qed.

(* ================================================================= *)
(** ** Which exceptions the builders of one line can raise *)

Lemma group_raises (m : Match) (k : gkey) (e : exn) :
  group m k = Raise e -> e = IndexError.
Proof.
  unfold group. destruct (lookup_group m k); intros H; inversion H; reflexivity.
Qed.

Lemma bind_raises {A B} (r : result A) (k : A -> result B) (e : exn) :
  bind r k = Raise e -> r = Raise e \/ exists a, r = Ok a /\ k a = Raise e.
Proof.
  destruct r as [a|e']; simpl; intros H; [right; eauto | left; congruence].
Qed.

Lemma LuaType_init_raises (h : TypeHint) (c s : bool) (e : exn) :
  LuaType_init h c s = Raise e -> e = IndexError.
Proof.
  destruct h as [|m|x]; simpl; try discriminate.
  intros H. apply bind_raises in H as [H | (a & _ & H)]; [|discriminate].
  exact (group_raises _ _ _ H).
Qed.

Lemma mapM_raises {A B} (f : A -> result B) (l : list A) (e : exn) :
  mapM f l = Raise e -> exists x, In x l /\ f x = Raise e.
Proof.
  induction l as [|x l IH]; simpl; [discriminate|].
  intros H. apply bind_raises in H as [H | (y & _ & H)].
  - exists x; auto.
  - apply bind_raises in H as [H | (ys & _ & H)]; [|discriminate].
    destruct (IH H) as (x' & Hin & Hx). exists x'; auto.
Qed.

Section Raises.

Variable re : scraper_regexs.

Lemma LuaParam_init_raises (line : string) (e : exn) :
  LuaParam_init re line = Raise e -> e = IndexError.
Proof.
  unfold LuaParam_init. intros H.
  apply bind_raises in H as [H | (n & _ & H)].
  - unfold tryMatchString in H.
    destruct (RE_FUNCTION_PARAMETER re line) as [m|]; [|discriminate].
    apply bind_raises in H as [H | (a & _ & H)]; [|discriminate].
    exact (group_raises _ _ _ H).
  - apply bind_raises in H as [H | (t & _ & H)]; [|discriminate].
    exact (LuaType_init_raises _ _ _ _ H).
Qed.

Lemma findParameters_raises (v : option string) (e : exn) :
  findParameters re v = Raise e -> e = IndexError.
Proof.
  unfold findParameters. destruct v as [s|]; [|discriminate].
  destruct (truthy (Some s)); [|discriminate].
  intros H. apply mapM_raises in H as (x & _ & H).
  exact (LuaParam_init_raises _ _ H).
Qed.

Lemma findReturnval_raises (v : option string) (e : exn) :
  findReturnval re v = Raise e -> e = IndexError.
Proof.
  unfold findReturnval. destruct v as [s|]; [|discriminate].
  destruct (truthy (Some s)); [|discriminate].
  apply LuaType_init_raises.
Qed.

Lemma LuaFunction_initMatch_raises (m : Match) (e : exn) :
  LuaFunction_initMatch re (Some m) = Raise e -> e = IndexError.
Proof.
  simpl. intros H.
  apply bind_raises in H as [H | (n & _ & H)]; [exact (group_raises _ _ _ H)|].
  apply bind_raises in H as [H | (ps & _ & H)]; [exact (group_raises _ _ _ H)|].
  apply bind_raises in H as [H | (pl & _ & H)];
    [exact (findParameters_raises _ _ H)|].
  apply bind_raises in H as [H | (rs & _ & H)]; [exact (group_raises _ _ _ H)|].
  apply bind_raises in H as [H | (rt & _ & H)];
    [exact (findReturnval_raises _ _ H) | discriminate].
Qed.

(** The field-level error of a function line means exactly that the
    signature pattern did not match. *)
Lemma LuaFunction_initLine_invalid (line : string) :
  LuaFunction_init re (ArgLine line) = Raise InvalidFunctionRematcher ->
  RE_FUNCTION_SIGNATURE re line = None.
Proof.
  simpl. unfold LuaFunction_initLine.
  destruct (RE_FUNCTION_SIGNATURE re line) as [m|]; [|reflexivity].
  intros H. apply LuaFunction_initMatch_raises in H. discriminate.
Qed.

Lemma LuaFunction_initLine_no_match (line : string) :
  RE_FUNCTION_SIGNATURE re line = None ->
  LuaFunction_init re (ArgLine line) = Raise InvalidFunctionRematcher.
Proof.
  simpl. unfold LuaFunction_initLine. intros ->. reflexivity.
Qed.

Lemma parseDescription_raises (line : string) (e : exn) :
  parseDescription re line = Raise e -> e = IndexError.
Proof.
  unfold parseDescription, try_except, group_of.
  destruct (RE_DESCRIPTION re line) as [m|]; simpl; [|discriminate].
  destruct (group m (GIdx 1)) as [[s|]|e'] eqn:E; simpl; try discriminate.
  apply group_raises in E; subst e'. simpl. congruence.
Qed.

End Raises.

(* ================================================================= *)
(** ** The constructor of a class *)

Lemma last_index_of_snoc (name : string) (names : list (option string))
      (n : option string) :
  last_index_of name (names ++ [n])%list
  = if pystr_eqb n name then Some (List.length names)
    else last_index_of name names.
Proof.
  induction names as [|x names IH]; simpl.
  - destruct (pystr_eqb n name); reflexivity.
  - rewrite IH. destruct (pystr_eqb n name); [reflexivity|].
    destruct (last_index_of name names); reflexivity.
Qed.

Lemma pystr_eqb_eq (a : option string) (b : string) :
  pystr_eqb a b = true <-> a = Some b.
Proof.
  destruct a as [s|]; simpl.
  - rewrite String.eqb_eq. split; intros H; [subst | inversion H]; reflexivity.
  - split; discriminate.
Qed.

(** [last_index_of] finds an occurrence, and no occurrence follows it. *)
Lemma last_index_of_Some (name : string) (names : list (option string)) (i : nat) :
  last_index_of name names = Some i ->
  nth_error names i = Some (Some name)
  /\ forall j, i < j -> nth_error names j <> Some (Some name).
Proof.
  revert i; induction names as [|n names IH]; simpl; intros i H; [discriminate|].
  destruct (last_index_of name names) as [k|] eqn:E.
  - inversion H; subst. destruct (IH k eq_refl) as [H1 H2].
    split; [exact H1|]. intros [|j] Hj; [lia|]. simpl. apply H2. lia.
  - destruct (pystr_eqb n name) eqn:En; [|discriminate].
    inversion H; subst. apply pystr_eqb_eq in En. subst n.
    split; [reflexivity|]. intros [|j] Hj; [lia|]. simpl.
    clear IH H Hj. revert j. induction names as [|x names IHn]; intros j.
    + destruct j; discriminate.
    + simpl in E. destruct (last_index_of name names) eqn:E'; [discriminate|].
      destruct (pystr_eqb x name) eqn:Ex; [discriminate|].
      destruct j as [|j]; simpl.
      * intros Hx. inversion Hx; subst x. simpl in Ex.
        rewrite String.eqb_refl in Ex. discriminate.
      * apply IHn. reflexivity.
Qed.

Lemma last_index_of_None (name : string) (names : list (option string)) :
  last_index_of name names = None -> ~ In (Some name) names.
Proof.
  induction names as [|n names IH]; simpl; intros H; [tauto|].
  destruct (last_index_of name names); [discriminate|].
  destruct (pystr_eqb n name) eqn:E; [discriminate|].
  intros [Hn | Hin]; [|exact (IH eq_refl Hin)].
  subst n. simpl in E. rewrite String.eqb_refl in E. discriminate.
Qed.

Section Constructor.

Variable re : scraper_regexs.

Lemma signature_names_snoc (pre : list string) (x : string) :
  signature_names re (pre ++ [x])%list
  = (signature_names re pre ++ signature_names re [x])%list.
Proof.
  unfold signature_names. now rewrite flat_map_app.
Qed.

Lemma LuaClass_line_constructor (path cname : string) (pre : list string)
      (x : string) (st st' : LuaClass * nat) :
  constructor_invariant re cname pre st ->
  LuaClass_line re path st x = Ok st' ->
  constructor_invariant re cname (pre ++ [x])%list st'.
Proof.
  intros Hinv H.
  apply LuaClass_line_inv in H as ([c1 s1] & [c2 s2] & H1 & H2 & H3).
  destruct st as [c s], st' as [c' s'].
  assert (I1 : constructor_invariant re cname (pre ++ [x])%list (c1, s1)).
  { destruct Hinv as (Hn & Hm & Hc & Hr). simpl in Hn, Hm, Hc, Hr.
    unfold constructor_invariant. rewrite signature_names_snoc.
    apply try_method_inv in H1 as [(Hno & -> & _) | (m & c0 & Hmi & -> & _)].
    - apply LuaFunction_initLine_invalid in Hno.
      unfold signature_names at 2; simpl. rewrite Hno; simpl.
      rewrite app_nil_r. auto.
    - apply LuaMethod_init_inv in Hmi as (f & Hf & Hnm & _ & Hcase).
      simpl in Hf. apply LuaFunction_initLine_inv in Hf as (mm & Hs & Hg & _).
      assert (Hx : signature_names re [x] = [lf_name m]).
      { unfold signature_names; simpl. rewrite Hs, Hg, Hnm. reflexivity. }
      rewrite Hx. subst cname.
      destruct Hcase as [(E & -> & ->) | (E & -> & ->)];
        cbn [fst lc_name lc_methods lc_constructor set_methods set_constructor
             lf_name with_returnType];
        rewrite map_app; cbn [map]; rewrite last_index_of_snoc;
        try change (lf_name (with_returnType f (class_type (lc_name c))))
          with (lf_name f);
        rewrite E, ?length_map.
      + split; [reflexivity | split; [now rewrite Hm | split; [reflexivity|]]].
        apply Forall_app; split; [exact Hr|]. constructor; [|constructor].
        intros _. reflexivity.
      + split; [reflexivity | split; [now rewrite Hm | split; [exact Hc|]]].
        apply Forall_app; split; [exact Hr|]. constructor; [|constructor].
        rewrite E. discriminate. }
  assert (I2 : constructor_invariant re cname (pre ++ [x])%list (c2, s2)).
  { apply try_attribute_inv in H2 as [(_ & -> & _) | (a & _ & -> & _)];
      exact I1. }
  destruct I2 as (Hn & Hm & Hc & Hr); simpl in *.
  apply attach_description_inv in H3
    as (_ & [(_ & ->) | (d & _ & [(_ & ms & Hu & ->) | [(_ & az & Hu & ->) | (_ & _ & ->)]])]).
  - repeat split; assumption.
  - assert (Hmap : map lf_name ms = map lf_name (lc_methods c2))
      by (eapply update_last_map; [|exact Hu]; reflexivity).
    unfold constructor_invariant; simpl. rewrite Hmap.
    repeat split; try assumption.
    eapply update_last_Forall; [| exact Hr | exact Hu].
    intros m Hmm; exact Hmm.
  - repeat split; assumption.
  - repeat split; assumption.
Qed.

Lemma LuaClass_init_constructor (fs : FileSystem) (path : string) (c : LuaClass) :
  LuaClass_init re fs path = Ok c ->
  exists content lastSet,
    open_read fs path = Ok content
    /\ constructor_invariant re (lc_name c) (file_lines content) (c, lastSet).
Proof.
  intros H.
  apply LuaClass_init_inv in H as (content & m & ps & ls & Ho & _ & _ & Hf).
  exists content, ls. split; [exact Ho|].
  pose proof (@foldM_invariant _ _ (LuaClass_line re path)
                (constructor_invariant re (lc_name c))) as Inv.
  eapply Inv with (pre := []) in Hf.
  - exact Hf.
  - intros pre x s s'. apply LuaClass_line_constructor.
  - repeat split; constructor.
Qed.

End Constructor.

(** C6.  In a class built from a file, the methods are those of the
    lines that match the signature pattern, one entry per line, in file
    order - methods named as the class included, however many there
    are.  The recorded constructor is the last method whose name is the
    class name ([last_index_of]: the method at that position has the
    class name and no later method has it).  Its return type is the
    class type marked static: the class name, not const, static. *)
Theorem constructor_is_last_method_named_as_class
        (re : scraper_regexs) (fs : FileSystem) (classPath : string)
        (c : LuaClass) :
  LuaClass_init re fs classPath = Ok c ->
  (exists content, open_read fs classPath = Ok content
      /\ map lf_name (lc_methods c) = signature_names re (file_lines content))
  /\ lc_constructor c = last_index_of (lc_name c) (map lf_name (lc_methods c))
  /\ (forall i, lc_constructor c = Some i ->
        exists m, nth_error (lc_methods c) i = Some m
          /\ lf_name m = Some (lc_name c)
          /\ (forall j m', i < j -> nth_error (lc_methods c) j = Some m' ->
                lf_name m' <> Some (lc_name c))
          /\ lf_returnType m = class_type (lc_name c)
          /\ (lc_name c <> "" ->
              lf_returnType m = {| lt_name := Some (lc_name c);
                                   lt_isConst := false;
                                   lt_isStatic := true |})).
Proof.
  intros H.
  apply LuaClass_init_constructor in H as (content & ls & Ho & _ & Hm & Hc & Hr).
  simpl in *.
  split; [eauto|]. split; [exact Hc|].
  intros i Hi. rewrite Hc in Hi.
  apply last_index_of_Some in Hi as [Hnth Hlast].
  rewrite nth_error_map in Hnth.
  destruct (nth_error (lc_methods c) i) as [m|] eqn:En; [|discriminate].
  simpl in Hnth. injection Hnth as Hname.
  exists m. split; [reflexivity|]. split; [exact Hname|]. split.
  - intros j m' Hj Hj' Hn'. apply (Hlast j Hj).
    rewrite nth_error_map, Hj'. simpl. now rewrite Hn'.
  - assert (Hrt : lf_returnType m = class_type (lc_name c)).
    { rewrite Forall_forall in Hr. apply Hr.
      - eapply nth_error_In; eauto.
      - now apply pystr_eqb_eq. }
    split; [exact Hrt|]. intros Hne. rewrite Hrt.
    unfold class_type, LuaType_initFlat.
    apply String_eqb_false_iff in Hne. rewrite Hne. reflexivity.
Qed.

(* ================================================================= *)
(** ** With a well-formed pattern library the line builders return *)

Lemma defines_group (m : Match) (k : gkey) :
  defines m k -> exists v, group m k = Ok v.
Proof.
  intros [v H]. unfold group. rewrite H. eauto.
Qed.

Lemma captures_group (m : Match) (k : gkey) :
  captures m k -> exists s, group m k = Ok (Some s).
Proof.
  intros [s H]. unfold group. rewrite H. eauto.
Qed.

Lemma mapM_total {A B} (f : A -> result B) (l : list A) :
  (forall x, exists y, f x = Ok y) -> exists ys, mapM f l = Ok ys.
Proof.
  intros Hf. induction l as [|x l [ys IH]]; simpl; [eauto|].
  destruct (Hf x) as [y ->]. rewrite IH. simpl. eauto.
Qed.

Lemma LuaType_init_search_total (search : string -> option Match) :
  (forall s m, search s = Some m -> defines m (GName "type")) ->
  forall s, exists t, LuaType_init (hint_of_search (search s)) false false = Ok t.
Proof.
  intros Hd s. destruct (search s) as [m|] eqn:E; simpl; [|eauto].
  destruct (defines_group _ _ (Hd _ _ E)) as [v ->]. simpl. eauto.
Qed.

Section Totality.

Variable re : scraper_regexs.
Hypothesis wf : well_formed re.

Lemma LuaParam_init_total (line : string) :
  exists p, LuaParam_init re line = Ok p.
Proof.
  unfold LuaParam_init.
  destruct (LuaType_init_search_total _ (fun s m H => proj2 (wf_parameter re wf s m H)) line)
    as [t Ht].
  destruct (RE_FUNCTION_PARAMETER re line) as [m|] eqn:E; simpl.
  - destruct (defines_group _ _ (proj1 (wf_parameter re wf _ _ E))) as [v ->].
    simpl in *. rewrite Ht. simpl. eauto.
  - eauto.
Qed.

Lemma findParameters_total (v : option string) :
  exists ps, findParameters re v = Ok ps.
Proof.
  unfold findParameters. destruct v as [s|]; [|eauto].
  destruct (truthy (Some s)); [|eauto].
  apply mapM_total. exact LuaParam_init_total.
Qed.

Lemma findReturnval_total (v : option string) :
  exists t, findReturnval re v = Ok t.
Proof.
  unfold findReturnval. destruct v as [s|]; [|simpl; eauto].
  destruct (truthy (Some s)); [|simpl; eauto].
  apply (LuaType_init_search_total _ (wf_returns re wf)).
Qed.

Lemma LuaFunction_initLine_total (line : string) :
  (exists f, LuaFunction_init re (ArgLine line) = Ok f)
  \/ LuaFunction_init re (ArgLine line) = Raise InvalidFunctionRematcher.
Proof.
  simpl. unfold LuaFunction_initLine.
  destruct (RE_FUNCTION_SIGNATURE re line) as [m|] eqn:E; [left | right; reflexivity].
  destruct (wf_signature re wf _ _ E) as (Hn & Hp & Hr).
  simpl.
  destruct (defines_group _ _ Hn) as [n ->].
  destruct (defines_group _ _ Hp) as [ps ->].
  destruct (defines_group _ _ Hr) as [rs ->]. simpl.
  destruct (findParameters_total ps) as [pl ->].
  destruct (findReturnval_total rs) as [rt ->]. simpl. eauto.
Qed.

Lemma LuaAttribute_init_total (line : string) :
  (exists a, LuaAttribute_init re line = Ok a)
  \/ LuaAttribute_init re line = Raise InvalidAttributeRematcher.
Proof.
  unfold LuaAttribute_init.
  destruct (RE_ATTRIBUTE re line) as [m|] eqn:E; simpl; [|right; reflexivity].
  destruct (wf_attribute re wf _ _ E) as (Hn & Ht).
  destruct (defines_group _ _ Hn) as [[n|] ->]; simpl; [left | right; reflexivity].
  destruct (captures_group _ _ Ht) as [t ->]. simpl.
  destruct (LuaType_init_search_total _ (wf_attribute_type re wf)
              (RE_HTML_REPLACER_sub re t)) as [lt ->].
  simpl. eauto.
Qed.

Lemma parseDescription_total (line : string) :
  exists d, parseDescription re line = Ok d.
Proof.
  unfold parseDescription, try_except, group_of.
  destruct (RE_DESCRIPTION re line) as [m|] eqn:E; simpl; [|eauto].
  destruct (defines_group _ _ (wf_description re wf _ _ E)) as [[s|] ->];
    simpl; eauto.
Qed.

Lemma LuaClass_line_total (path : string) (st : LuaClass * nat) (line : string) :
  last_set_ok st ->
  exists st', LuaClass_line re path st line = Ok st' /\ last_set_ok st'.
Proof.
  destruct st as [c ls]. intros Hok. unfold LuaClass_line.
  assert (H1 : exists st1, try_method re (c, ls) line = Ok st1 /\ last_set_ok st1).
  { unfold try_method, LuaMethod_init.
    destruct (LuaFunction_initLine_total line) as [[f ->] | ->]; simpl.
    - destruct Hok as [_ Ha].
      destruct (pystr_eqb (lf_name f) (lc_name c)); simpl;
        eexists; (split; [reflexivity|]); split; simpl;
        try (intros _; now destruct (lc_methods c));
        intros; discriminate.
    - eauto. }
  destruct H1 as ([c1 s1] & -> & Hok1). cbn [bind].
  assert (H2 : exists st2, try_attribute re (c1, s1) line = Ok st2
                           /\ last_set_ok st2).
  { unfold try_attribute.
    destruct (LuaAttribute_init_total line) as [[a ->] | ->].
    - eexists; split; [reflexivity|]. split; simpl.
      + intros; discriminate.
      + intros _. now destruct (lc_attributes c1).
    - eauto. }
  destruct H2 as ([c2 s2] & -> & [Hm2 Ha2]). cbn [bind]. simpl in Hm2, Ha2.
  unfold attach_description.
  destruct (parseDescription_total line) as [[d|] ->]; simpl.
  - destruct (Nat.eqb_spec s2 METHOD_SET) as [E1|E1].
    + destruct (update_last_some
                  (fun m => with_description m (DocDescription_init d (Some path)))
                  (lc_methods c2) (Hm2 E1)) as [ms Hms].
      rewrite Hms; simpl. eexists; split; [reflexivity|].
      split; simpl; [intros _ | intros HH; rewrite E1 in HH; discriminate].
      apply update_last_length in Hms. intros ->. simpl in Hms.
      specialize (Hm2 E1). destruct (lc_methods c2); [congruence | discriminate].
    + destruct (Nat.eqb_spec s2 ATTRIB_SET) as [E2|E2].
      * destruct (update_last_some
                    (fun a => attr_with_description a
                                (DocDescription_init d (Some path)))
                    (lc_attributes c2) (Ha2 E2)) as [az Haz].
        rewrite Haz; simpl. eexists; split; [reflexivity|].
        split; simpl; [intros; congruence | intros _].
        apply update_last_length in Haz. intros ->. simpl in Haz.
        specialize (Ha2 E2). destruct (lc_attributes c2); [congruence | discriminate].
      * eexists; split; [reflexivity|]. split; simpl; intros; congruence.
  - eexists; split; [reflexivity|]. split; assumption.
Qed.

Lemma LuaClass_init_total (fs : FileSystem) (path content : string)
      (m : Match) (name : string) :
  open_read fs path = Ok content ->
  RE_CLASS_NAME re content = Some m ->
  group m (GIdx 1) = Ok (Some name) ->
  exists c, LuaClass_init re fs path = Ok c /\ lc_name c = name.
Proof.
  intros Ho Hm Hg.
  assert (exists c, LuaClass_init re fs path = Ok c) as [c Hc].
  { unfold LuaClass_init. rewrite Ho; simpl. rewrite Hm; simpl. rewrite Hg; simpl.
    assert (exists ps, match RE_INHERITS_FROM re content with
                       | Some inheritedMatcher =>
                           p <- group inheritedMatcher (GIdx 1) ;; Ok [p]
                       | None => Ok []
                       end = Ok ps) as [ps ->].
    { destruct (RE_INHERITS_FROM re content) as [mi|] eqn:E; [|eauto].
      destruct (defines_group _ _ (wf_inherits re wf _ _ E)) as [v ->].
      simpl; eauto. }
    simpl.
    match goal with
    | |- context [foldM ?f ?l ?s0] =>
        destruct (@foldM_total _ _ f (fun _ => True) last_set_ok
                    (fun x st _ Hs => LuaClass_line_total path st x Hs)
                    l s0) as (st & -> & _)
    end.
    - apply Forall_forall; auto.
    - split; simpl; intros; discriminate.
    - simpl. eauto. }
  exists c. split; [exact Hc|].
  apply LuaClass_init_inv in Hc as (content' & m' & _ & _ & Ho' & Hm' & Hg' & _).
  congruence.
Qed.

End Totality.

(* ================================================================= *)
(** ** Attaching descriptions in a class *)

Section Attachment.

Variable re : scraper_regexs.

Lemma LuaClass_line_neutral (path : string) (st : LuaClass * nat) (l : string) :
  is_neutral_line re l -> LuaClass_line re path st l = Ok st.
Proof.
  intros (Hf & Ha & Hd). destruct st as [c ls].
  unfold LuaClass_line, try_method, LuaMethod_init. rewrite Hf; simpl.
  unfold try_attribute. rewrite Ha; simpl.
  unfold attach_description. rewrite Hd; reflexivity.
Qed.

Lemma foldM_neutral (path : string) (ls : list string) (st : LuaClass * nat) :
  Forall (is_neutral_line re) ls ->
  foldM (LuaClass_line re path) ls st = Ok st.
Proof.
  induction 1 as [|l ls Hl _ IH]; simpl; [reflexivity|].
  rewrite LuaClass_line_neutral by assumption. exact IH.
Qed.

Lemma LuaClass_line_method (path : string) (c : LuaClass) (ls : nat)
      (l : string) (f : LuaFunction) :
  is_method_line re l f ->
  exists c', LuaClass_line re path (c, ls) l = Ok (c', METHOD_SET)
    /\ lc_name c' = lc_name c
    /\ lc_methods c' = (lc_methods c ++ [as_method (lc_name c) f])%list
    /\ lc_attributes c' = lc_attributes c.
Proof.
  intros (Hf & Ha & Hd).
  unfold LuaClass_line, try_method, LuaMethod_init, as_method. rewrite Hf; simpl.
  destruct (pystr_eqb (lf_name f) (lc_name c)); simpl;
    unfold try_attribute; rewrite Ha; simpl;
    unfold attach_description; rewrite Hd; simpl;
    eexists; repeat split.
Qed.

Lemma LuaClass_line_attribute (path : string) (c : LuaClass) (ls : nat)
      (l : string) (a : LuaAttribute) :
  is_attribute_line re l a ->
  LuaClass_line re path (c, ls) l
  = Ok (set_attributes c (lc_attributes c ++ [a])%list, ATTRIB_SET).
Proof.
  intros (Hf & Ha & Hd).
  unfold LuaClass_line, try_method, LuaMethod_init. rewrite Hf; simpl.
  unfold try_attribute. rewrite Ha; simpl.
  unfold attach_description. rewrite Hd; reflexivity.
Qed.

Lemma LuaClass_line_description (path : string) (c : LuaClass) (ls : nat)
      (l d : string) :
  is_description_line re l d ->
  LuaClass_line re path (c, ls) l
  = attach_description re path (c, ls) l.
Proof.
  intros (Hf & Ha & Hd).
  unfold LuaClass_line, try_method, LuaMethod_init. rewrite Hf; simpl.
  unfold try_attribute. rewrite Ha; reflexivity.
Qed.

Lemma LuaClass_line_description_dropped (path : string) (c : LuaClass)
      (l d : string) :
  is_description_line re l d -> LuaClass_line re path (c, 0) l = Ok (c, 0).
Proof.
  intros H. rewrite (LuaClass_line_description path c 0 l d H).
  destruct H as (_ & _ & Hd). unfold attach_description. rewrite Hd. reflexivity.
Qed.

Lemma LuaClass_line_description_method (path : string) (c : LuaClass)
      (l d : string) (ms : list LuaFunction) (m : LuaFunction) :
  is_description_line re l d ->
  lc_methods c = (ms ++ [m])%list ->
  LuaClass_line re path (c, METHOD_SET) l
  = Ok (set_methods c (ms ++ [with_description m
                                 (DocDescription_init d (Some path))])%list,
        METHOD_SET).
Proof.
  intros H Hm. rewrite (LuaClass_line_description path c _ l d H).
  destruct H as (_ & _ & Hd). unfold attach_description. rewrite Hd; simpl.
  rewrite Hm, update_last_snoc. reflexivity.
Qed.

Lemma LuaClass_line_description_attribute (path : string) (c : LuaClass)
      (l d : string) (az : list LuaAttribute) (a : LuaAttribute) :
  is_description_line re l d ->
  lc_attributes c = (az ++ [a])%list ->
  LuaClass_line re path (c, ATTRIB_SET) l
  = Ok (set_attributes c (az ++ [attr_with_description a
                                   (DocDescription_init d (Some path))])%list,
        ATTRIB_SET).
Proof.
  intros H Ha. rewrite (LuaClass_line_description path c _ l d H).
  destruct H as (_ & _ & Hd). unfold attach_description. rewrite Hd; simpl.
  rewrite Ha, update_last_snoc. reflexivity.
Qed.

End Attachment.

Lemma DocDescription_init_record (d path : string) :
  path <> "" ->
  DocDescription_init d (Some path)
  = {| dd_description := d; dd_link := Some (doc_base_url ++ basename path) |}.
Proof.
  intros H. unfold DocDescription_init; simpl.
  apply String_eqb_false_iff in H. rewrite H. reflexivity.
Qed.

Lemma as_method_name (cname : string) (f : LuaFunction) :
  lf_name (as_method cname f) = lf_name f
  /\ lf_parameters (as_method cname f) = lf_parameters f
  /\ lf_description (as_method cname f) = lf_description f.
Proof.
  unfold as_method. destruct (pystr_eqb (lf_name f) cname); repeat split.
Qed.

(** C5.  In a class file whose lines are a method line M1, a
    description line D1, an attribute line A1 and a description line D2,
    in this order (lines that give nothing may stand before, between and
    after them), the class is built with one method and one attribute:
    the method is M1 and its description is D1, with the link of the
    file; the attribute is A1 and its description is D2.  In general a
    description line gives its description to the last element of the
    list that was appended to last - the last method after a method,
    the last attribute after an attribute - and leaves the elements
    before it and the other list as they were; so a method line and the
    description line after it, read in any state of the loop, add one
    described method after the methods already there, and likewise for
    an attribute.  And a description line
    read while nothing has been recognised yet leaves the class as it
    is, without error: reading goes on as if the line, and the empty
    lines before it, were not there. *)
Theorem descriptions_attach_to_the_last_field
        (re : scraper_regexs) (fs : FileSystem) (classPath content : string)
        (m : Match) (cname : string)
        (h g1 g2 g3 t : list string) (l1 l2 l3 l4 : string)
        (f1 : LuaFunction) (d1 : string) (a1 : LuaAttribute) (d2 : string) :
  well_formed re ->
  open_read fs classPath = Ok content ->
  RE_CLASS_NAME re content = Some m ->
  group m (GIdx 1) = Ok (Some cname) ->
  file_lines content = (h ++ l1 :: g1 ++ l2 :: g2 ++ l3 :: g3 ++ l4 :: t)%list ->
  Forall (is_neutral_line re) (h ++ g1 ++ g2 ++ g3 ++ t)%list ->
  is_method_line re l1 f1 ->
  is_description_line re l2 d1 ->
  is_attribute_line re l3 a1 ->
  is_description_line re l4 d2 ->
  (exists c m1 a,
      LuaClass_init re fs classPath = Ok c
      /\ lc_methods c = [m1]
      /\ lf_name m1 = lf_name f1
      /\ lf_parameters m1 = lf_parameters f1
      /\ lf_description m1
         = Some {| dd_description := d1;
                   dd_link := Some (doc_base_url ++ basename classPath) |}
      /\ lc_attributes c = [a]
      /\ la_name a = la_name a1
      /\ la_luaType a = la_luaType a1
      /\ la_description a
         = Some {| dd_description := d2;
                   dd_link := Some (doc_base_url ++ basename classPath) |}
      /\ lc_methods c
         = [with_description (as_method cname f1)
                             (DocDescription_init d1 (Some classPath))]
      /\ lc_attributes c
         = [attr_with_description a1 (DocDescription_init d2 (Some classPath))])
  /\ (forall c l d, is_description_line re l d ->
        (forall ms m0, lc_methods c = (ms ++ [m0])%list ->
           exists c' m',
             LuaClass_line re classPath (c, METHOD_SET) l = Ok (c', METHOD_SET)
             /\ lc_methods c' = (ms ++ [m'])%list
             /\ lf_name m' = lf_name m0
             /\ lf_parameters m' = lf_parameters m0
             /\ lf_returnType m' = lf_returnType m0
             /\ lf_description m'
                = Some {| dd_description := d;
                          dd_link := Some (doc_base_url ++ basename classPath) |}
             /\ lc_attributes c' = lc_attributes c)
        /\ (forall az a0, lc_attributes c = (az ++ [a0])%list ->
              exists c' a',
                LuaClass_line re classPath (c, ATTRIB_SET) l = Ok (c', ATTRIB_SET)
                /\ lc_attributes c' = (az ++ [a'])%list
                /\ la_name a' = la_name a0
                /\ la_luaType a' = la_luaType a0
                /\ la_description a'
                   = Some {| dd_description := d;
                             dd_link := Some (doc_base_url ++ basename classPath) |}
                /\ lc_methods c' = lc_methods c))
  /\ (forall c st,
        (exists c' m',
            foldM (LuaClass_line re classPath) (l1 :: g1 ++ [l2])%list (c, st)
            = Ok (c', METHOD_SET)
            /\ lc_methods c' = (lc_methods c ++ [m'])%list
            /\ lf_name m' = lf_name f1
            /\ lf_description m'
               = Some {| dd_description := d1;
                         dd_link := Some (doc_base_url ++ basename classPath) |}
            /\ lc_attributes c' = lc_attributes c)
        /\ (exists c' a',
               foldM (LuaClass_line re classPath) (l3 :: g3 ++ [l4])%list (c, st)
               = Ok (c', ATTRIB_SET)
               /\ lc_attributes c' = (lc_attributes c ++ [a'])%list
               /\ la_name a' = la_name a1
               /\ la_description a'
                  = Some {| dd_description := d2;
                            dd_link := Some (doc_base_url ++ basename classPath) |}
               /\ lc_methods c' = lc_methods c))
  /\ (forall c l d rest, is_description_line re l d ->
        LuaClass_line re classPath (c, 0) l = Ok (c, 0)
        /\ foldM (LuaClass_line re classPath) (h ++ l :: rest)%list (c, 0)
           = foldM (LuaClass_line re classPath) rest (c, 0)).
Proof.
  intros wf Ho Hm Hg Hl Hn H1 H2 H3 H4.
  apply Forall_app in Hn as [Hh Hn]. apply Forall_app in Hn as [Hg1 Hn].
  apply Forall_app in Hn as [Hg2 Hn]. apply Forall_app in Hn as [Hg3 Ht].
  pose proof (open_read_path _ _ _ Ho) as Hpath.
  assert (Built : exists c, LuaClass_init re fs classPath = Ok c
            /\ lc_methods c
               = [with_description (as_method cname f1)
                                   (DocDescription_init d1 (Some classPath))]
            /\ lc_attributes c
               = [attr_with_description a1
                    (DocDescription_init d2 (Some classPath))]).
  { unfold LuaClass_init. rewrite Ho; simpl. rewrite Hm; simpl. rewrite Hg; simpl.
    assert (exists ps, match RE_INHERITS_FROM re content with
                       | Some inheritedMatcher =>
                           p <- group inheritedMatcher (GIdx 1) ;; Ok [p]
                       | None => Ok []
                       end = Ok ps) as [ps ->].
    { destruct (RE_INHERITS_FROM re content) as [mi|] eqn:E; [|eauto].
      destruct (defines_group _ _ (wf_inherits re wf _ _ E)) as [v ->].
      simpl; eauto. }
    simpl. rewrite Hl.
    rewrite foldM_app, (foldM_neutral re classPath h _ Hh). simpl.
    match goal with
    | |- context [LuaClass_line re classPath (?c0, 0) l1] =>
        destruct (LuaClass_line_method re classPath c0 0 l1 f1 H1)
          as (c1 & -> & Hn1 & Hm1 & Ha1)
    end.
    simpl in Hn1, Hm1, Ha1. simpl.
    rewrite foldM_app, (foldM_neutral re classPath g1 _ Hg1). simpl.
    rewrite (LuaClass_line_description_method re classPath c1 l2 d1 [] _ H2 Hm1).
    simpl.
    rewrite foldM_app, (foldM_neutral re classPath g2 _ Hg2). simpl.
    rewrite (LuaClass_line_attribute re classPath _ _ l3 a1 H3). simpl.
    rewrite foldM_app, (foldM_neutral re classPath g3 _ Hg3). simpl.
    erewrite (LuaClass_line_description_attribute re classPath _ l4 d2 [] a1 H4)
      by (simpl; rewrite Ha1; reflexivity).
    simpl. rewrite (foldM_neutral re classPath t _ Ht). simpl.
    eexists; split; [reflexivity|]. simpl. split; reflexivity. }
  split; [|split; [|split]].
  - destruct Built as (c & Hc & Hms & Has).
    exists c,
      (with_description (as_method cname f1)
                        (DocDescription_init d1 (Some classPath))),
      (attr_with_description a1 (DocDescription_init d2 (Some classPath))).
    destruct (as_method_name cname f1) as (N1 & N2 & _).
    split; [exact Hc|]. split; [exact Hms|].
    split; [exact N1|]. split; [exact N2|].
    split; [simpl; now rewrite (DocDescription_init_record d1 classPath Hpath)|].
    split; [exact Has|]. split; [reflexivity|]. split; [reflexivity|].
    split; [simpl; now rewrite (DocDescription_init_record d2 classPath Hpath)|].
    split; [exact Hms | exact Has].
  - intros c l d Hd. split.
    + intros ms m0 Hms.
      exists (set_methods c
                (ms ++ [with_description m0
                          (DocDescription_init d (Some classPath))])%list),
             (with_description m0 (DocDescription_init d (Some classPath))).
      split; [exact (LuaClass_line_description_method re classPath c l d ms m0
                       Hd Hms)|].
      split; [reflexivity|]. split; [reflexivity|]. split; [reflexivity|].
      split; [reflexivity|].
      split; [simpl; now rewrite (DocDescription_init_record d classPath Hpath)|].
      reflexivity.
    + intros az a0 Haz.
      exists (set_attributes c
                (az ++ [attr_with_description a0
                          (DocDescription_init d (Some classPath))])%list),
             (attr_with_description a0 (DocDescription_init d (Some classPath))).
      split; [exact (LuaClass_line_description_attribute re classPath c l d az a0
                       Hd Haz)|].
      split; [reflexivity|]. split; [reflexivity|]. split; [reflexivity|].
      split; [simpl; now rewrite (DocDescription_init_record d classPath Hpath)|].
      reflexivity.
  - intros c st. split.
    + cbn [foldM].
      destruct (LuaClass_line_method re classPath c st l1 f1 H1)
        as (c1 & -> & Hn1 & Hm1 & Ha1).
      cbn [bind].
      rewrite foldM_app, (foldM_neutral re classPath g1 _ Hg1). cbn [bind foldM].
      rewrite (LuaClass_line_description_method re classPath c1 l2 d1 _ _ H2 Hm1).
      cbn [bind].
      destruct (as_method_name (lc_name c) f1) as (N1 & _ & _).
      eexists; eexists. split; [reflexivity|].
      split; [reflexivity|]. split; [exact N1|].
      split; [simpl; now rewrite (DocDescription_init_record d1 classPath Hpath)|].
      exact Ha1.
    + cbn [foldM].
      rewrite (LuaClass_line_attribute re classPath c st l3 a1 H3). cbn [bind].
      rewrite foldM_app, (foldM_neutral re classPath g3 _ Hg3). cbn [bind foldM].
      rewrite (LuaClass_line_description_attribute re classPath
                 (set_attributes c (lc_attributes c ++ [a1])%list) l4 d2
                 (lc_attributes c) a1 H4 eq_refl).
      cbn [bind].
      eexists; eexists. split; [reflexivity|].
      split; [reflexivity|]. split; [reflexivity|].
      split; [simpl; now rewrite (DocDescription_init_record d2 classPath Hpath)|].
      reflexivity.
  - intros c l d rest Hd.
    pose proof (LuaClass_line_description_dropped re classPath c l d Hd) as E.
    split; [exact E|].
    rewrite foldM_app, (foldM_neutral re classPath h _ Hh). simpl.
    rewrite E. reflexivity.
Qed.

(* ================================================================= *)
(** ** A class file without a class name *)

(** C2 (amended).  Building a class from a file in which the class-name
    pattern matches nowhere fails with AttributeError, the error of
    reading a group of the absent match: neither UpdatedDocError nor one
    of the field-level errors.  Whatever the name of the file, when the
    pattern matches and its group 1 took part in the match (and the
    pattern library defines the groups the builders read), the class is
    built and its name is the captured text. *)
Theorem LuaClass_name_or_AttributeError
        (re : scraper_regexs) (fs : FileSystem) (classPath content : string) :
  open_read fs classPath = Ok content ->
  (RE_CLASS_NAME re content = None ->
     LuaClass_init re fs classPath = Raise AttributeError
     /\ is_structural AttributeError = false
     /\ is_field_level AttributeError = false)
  /\ (well_formed re ->
      forall m name,
        RE_CLASS_NAME re content = Some m ->
        group m (GIdx 1) = Ok (Some name) ->
        exists c, LuaClass_init re fs classPath = Ok c /\ lc_name c = name).
Proof.
  intros Ho. split.
  - intros Hn. unfold LuaClass_init. rewrite Ho; simpl. rewrite Hn; simpl.
    repeat split.
  - intros wf m name Hm Hg.
    exact (LuaClass_init_total re wf fs classPath content m name Ho Hm Hg).
Qed.

(* ================================================================= *)
(** ** Namespaces: the name, and descriptions before any function *)

Section Namespace.

Variable re : scraper_regexs.

Lemma LuaNamespace_name_no_match (path content : string) :
  RE_NAMESPACE_NAME re content = None ->
  LuaNamespace_name re path content
  = if String.eqb (basename path) "group__funcs.html"
    then Ok (Some "_G") else Raise AttributeError.
Proof.
  intros H. unfold LuaNamespace_name. rewrite H. reflexivity.
Qed.

Lemma try_function_no_signature (fns : list LuaFunction) (l : string) :
  RE_FUNCTION_SIGNATURE re l = None -> try_function re fns l = Ok fns.
Proof.
  intros H. unfold try_function.
  rewrite (LuaFunction_initLine_no_match re l H). reflexivity.
Qed.

(** A description line with no function before it stops the loop. *)
Lemma namespace_loop_orphan (pre post : list string) (d t : string) :
  Forall (fun l => RE_FUNCTION_SIGNATURE re l = None) (pre ++ [d])%list ->
  parseDescription re d = Ok (Some t) ->
  foldM (LuaNamespace_line re) (pre ++ d :: post)%list [] = Raise IndexError.
Proof.
  intros Hs Hd. induction pre as [|l pre IH]; simpl in *.
  - inversion Hs; subst. unfold LuaNamespace_line.
    rewrite try_function_no_signature by assumption. simpl.
    unfold attach_to_function. rewrite Hd. reflexivity.
  - inversion Hs; subst. unfold LuaNamespace_line.
    rewrite try_function_no_signature by assumption. simpl.
    unfold attach_to_function.
    destruct (parseDescription re l) as [[x|]|e] eqn:E; simpl.
    + reflexivity.
    + apply IH. assumption.
    + apply parseDescription_raises in E. now subst e.
Qed.

Hypothesis wf : well_formed re.

Lemma namespace_loop_total (lines : list string) :
  forall (fns : list LuaFunction) (seen : bool),
    (seen = true -> fns <> []) ->
    descriptions_follow_functions re seen lines = true ->
    exists fns', foldM (LuaNamespace_line re) lines fns = Ok fns'.
Proof.
  induction lines as [|l lines IH]; intros fns seen Hseen Hd; simpl; [eauto|].
  simpl in Hd. apply andb_true_iff in Hd as [Hl Hrest].
  unfold LuaNamespace_line.
  assert (exists fns1, try_function re fns l = Ok fns1
            /\ (seen || is_some (RE_FUNCTION_SIGNATURE re l) = true -> fns1 <> []))
    as (fns1 & -> & H1).
  { unfold try_function.
    destruct (LuaFunction_initLine_total re wf l) as [[f Hf] | Hf]; rewrite Hf.
    - eexists; split; [reflexivity|]. intros _. now destruct fns.
    - eexists; split; [reflexivity|].
      rewrite (LuaFunction_initLine_invalid re l Hf). simpl.
      rewrite orb_false_r. exact Hseen. }
  simpl. unfold attach_to_function.
  destruct (parseDescription_total re wf l) as [[d|] Hp]; rewrite Hp in *; simpl.
  - rewrite orb_false_r in Hl.
    destruct (update_last_some
                (fun f => with_description f (DocDescription_init d None))
                fns1 (H1 Hl)) as [fns2 H2].
    rewrite H2.
    apply (IH fns2 (seen || is_some (RE_FUNCTION_SIGNATURE re l)));
      [|exact Hrest].
    intros _. apply update_last_length in H2. specialize (H1 Hl).
    destruct fns2; [|discriminate]. destruct fns1; [congruence | discriminate].
  - apply (IH fns1 (seen || is_some (RE_FUNCTION_SIGNATURE re l)));
      [exact H1 | exact Hrest].
Qed.

End Namespace.

(** C3 (amended).  When the namespace-name pattern matches nowhere in
    the file named [group__funcs.html], the name is set to ["_G"] and
    the error goes no further: the lines are then read, and the
    namespace is built with that name when no description line comes
    before the first function line (and the pattern library defines the
    groups the builders read).  In any other file the error leaves the
    constructor as it is: AttributeError, not UpdatedDocError. *)
Theorem LuaNamespace_global_functions_exception
        (re : scraper_regexs) (fs : FileSystem) (namespacePath content : string) :
  open_read fs namespacePath = Ok content ->
  RE_NAMESPACE_NAME re content = None ->
  (basename namespacePath = "group__funcs.html" ->
     LuaNamespace_name re namespacePath content = Ok (Some "_G")
     /\ (well_formed re ->
         descriptions_follow_functions re false (file_lines content) = true ->
         exists functions,
           LuaNamespace_init re fs namespacePath
           = Ok {| ln_name := Some "_G"; ln_functions := functions |}))
  /\ (basename namespacePath <> "group__funcs.html" ->
      LuaNamespace_init re fs namespacePath = Raise AttributeError
      /\ is_structural AttributeError = false).
Proof.
  intros Ho Hn. split.
  - intros Hb.
    assert (E : LuaNamespace_name re namespacePath content = Ok (Some "_G")).
    { rewrite LuaNamespace_name_no_match by assumption.
      rewrite Hb. reflexivity. }
    split; [exact E|]. intros wf Hd.
    destruct (namespace_loop_total re wf (file_lines content) [] false)
      as [fns Hf]; [discriminate | exact Hd |].
    exists fns. unfold LuaNamespace_init.
    rewrite Ho; simpl. rewrite E; simpl. rewrite Hf. reflexivity.
  - intros Hb. split; [|reflexivity].
    unfold LuaNamespace_init. rewrite Ho; simpl.
    rewrite LuaNamespace_name_no_match by assumption.
    apply String_eqb_false_iff in Hb. rewrite Hb. reflexivity.
Qed.

(** C10.  In a namespace file (one whose name pass succeeds) where a
    line that carries a description stands before any line that matches
    the signature pattern, the constructor fails with IndexError, the
    error of indexing the empty list of functions.  The class builder,
    given such a line while nothing has been recognised, keeps the class
    unchanged and raises nothing. *)
Theorem LuaNamespace_description_before_function_raises
        (re : scraper_regexs) (fs : FileSystem) (namespacePath content : string)
        (name : option string) (pre post : list string) (d t : string) :
  open_read fs namespacePath = Ok content ->
  LuaNamespace_name re namespacePath content = Ok name ->
  file_lines content = (pre ++ d :: post)%list ->
  Forall (fun l => RE_FUNCTION_SIGNATURE re l = None) (pre ++ [d])%list ->
  parseDescription re d = Ok (Some t) ->
  LuaNamespace_init re fs namespacePath = Raise IndexError
  /\ (forall classPath c,
        RE_ATTRIBUTE re d = None ->
        LuaClass_line re classPath (c, 0) d = Ok (c, 0)).
Proof.
  intros Ho Hn Hl Hs Hd. split.
  - unfold LuaNamespace_init. rewrite Ho; simpl. rewrite Hn; simpl.
    rewrite Hl, (namespace_loop_orphan re pre post d t Hs Hd). reflexivity.
  - intros classPath c Ha.
    apply (LuaClass_line_description_dropped re classPath c d t).
    repeat split.
    + apply LuaFunction_initLine_no_match.
      apply Forall_app in Hs as [_ Hs]. now inversion Hs.
    + unfold LuaAttribute_init. rewrite Ha. reflexivity.
    + exact Hd.
Qed.

(* ================================================================= *)
(** ** Lines and positions *)

Lemma file_lines_nil (s : string) : file_lines s = [] -> s = "".
Proof.
  destruct s as [|c s]; simpl; [reflexivity|].
  destruct (Ascii.eqb c newline); [discriminate|].
  destruct (file_lines s); discriminate.
Qed.

Lemma file_lines_drop (s l : string) (ls : list string) :
  file_lines s = l :: ls -> file_lines (string_drop (String.length l) s) = ls.
Proof.
  revert l ls; induction s as [|c s IH]; intros l ls; simpl; [discriminate|].
  destruct (Ascii.eqb c newline).
  - intros H; inversion H; subst. reflexivity.
  - destruct (file_lines s) as [|l' ls'] eqn:E; intros H; inversion H; subst.
    + apply file_lines_nil in E. subst s. reflexivity.
    + simpl. apply IH. reflexivity.
Qed.

Lemma string_drop_add (a b : nat) (s : string) :
  string_drop (a + b) s = string_drop b (string_drop a s).
Proof.
  revert s; induction a as [|a IH]; intros s; simpl; [reflexivity|].
  destruct s as [|c s]; [|apply IH].
  destruct b; reflexivity.
Qed.

Lemma file_lines_drop_prefix (pre rest : list string) (s : string) :
  file_lines s = (pre ++ rest)%list ->
  file_lines (string_drop (total_length pre) s) = rest.
Proof.
  revert s; induction pre as [|l pre IH]; intros s H; simpl in *; [exact H|].
  rewrite string_drop_add. apply IH. now apply file_lines_drop.
Qed.

Lemma file_lines_nonempty (s : string) :
  Forall (fun l => 0 < String.length l) (file_lines s).
Proof.
  induction s as [|c s IH]; simpl; [constructor|].
  destruct (Ascii.eqb c newline).
  - constructor; [simpl; lia | exact IH].
  - destruct (file_lines s) as [|l ls]; constructor; simpl; try lia.
    + constructor.
    + now inversion IH.
Qed.

Lemma total_length_file_lines (s : string) :
  total_length (file_lines s) = String.length s.
Proof.
  induction s as [|c s IH]; simpl; [reflexivity|].
  destruct (Ascii.eqb c newline); simpl; [now rewrite IH|].
  destruct (file_lines s) as [|l ls]; simpl in *; lia.
Qed.

Lemma string_drop_length (n : nat) (s : string) :
  String.length (string_drop n s) = String.length s - n.
Proof.
  revert s; induction n as [|n IH]; intros s; simpl; [lia|].
  destruct s as [|c s]; simpl; [reflexivity | apply IH].
Qed.

(* ================================================================= *)
(** ** The enumerator stream reader *)

Section StreamFacts.

Variable re : scraper_regexs.

(** The reader only moves forward, stays within the lines it was given,
    and a record costs at least one line. *)
Lemma streamInit_while_pos (fileName : string) (lines : list string) :
  Forall (fun l => 0 < String.length l) lines ->
  forall f name link members r f',
    streamInit_while re fileName lines f name link members = Ok (r, f') ->
    io_name f' = io_name f /\ io_content f' = io_content f
    /\ io_pos f <= io_pos f' <= io_pos f + total_length lines
    /\ (name = None -> r <> None -> io_pos f < io_pos f').
Proof.
  induction 1 as [|l lines Hl _ IH]; intros f name link members r f' H; simpl in H.
  - destruct name; inversion H; subst; simpl;
      (repeat split; [lia | lia | congruence]).
  - simpl total_length.
    destruct (RE_ENUM_NAME re l) as [m|].
    + destruct name as [n|].
      * apply bind_Ok in H as (k & _ & H). inversion H; subst; simpl.
        unfold tell. split; [reflexivity | split; [reflexivity | split; [lia|]]].
        discriminate.
      * apply bind_Ok in H as (n & _ & H). apply bind_Ok in H as (k & _ & H).
        apply IH in H as (Hn & Hc & Hp & _). simpl in *. unfold tell in *.
        repeat split; auto; lia.
    + destruct (RE_ENUM_MEMBER re l) as [m|].
      * apply bind_Ok in H as (ds & _ & H). apply bind_Ok in H as (n & _ & H).
        apply IH in H as (Hn & Hc & Hp & Hs). simpl in *. unfold tell in *.
        repeat split; auto; try lia;
          try (intros E1 E2; specialize (Hs E1 E2); lia).
      * apply IH in H as (Hn & Hc & Hp & Hs). simpl in *. unfold tell in *.
        repeat split; auto; try lia;
          try (intros E1 E2; specialize (Hs E1 E2); lia).
Qed.

Lemma streamInit_progress (f f' : IO) (e : LuaEnumerator) :
  io_pos f <= String.length (io_content f) ->
  streamInit re f = Ok (Some e, f') ->
  io_content f' = io_content f
  /\ io_pos f < io_pos f' <= String.length (io_content f).
Proof.
  intros Hb H. unfold streamInit in H.
  apply streamInit_while_pos in H as (_ & Hc & Hp & Hs);
    [|apply file_lines_nonempty].
  unfold upcoming in Hp.
  rewrite total_length_file_lines, string_drop_length in Hp.
  specialize (Hs eq_refl). split; [exact Hc|].
  split; [apply Hs; discriminate | lia].
Qed.

(** The loop [while True] ends: the fuel given to [drain] is enough. *)
Lemma drain_total (fuel : nat) :
  forall (f : IO) (s : Store),
    io_pos f <= String.length (io_content f) ->
    String.length (io_content f) - io_pos f < fuel ->
    exists r, drain re fuel f s = Some r.
Proof.
  induction fuel as [|fuel IH]; intros f s Hb Hf; [lia|]. simpl.
  destruct (streamInit re f) as [[[e|] f']|x] eqn:E; eauto.
  apply streamInit_progress in E as (Hc & Hp); [|exact Hb].
  apply IH; rewrite Hc; lia.
Qed.

(** More fuel changes nothing. *)
Lemma drain_more_fuel (fuel : nat) :
  forall (f : IO) (s : Store) r,
    drain re fuel f s = Some r ->
    forall fuel', fuel <= fuel' -> drain re fuel' f s = Some r.
Proof.
  induction fuel as [|fuel IH]; intros f s r H fuel' Hle; [discriminate|].
  destruct fuel' as [|fuel']; [lia|]. simpl in *.
  destruct (streamInit re f) as [[[e|] f']|x]; auto.
  apply (IH _ _ _ H). lia.
Qed.

Lemma append_enumerators_nil (s : Store) : append_enumerators s [] = s.
Proof.
  destruct s. unfold append_enumerators; simpl. now rewrite app_nil_r.
Qed.

Lemma append_enumerators_cons (s : Store) (e : LuaEnumerator)
      (es : list LuaEnumerator) :
  append_enumerators (append_enumerators s [e]) es = append_enumerators s (e :: es).
Proof.
  unfold append_enumerators; simpl. now rewrite <- app_assoc.
Qed.

(** What [drain] does to the shared list: it appends to it, and what it
    appends does not depend on what the list held. *)
Lemma drain_appends (fuel : nat) :
  forall (f : IO) (s s' : Store) (r : result unit),
    drain re fuel f s = Some (s', r) ->
    exists es, s' = append_enumerators s es
               /\ forall t, drain re fuel f t = Some (append_enumerators t es, r).
Proof.
  induction fuel as [|fuel IH]; intros f s s' r H; [discriminate|]. simpl in *.
  destruct (streamInit re f) as [[[e|] f']|x].
  - apply (IH f' (append_enumerators s [e])) in H as (es & -> & Ht).
    exists (e :: es). split.
    + apply append_enumerators_cons.
    + intros t. rewrite Ht. now rewrite append_enumerators_cons.
  - inversion H; subst. exists []. split.
    + now rewrite append_enumerators_nil.
    + intros t. now rewrite append_enumerators_nil.
  - inversion H; subst. exists []. split.
    + now rewrite append_enumerators_nil.
    + intros t. now rewrite append_enumerators_nil.
Qed.

Lemma streamInit_while_no_marker (fileName : string) (lines : list string) :
  (forall s m, RE_ENUM_MEMBER re s = Some m ->
               defines m (GName "name") /\ defines m (GName "desc")) ->
  Forall (fun l => RE_ENUM_NAME re l = None) lines ->
  forall f members,
    streamInit_while re fileName lines f None None members
    = Ok (None, seek f (io_pos f + total_length lines)).
Proof.
  intros wf. induction 1 as [|l lines Hl _ IH]; intros f members; simpl.
  - rewrite Nat.add_0_r. now destruct f.
  - rewrite Hl. unfold tell.
    destruct (RE_ENUM_MEMBER re l) as [m|] eqn:E.
    + destruct (wf _ _ E) as [Hn Hd].
      destruct (defines_group _ _ Hn) as [n ->].
      destruct (defines_group _ _ Hd) as [d ->]. simpl.
      rewrite IH. simpl. unfold seek; simpl. now rewrite Nat.add_assoc.
    + rewrite IH. simpl. unfold seek; simpl. now rewrite Nat.add_assoc.
Qed.

End StreamFacts.

Section StreamBoundary.

Variable re : scraper_regexs.

Lemma streamInit_while_member (fileName l : string) (lines : list string)
      (f : IO) (name link : option string) (members : list EnumTag) :
  is_member_line re l ->
  exists tag,
    streamInit_while re fileName (l :: lines) f name link members
    = streamInit_while re fileName lines
        (seek f (io_pos f + String.length l)) name link (members ++ [tag])%list.
Proof.
  intros (Hn & m & Hm & Hdn & Hdd). simpl. rewrite Hn, Hm.
  destruct (defines_group _ _ Hdn) as [n ->].
  destruct (defines_group _ _ Hdd) as [d ->]. simpl. eauto.
Qed.

Lemma streamInit_while_open (fileName l n : string) (k : option string)
      (lines : list string) (f : IO) (members : list EnumTag) :
  is_enum_line re l n k ->
  streamInit_while re fileName (l :: lines) f None None members
  = streamInit_while re fileName lines
      (seek f (io_pos f + String.length l)) (Some n) k members.
Proof.
  intros (m & Hm & Hn & Hk). simpl. rewrite Hm, Hn, Hk. reflexivity.
Qed.

Lemma streamInit_while_next (fileName l n n' k : string) (k' : option string)
      (lines : list string) (f : IO) (members : list EnumTag) :
  is_enum_line re l n' k' ->
  streamInit_while re fileName (l :: lines) f (Some n) (Some k) members
  = Ok (Some (LuaEnumerator_init n (Some (fileName ++ "#" ++ k)) members),
        seek f (io_pos f)).
Proof.
  intros (m & Hm & _). simpl. rewrite Hm. reflexivity.
Qed.

End StreamBoundary.

(** C4.  On a file made of an enum-name line, two member lines, a
    second enum-name line and one member line, the reader gives the
    first enumerator with its two members, then, called again on the
    same stream, the second with its one member, then None; the loop of
    the assembler adds exactly these two records, in this order.  On a
    stream with no enum-name line left the reader gives None and raises
    nothing, and the loop adds no record. *)
Theorem streamInit_enumerator_boundaries (re : scraper_regexs) :
  (forall (fileName content lX a b lY c nX kX nY : string) (kY : option string)
          (s : Store),
      file_lines content = [lX; a; b; lY; c] ->
      is_enum_line re lX nX (Some kX) ->
      is_member_line re a -> is_member_line re b ->
      is_enum_line re lY nY kY ->
      is_member_line re c ->
      exists eX eY f1 f2,
        streamInit re {| io_name := fileName; io_content := content; io_pos := 0 |}
        = Ok (Some eX, f1)
        /\ streamInit re f1 = Ok (Some eY, f2)
        /\ streamInit re f2 = Ok (None, f2)
        /\ le_name eX = nX /\ List.length (le_members eX) = 2
        /\ le_name eY = nY /\ List.length (le_members eY) = 1
        /\ drain re (S (String.length content))
                 {| io_name := fileName; io_content := content; io_pos := 0 |} s
           = Some (append_enumerators s [eX; eY], Ok tt))
  /\ (forall (f : IO) (s : Store),
        (forall l m, RE_ENUM_MEMBER re l = Some m ->
                     defines m (GName "name") /\ defines m (GName "desc")) ->
        Forall (fun l => RE_ENUM_NAME re l = None) (upcoming f) ->
        (exists f', streamInit re f = Ok (None, f'))
        /\ drain re (S (String.length (io_content f))) f s = Some (s, Ok tt)).
Proof.
  split.
  - intros fileName content lX a b lY c nX kX nY kY s Hl HX Ha Hb HY Hc.
    set (f0 := {| io_name := fileName; io_content := content; io_pos := 0 |}).
    set (p1 := String.length lX + String.length a + String.length b).
    set (p2 := p1 + String.length lY + String.length c).
    assert (U0 : upcoming f0 = [lX; a; b; lY; c]) by exact Hl.
    assert (U1 : upcoming (seek f0 p1) = [lY; c]).
    { unfold upcoming; simpl.
      replace p1 with (total_length [lX; a; b]) by (unfold p1; simpl; lia).
      apply file_lines_drop_prefix. exact Hl. }
    assert (U2 : upcoming (seek f0 p2) = []).
    { unfold upcoming; simpl.
      replace p2 with (total_length [lX; a; b; lY; c])
        by (unfold p2, p1; simpl; lia).
      apply file_lines_drop_prefix. rewrite app_nil_r. exact Hl. }
    assert (N0 : io_name f0 = fileName) by reflexivity.
    assert (P0 : io_pos f0 = 0) by reflexivity.
    clearbody f0.
    assert (E1 : exists ta tb,
               streamInit re f0
               = Ok (Some (LuaEnumerator_init nX (Some (fileName ++ "#" ++ kX))
                                              [ta; tb]),
                     seek f0 p1)).
    { unfold streamInit. rewrite U0, N0.
      rewrite (streamInit_while_open re _ lX nX (Some kX) _ f0 [] HX).
      match goal with
      | |- context [streamInit_while re ?fn (a :: ?ls) ?f ?n ?k ?ms] =>
          destruct (streamInit_while_member re fn a ls f n k ms Ha) as [ta ->]
      end.
      match goal with
      | |- context [streamInit_while re ?fn (b :: ?ls) ?f ?n ?k ?ms] =>
          destruct (streamInit_while_member re fn b ls f n k ms Hb) as [tb ->]
      end.
      rewrite (streamInit_while_next re _ lY nX nY kX kY _ _ _ HY).
      exists ta, tb. unfold seek; simpl. rewrite P0. unfold p1.
      repeat f_equal. }
    destruct E1 as (ta & tb & E1).
    assert (E2 : exists tc,
               streamInit re (seek f0 p1)
               = Ok (Some (LuaEnumerator_init nY kY [tc]), seek f0 p2)).
    { unfold streamInit. rewrite U1.
      rewrite (streamInit_while_open re _ lY nY kY _ _ [] HY).
      match goal with
      | |- context [streamInit_while re ?fn (c :: ?ls) ?f ?n ?k ?ms] =>
          destruct (streamInit_while_member re fn c ls f n k ms Hc) as [tc ->]
      end.
      exists tc. unfold seek; simpl. unfold p2. repeat f_equal. }
    destruct E2 as (tc & E2).
    assert (E3 : streamInit re (seek f0 p2) = Ok (None, seek f0 p2)).
    { unfold streamInit. rewrite U2. reflexivity. }
    do 4 eexists. split; [exact E1|]. split; [exact E2|]. split; [exact E3|].
    repeat split.
    apply (drain_more_fuel re 3).
    + simpl. rewrite E1, E2, E3. now rewrite append_enumerators_cons.
    + pose proof (total_length_file_lines content) as Ht.
      rewrite Hl in Ht. simpl in Ht.
      pose proof (file_lines_nonempty content) as Hne. rewrite Hl in Hne.
      repeat match goal with
             | H : Forall _ (_ :: _) |- _ => inversion H; clear H; subst
             end.
      lia.
  - intros f s wf Hf. split.
    + eexists. unfold streamInit.
      apply (streamInit_while_no_marker re (io_name f) (upcoming f) wf Hf).
    + simpl. unfold streamInit.
      rewrite (streamInit_while_no_marker re (io_name f) (upcoming f) wf Hf).
      reflexivity.
Qed.

(* ================================================================= *)
(** ** The file categorizer *)

Lemma allDocFiles_from_clean (fs : FileSystem) (docPath : string)
      (entries : list DirEntry) :
  Forall (fun e => offending e = false) entries ->
  listable fs docPath entries ->
  snd (allDocFiles_from fs docPath entries) = None.
Proof.
  unfold listable.
  induction entries as [|e entries IH]; intros Hc Hl; simpl; [reflexivity|].
  inversion Hc as [|? ? He Hc']; inversion Hl as [|? ? Hle Hl']; subst.
  unfold offending in He.
  destruct (de_is_dir e) eqn:Ed; simpl in *; [|auto].
  destruct (String.eqb (de_name e) "search") eqn:Es; [|discriminate].
  destruct (Hle eq_refl) as [l ->]. simpl. auto.
Qed.

Lemma allDocFiles_from_offending (fs : FileSystem) (docPath : string)
      (pre post : list DirEntry) (bad : DirEntry) :
  Forall (fun e => offending e = false) pre ->
  listable fs docPath pre ->
  offending bad = true ->
  allDocFiles_from fs docPath (pre ++ bad :: post)%list
  = (fst (allDocFiles_from fs docPath pre), Some UpdatedDocError).
Proof.
  unfold listable.
  induction pre as [|e pre IH]; intros Hc Hl Hb; simpl.
  - unfold offending in Hb. apply andb_true_iff in Hb as [-> Hb].
    apply negb_true_iff in Hb. rewrite Hb. reflexivity.
  - inversion Hc as [|? ? He Hc']; inversion Hl as [|? ? Hle Hl']; subst.
    unfold offending in He.
    destruct (de_is_dir e) eqn:Ed; simpl in *.
    + destruct (String.eqb (de_name e) "search") eqn:Es; [|discriminate].
      destruct (Hle eq_refl) as [l ->]. rewrite IH by assumption. reflexivity.
    + rewrite IH by assumption. reflexivity.
Qed.

(** C7 (amended).  When the root has a subdirectory whose name is not
    [search], categorization raises UpdatedDocError during the first
    enumeration, the one filtered by [isClassFile]: the second
    enumeration never starts and no list of files is returned.  The
    entries listed before that subdirectory have been given to
    [isClassFile] by then, one call per entry yielded - none when the
    subdirectory is listed first.  A root whose subdirectories are all
    named [search] makes categorization return its four lists. *)
Theorem categorizeFiles_unexpected_subdirectory
        (fs : FileSystem) (docPath : string) (entries : list DirEntry) :
  scandir fs docPath = Ok entries ->
  (forall pre bad post,
      entries = (pre ++ bad :: post)%list ->
      offending bad = true ->
      Forall (fun e => offending e = false) pre ->
      listable fs docPath pre ->
      snd (categorizeFiles fs docPath) = Raise UpdatedDocError
      /\ fst (categorizeFiles fs docPath)
         = map CallIsClassFile (map fst (fst (allDocFiles_from fs docPath pre)))
      /\ forallb is_call_to_isClassFile (fst (categorizeFiles fs docPath)) = true
      /\ (pre = [] -> fst (categorizeFiles fs docPath) = []))
  /\ (Forall (fun e => offending e = false) entries ->
      listable fs docPath entries ->
      exists classFiles nsFiles,
        snd (categorizeFiles fs docPath)
        = Ok (classFiles, nsFiles,
              [path_join docPath "group__enums.html"],
              [path_join docPath "group__funcs.html"])).
Proof.
  intros Hs. split.
  - intros pre bad post -> Hb Hc Hl.
    assert (E : categorizeFiles fs docPath
                = (map CallIsClassFile
                       (map fst (fst (allDocFiles_from fs docPath pre))),
                   Raise UpdatedDocError)).
    { unfold categorizeFiles, comprehension, allDocFiles. rewrite Hs.
      rewrite (allDocFiles_from_offending fs docPath pre post bad Hc Hl Hb).
      reflexivity. }
    rewrite E; simpl. repeat split.
    + apply forallb_forall. intros ev Hin. apply in_map_iff in Hin as (n & <- & _).
      reflexivity.
    + intros ->. reflexivity.
  - intros Hc Hl.
    unfold categorizeFiles, comprehension, allDocFiles. rewrite Hs.
    rewrite (allDocFiles_from_clean fs docPath entries Hc Hl). simpl. eauto.
Qed.

(* ================================================================= *)
(** ** The assembler and the shared list of enumerators *)

Section AssemblerFacts.

Variable re : scraper_regexs.

Lemma drain_files_total (fs : FileSystem) (enumFiles : list string) :
  forall s, exists r, drain_files re fs enumFiles s = Some r.
Proof.
  induction enumFiles as [|f files IH]; intros s; [simpl; eauto|].
  cbn [drain_files].
  destruct (open_file fs f) as [io|e] eqn:E; [|eauto].
  assert (Hp : io_pos io = 0).
  { unfold open_file in E. apply bind_Ok in E as (c & _ & E).
    inversion E; reflexivity. }
  destruct (drain_total re (S (String.length (io_content io))) io s)
    as [[s' [u|e]] ->]; try lia; eauto.
Qed.

(** The fuel of the model is always enough: construction returns or raises. *)
Lemma AfterbirthApi_init_total (fs : FileSystem) (docPath : string) (s : Store) :
  exists r, AfterbirthApi_init re fs docPath s = Some r.
Proof.
  unfold AfterbirthApi_init.
  destruct (snd (categorizeFiles fs docPath)) as [[[[cf nf] ef] ff]|e]; [|eauto].
  destruct (mapM (LuaClass_init re fs) cf); [|eauto].
  destruct (mapM (LuaNamespace_init re fs) (nf ++ ff)%list); [|eauto].
  destruct (drain_files_total fs ef s) as [[s' [u|e]] ->]; eauto.
Qed.

Lemma drain_files_appends (fs : FileSystem) (enumFiles : list string) :
  forall (s s' : Store) (r : result unit),
    drain_files re fs enumFiles s = Some (s', r) ->
    exists es, s' = append_enumerators s es
               /\ forall t, drain_files re fs enumFiles t
                            = Some (append_enumerators t es, r).
Proof.
  induction enumFiles as [|f files IH]; intros s s' r H; cbn [drain_files] in *.
  - inversion H; subst. exists []. split.
    + now rewrite append_enumerators_nil.
    + intros t. now rewrite append_enumerators_nil.
  - destruct (open_file fs f) as [io|e].
    + destruct (drain re (S (String.length (io_content io))) io s)
        as [[s1 r1]|] eqn:E; [|discriminate].
      apply drain_appends in E as (es1 & -> & Ht1).
      destruct r1 as [u|e].
      * apply IH in H as (es2 & -> & Ht2). exists (es1 ++ es2)%list. split.
        -- unfold append_enumerators; simpl. now rewrite app_assoc.
        -- intros t. rewrite Ht1, Ht2. unfold append_enumerators; simpl.
           now rewrite app_assoc.
      * inversion H; subst. exists es1. split; [reflexivity|].
        intros t. now rewrite Ht1.
    + inversion H; subst. exists []. split.
      * now rewrite append_enumerators_nil.
      * intros t. now rewrite append_enumerators_nil.
Qed.

(** A construction appends the enumerators it reads to the class-level
    list, whatever that list holds already. *)
Lemma AfterbirthApi_init_appends (fs : FileSystem) (docPath : string)
      (s s' : Store) (api : AfterbirthApi) :
  AfterbirthApi_init re fs docPath s = Some (s', Ok api) ->
  enumerators api = AfterbirthApi_enumerators
  /\ exists es, s' = append_enumerators s es
       /\ forall t, AfterbirthApi_init re fs docPath t
                    = Some (append_enumerators t es, Ok api).
Proof.
  unfold AfterbirthApi_init.
  destruct (snd (categorizeFiles fs docPath)) as [[[[cf nf] ef] ff]|e];
    [|discriminate].
  destruct (mapM (LuaClass_init re fs) cf) as [cs|e]; [|discriminate].
  destruct (mapM (LuaNamespace_init re fs) (nf ++ ff)%list) as [ns|e];
    [|discriminate].
  destruct (drain_files re fs ef s) as [[s1 [u|e]]|] eqn:E; try discriminate.
  intros H; inversion H; subst. split; [reflexivity|].
  apply drain_files_appends in E as (es & -> & Ht).
  exists es. split; [reflexivity|]. intros t. now rewrite Ht.
Qed.

(** Built a second time over the same tree, the snapshot has the same
    classes and namespaces, and the shared list holds every enumerator
    twice - for both snapshots, which refer to the same list. *)
Lemma AfterbirthApi_init_again (fs : FileSystem) (docPath : string)
      (s1 : Store) (api1 : AfterbirthApi) :
  AfterbirthApi_init re fs docPath module_loaded = Some (s1, Ok api1) ->
  exists s2,
    AfterbirthApi_init re fs docPath s1 = Some (s2, Ok api1)
    /\ deref s2 (enumerators api1)
       = (deref s1 (enumerators api1) ++ deref s1 (enumerators api1))%list.
Proof.
  intros H. apply AfterbirthApi_init_appends in H as (Hr & es & -> & Ht).
  eexists. split; [apply Ht|]. rewrite Hr. reflexivity.
Qed.

End AssemblerFacts.

(* ================================================================= *)
(** ** The sample library and trees *)

Lemma Sample_well_formed : well_formed Sample.patterns.
Proof.
  assert (T : forall s m, Sample.whole_as_type s = Some m ->
                          defines m (GName "name") /\ defines m (GName "type")).
  { intros s m. unfold Sample.whole_as_type.
    destruct (String.eqb s ""); intros H; inversion H; subst.
    split; eexists; reflexivity. }
  assert (C : forall tag s m, Sample.capture1 tag s = Some m -> defines m (GIdx 1)).
  { intros tag s m. unfold Sample.capture1.
    destruct (Sample.find_tag tag s); intros H; inversion H; subst.
    eexists; reflexivity. }
  constructor; simpl.
  - intros s m. destruct (Sample.find_tag "@fn " s); intros H; inversion H; subst.
    repeat split; eexists; reflexivity.
  - exact T.
  - intros s m H. exact (proj2 (T s m H)).
  - intros s m. destruct (Sample.find_tag "@attr " s); intros H; inversion H; subst.
    split; eexists; reflexivity.
  - intros s m H. exact (proj2 (T s m H)).
  - apply C.
  - apply C.
  - intros s m. destruct (Sample.find_tag "@member " s); intros H; inversion H; subst.
    split; eexists; reflexivity.
Qed.

(** C1.  Two constructions over the tree [small], whose enum file holds
    one enumerator, starting from the freshly loaded module.  Classes
    and namespaces agree; but the first construction leaves one
    enumerator in the list and the second leaves two, the same record
    twice, in the one list both snapshots refer to. *)
Theorem AfterbirthApi_enumerators_accumulate :
  exists s1 api1 s2 api2 e,
    AfterbirthApi_init Sample.patterns Sample.tree "small" module_loaded
    = Some (s1, Ok api1)
    /\ AfterbirthApi_init Sample.patterns Sample.tree "small" s1
       = Some (s2, Ok api2)
    /\ classes api2 = classes api1
    /\ namespaces api2 = namespaces api1
    /\ enumerators api2 = enumerators api1
    /\ deref s1 (enumerators api1) = [e]
    /\ deref s2 (enumerators api2) = [e; e]
    /\ deref s2 (enumerators api1) = [e; e].
Proof.
  do 5 eexists. vm_compute. repeat split.
Qed.

(** C2, as stated, fails: a file named as class files are, without a
    class-name marker, makes the constructor raise AttributeError, which
    is not the structural error; and no name is produced. *)
Lemma LuaClass_missing_name_is_not_structural :
  isClassFile (basename "doc/class_empty.html") = true
  /\ LuaClass_init Sample.patterns Sample.tree "doc/class_empty.html"
     = Raise AttributeError
  /\ ~ (exists e, LuaClass_init Sample.patterns Sample.tree "doc/class_empty.html"
                  = Raise e /\ is_structural e = true)
  /\ ~ (exists c, LuaClass_init Sample.patterns Sample.tree "doc/class_empty.html"
                  = Ok c).
Proof.
  split; [reflexivity|]. split; [reflexivity|]. split.
  - intros (e & H & Hs). vm_compute in H. inversion H; subst. discriminate.
  - intros (c & H). vm_compute in H. discriminate.
Qed.

Lemma LuaClass_name_or_AttributeError_witness :
  LuaClass_init Sample.patterns Sample.tree "doc/class_empty.html"
  = Raise AttributeError
  /\ exists c, LuaClass_init Sample.patterns Sample.tree "doc/class_foo.html" = Ok c
               /\ lc_name c = "foo".
Proof.
  split.
  - apply (proj1 (LuaClass_name_or_AttributeError
                    Sample.patterns Sample.tree "doc/class_empty.html"
                    (Sample.text ["hello"]) eq_refl)).
    reflexivity.
  - apply (proj2 (LuaClass_name_or_AttributeError
                    Sample.patterns Sample.tree "doc/class_foo.html"
                    Sample.class_foo eq_refl)
                 Sample_well_formed [(GIdx 1, Some "foo")] "foo");
      reflexivity.
Defined.

(** C3, as stated, fails: in a file other than [group__funcs.html] the
    failure of the name pass leaves the constructor as AttributeError,
    not as the structural error. *)
Lemma LuaNamespace_missing_name_is_not_structural :
  RE_NAMESPACE_NAME Sample.patterns (Sample.text ["hello"]) = None
  /\ LuaNamespace_init Sample.patterns Sample.tree "doc/namespace_empty.html"
     = Raise AttributeError
  /\ ~ (exists e, LuaNamespace_init Sample.patterns Sample.tree
                                    "doc/namespace_empty.html" = Raise e
                  /\ is_structural e = true).
Proof.
  split; [reflexivity|]. split; [reflexivity|].
  intros (e & H & Hs). vm_compute in H. inversion H; subst. discriminate.
Qed.

Lemma LuaNamespace_global_functions_exception_witness :
  (exists functions,
      LuaNamespace_init Sample.patterns Sample.tree "doc/group__funcs.html"
      = Ok {| ln_name := Some "_G"; ln_functions := functions |})
  /\ LuaNamespace_init Sample.patterns Sample.tree "doc/namespace_empty.html"
     = Raise AttributeError.
Proof.
  split.
  - apply (proj1 (LuaNamespace_global_functions_exception
                    Sample.patterns Sample.tree "doc/group__funcs.html"
                    Sample.funcs eq_refl eq_refl) eq_refl);
      [exact Sample_well_formed | reflexivity].
  - apply (proj2 (LuaNamespace_global_functions_exception
                    Sample.patterns Sample.tree "doc/namespace_empty.html"
                    (Sample.text ["hello"]) eq_refl eq_refl)).
    discriminate.
Defined.

Lemma streamInit_enumerator_boundaries_witness :
  (exists eX eY f1 f2,
      streamInit Sample.patterns
        {| io_name := "doc/group__enums.html"; io_content := Sample.enums;
           io_pos := 0 |} = Ok (Some eX, f1)
      /\ streamInit Sample.patterns f1 = Ok (Some eY, f2)
      /\ streamInit Sample.patterns f2 = Ok (None, f2)
      /\ le_name eX = "EnumX" /\ List.length (le_members eX) = 2
      /\ le_name eY = "EnumY" /\ List.length (le_members eY) = 1
      /\ drain Sample.patterns (S (String.length Sample.enums))
           {| io_name := "doc/group__enums.html"; io_content := Sample.enums;
              io_pos := 0 |} module_loaded
         = Some (append_enumerators module_loaded [eX; eY], Ok tt))
  /\ drain Sample.patterns (S (String.length (Sample.text ["hello"])))
       {| io_name := "none.html"; io_content := Sample.text ["hello"];
          io_pos := 0 |} module_loaded
     = Some (module_loaded, Ok tt).
Proof.
  split.
  - apply (proj1 (streamInit_enumerator_boundaries Sample.patterns)
             "doc/group__enums.html" Sample.enums
             ("@enum EnumX" ++ Sample.nl) ("@member A" ++ Sample.nl)
             ("@member B" ++ Sample.nl) ("@enum EnumY" ++ Sample.nl)
             ("@member C" ++ Sample.nl) "EnumX" "EnumX" "EnumY" (Some "EnumY")
             module_loaded).
    + reflexivity.
    + eexists; split; [reflexivity | split; reflexivity].
    + split; [reflexivity | eexists; split; [reflexivity | split; eexists; reflexivity]].
    + split; [reflexivity | eexists; split; [reflexivity | split; eexists; reflexivity]].
    + eexists; split; [reflexivity | split; reflexivity].
    + split; [reflexivity | eexists; split; [reflexivity | split; eexists; reflexivity]].
  - apply (proj2 (streamInit_enumerator_boundaries Sample.patterns)
             {| io_name := "none.html"; io_content := Sample.text ["hello"];
                io_pos := 0 |} module_loaded).
    + exact (wf_enum_member Sample.patterns Sample_well_formed).
    + repeat constructor.
Defined.

Lemma descriptions_attach_to_the_last_field_witness :
  (exists c m1 a,
    LuaClass_init Sample.patterns Sample.tree "doc/class_foo.html" = Ok c
    /\ lc_methods c = [m1]
    /\ lf_name m1 = Some "bar"
    /\ lf_parameters m1 = []
    /\ lf_description m1
       = Some {| dd_description := "does bar";
                 dd_link := Some (doc_base_url ++ "class_foo.html") |}
    /\ lc_attributes c = [a]
    /\ la_name a = "size"
    /\ la_luaType a = nil_type
    /\ la_description a
       = Some {| dd_description := "the size";
                 dd_link := Some (doc_base_url ++ "class_foo.html") |})
  /\ (exists c' m',
        foldM (LuaClass_line Sample.patterns "doc/class_foo.html")
              ["@fn bar" ++ Sample.nl; "@desc does bar" ++ Sample.nl]
              (set_methods (bare_class "foo")
                 [{| lf_name := Some "baz"; lf_description := None;
                     lf_parameters := []; lf_returnType := nil_type |}],
               ATTRIB_SET)
        = Ok (c', METHOD_SET)
        /\ lc_methods c'
           = [{| lf_name := Some "baz"; lf_description := None;
                 lf_parameters := []; lf_returnType := nil_type |}; m']
        /\ lf_name m' = Some "bar"
        /\ lf_description m'
           = Some {| dd_description := "does bar";
                     dd_link := Some (doc_base_url ++ "class_foo.html") |}).
Proof.
  assert (P1 : open_read Sample.tree "doc/class_foo.html" = Ok Sample.class_foo)
    by reflexivity.
  assert (P2 : RE_CLASS_NAME Sample.patterns Sample.class_foo
               = Some [(GIdx 1, Some "foo")]) by reflexivity.
  assert (P3 : group [(GIdx 1, Some "foo")] (GIdx 1) = Ok (Some "foo"))
    by reflexivity.
  assert (P4 : file_lines Sample.class_foo
               = ([("@class foo" ++ Sample.nl)%string]
                  ++ ("@fn bar" ++ Sample.nl)%string
                  :: [] ++ ("@desc does bar" ++ Sample.nl)%string
                  :: [] ++ ("@attr size" ++ Sample.nl)%string
                  :: [] ++ ("@desc the size" ++ Sample.nl)%string :: [])%list)
    by reflexivity.
  assert (P5 : Forall (is_neutral_line Sample.patterns)
                      ([("@class foo" ++ Sample.nl)%string]
                       ++ [] ++ [] ++ [] ++ [])%list)
    by (repeat constructor).
  assert (P6 : is_method_line Sample.patterns ("@fn bar" ++ Sample.nl)
                 {| lf_name := Some "bar"; lf_description := None;
                    lf_parameters := []; lf_returnType := nil_type |})
    by (repeat split).
  assert (P7 : is_description_line Sample.patterns ("@desc does bar" ++ Sample.nl)
                 "does bar") by (repeat split).
  assert (P8 : is_attribute_line Sample.patterns ("@attr size" ++ Sample.nl)
                 {| la_name := "size"; la_luaType := nil_type;
                    la_description := None |}) by (repeat split).
  assert (P9 : is_description_line Sample.patterns ("@desc the size" ++ Sample.nl)
                 "the size") by (repeat split).
  destruct (descriptions_attach_to_the_last_field
              Sample.patterns Sample.tree "doc/class_foo.html" Sample.class_foo
              [(GIdx 1, Some "foo")] "foo"
              ["@class foo" ++ Sample.nl] [] [] [] []
              ("@fn bar" ++ Sample.nl) ("@desc does bar" ++ Sample.nl)
              ("@attr size" ++ Sample.nl) ("@desc the size" ++ Sample.nl)
              {| lf_name := Some "bar"; lf_description := None;
                 lf_parameters := []; lf_returnType := nil_type |}
              "does bar"
              {| la_name := "size"; la_luaType := nil_type;
                 la_description := None |}
              "the size"
              Sample_well_formed P1 P2 P3 P4 P5 P6 P7 P8 P9)
    as (A & _ & C & _).
  split.
  - destruct A as (c & m1 & a & H1 & H2 & H3 & H4 & H5 & H6 & H7 & H8 & H9 & _).
    exists c, m1, a. repeat (split; [assumption|]). assumption.
  - destruct (proj1 (C (set_methods (bare_class "foo")
                          [{| lf_name := Some "baz"; lf_description := None;
                              lf_parameters := []; lf_returnType := nil_type |}])
                       ATTRIB_SET))
      as (c' & m' & H1 & H2 & H3 & H4 & _).
    exists c', m'. split; [exact H1|]. split; [exact H2|].
    split; [exact H3 | exact H4].
Defined.

Lemma constructor_is_last_method_named_as_class_witness :
  exists c, LuaClass_init Sample.patterns Sample.tree "doc/class_ctor.html" = Ok c
    /\ map lf_name (lc_methods c) = [Some "foo"; Some "bar"; Some "foo"]
    /\ lc_constructor c = Some 2
    /\ lc_constructor c = last_index_of (lc_name c) (map lf_name (lc_methods c)).
Proof.
  eexists. split; [vm_compute; reflexivity|].
  split; [reflexivity|]. split; [reflexivity|].
  refine (proj1 (proj2 (constructor_is_last_method_named_as_class
                          Sample.patterns Sample.tree "doc/class_ctor.html" _ _))).
  reflexivity.
Defined.

(** C7, as stated, fails: in the tree [moved] the file [class_a.html] is
    listed before the subdirectory [html], and [isClassFile] has been
    called on it when the error is raised. *)
Lemma categorizeFiles_classifies_before_raising :
  scandir Sample.tree "moved"
  = Ok [{| de_name := "class_a.html"; de_is_dir := false |};
        {| de_name := "html"; de_is_dir := true |}]
  /\ categorizeFiles Sample.tree "moved"
     = ([CallIsClassFile "class_a.html"], Raise UpdatedDocError)
  /\ fst (categorizeFiles Sample.tree "moved") <> [].
Proof.
  split; [reflexivity|]. split; [reflexivity|]. discriminate.
Qed.

Lemma categorizeFiles_unexpected_subdirectory_witness :
  (snd (categorizeFiles Sample.tree "moved") = Raise UpdatedDocError
   /\ fst (categorizeFiles Sample.tree "moved") = [CallIsClassFile "class_a.html"])
  /\ exists classFiles nsFiles,
      snd (categorizeFiles Sample.tree "doc")
      = Ok (classFiles, nsFiles, ["doc/group__enums.html"], ["doc/group__funcs.html"]).
Proof.
  split.
  - assert (H : snd (categorizeFiles Sample.tree "moved") = Raise UpdatedDocError
                /\ fst (categorizeFiles Sample.tree "moved")
                   = map CallIsClassFile
                       (map fst (fst (allDocFiles_from Sample.tree "moved"
                          [{| de_name := "class_a.html"; de_is_dir := false |}])))
                /\ forallb is_call_to_isClassFile
                     (fst (categorizeFiles Sample.tree "moved")) = true
                /\ ([{| de_name := "class_a.html"; de_is_dir := false |}] = [] ->
                    fst (categorizeFiles Sample.tree "moved") = [])).
    { apply (proj1 (categorizeFiles_unexpected_subdirectory
                      Sample.tree "moved" _ eq_refl)
               [{| de_name := "class_a.html"; de_is_dir := false |}]
               {| de_name := "html"; de_is_dir := true |} []).
      - reflexivity.
      - reflexivity.
      - repeat constructor.
      - constructor; [intros H; discriminate H | constructor]. }
    destruct H as (H1 & H2 & _).
    split; [exact H1 | exact H2].
  - apply (proj2 (categorizeFiles_unexpected_subdirectory
                    Sample.tree "doc" _ eq_refl)).
    + repeat constructor.
    + repeat (constructor; [intros H; first [discriminate H | eexists; reflexivity]|]).
      constructor.
Defined.

Lemma DocDescription_link_derivation_witness :
  exists c, LuaClass_init Sample.patterns Sample.tree "doc/class_foo.html" = Ok c
    /\ Forall (fun m => linked_to
                          (Some "https://moddingofisaac.com/docs/class_foo.html")
                          (lf_description m)) (lc_methods c)
    /\ Forall (fun a => linked_to
                          (Some "https://moddingofisaac.com/docs/class_foo.html")
                          (la_description a)) (lc_attributes c).
Proof.
  eexists. split; [vm_compute; reflexivity|].
  refine (proj1 (proj2 (proj2 (DocDescription_link_derivation
                                 Sample.patterns Sample.tree)))
                "doc/class_foo.html" _ _).
  reflexivity.
Defined.

Lemma LuaNamespace_description_before_function_raises_witness :
  LuaNamespace_init Sample.patterns Sample.tree "orphan/group__funcs.html"
  = Raise IndexError.
Proof.
  refine (proj1 (LuaNamespace_description_before_function_raises
                   Sample.patterns Sample.tree "orphan/group__funcs.html"
                   (Sample.text ["@desc lost"; "@fn print"]) (Some "_G")
                   [] ["@fn print" ++ Sample.nl] ("@desc lost" ++ Sample.nl) "lost"
                   _ _ _ _ _)).
  - reflexivity.
  - reflexivity.
  - reflexivity.
  - repeat constructor.
  - reflexivity.
Defined.

(* ================================================================= *)
(** ** Further properties: the accessors and the value objects *)

(** X1.  The three accessors agree on what a group captured and differ
    on what is missing: [tryMatchString] is [tryMatchNone] with [None]
    turned into the empty string; [tryMatch] is true exactly when
    [tryMatchNone] returns a text; and where [tryMatchNone] raises - the
    pattern of the match has no such group, the only way it can raise,
    with IndexError - [tryMatch] answers false instead. *)
Theorem match_accessors_agree (x : option Match) (prop : gkey) :
  tryMatchString x prop
  = (v <- tryMatchNone x prop ;;
     Ok (match v with Some s => s | None => "" end))
  /\ (tryMatch x prop = true <-> exists s, tryMatchNone x prop = Ok (Some s))
  /\ (forall e, tryMatchNone x prop = Raise e ->
        e = IndexError /\ tryMatch x prop = false
        /\ exists m, x = Some m /\ lookup_group m prop = None)
  /\ (x = None ->
      tryMatch x prop = false /\ tryMatchNone x prop = Ok None
      /\ tryMatchString x prop = Ok "").
Proof.
  unfold tryMatch, tryMatchNone, tryMatchString, group_of, group.
  destruct x as [m|]; [destruct (lookup_group m prop) as [[s|]|] eqn:E|]; simpl.
  - split; [reflexivity|]. split; [split; eauto|].
    split; [intros e H; discriminate | discriminate].
  - split; [reflexivity|].
    split; [split; [discriminate | intros [s H]; discriminate]|].
    split; [intros e H; discriminate | discriminate].
  - split; [reflexivity|].
    split; [split; [discriminate | intros [s H]; discriminate]|].
    split; [|discriminate]. intros e H; inversion H; subst. eauto.
  - split; [reflexivity|].
    split; [split; [discriminate | intros [s H]; discriminate]|].
    split; [intros e H; discriminate | auto].
Qed.

Lemma match_accessors_agree_witness :
  tryMatch (Some [(GName "name", Some "x")]) (GName "name") = true
  /\ tryMatch (Some [(GName "name", Some "x")]) (GName "const") = false
  /\ tryMatchString None (GName "name") = Ok "".
Proof.
  split; [|split].
  - apply (proj1 (proj2 (match_accessors_agree
                           (Some [(GName "name", Some "x")]) (GName "name")))).
    exists "x". reflexivity.
  - apply (proj1 (proj2 (proj2 (match_accessors_agree
                           (Some [(GName "name", Some "x")]) (GName "const"))))
             IndexError).
    reflexivity.
  - apply (proj2 (proj2 (proj2 (match_accessors_agree None (GName "name"))))).
    reflexivity.
Defined.

(** X2.  A type built from a match object needs the group [type] and
    nothing else: without it the constructor raises IndexError; with it
    the constructor returns, the flags passed as arguments are ignored,
    [isConst] and [isStatic] say whether the groups [const] and [static]
    took part in the match, and a pattern that has no such groups gives
    false for both. *)
Theorem LuaType_from_match (m : Match) (isConst isStatic : bool) :
  (lookup_group m (GName "type") = None ->
     LuaType_init (HintMatch m) isConst isStatic = Raise IndexError)
  /\ (forall t, lookup_group m (GName "type") = Some t ->
        LuaType_init (HintMatch m) isConst isStatic
        = Ok {| lt_name := match t with
                           | Some s => if String.eqb s "" then Some "nil" else Some s
                           | None => None
                           end;
                lt_isConst := captured m (GName "const");
                lt_isStatic := captured m (GName "static") |})
  /\ (lookup_group m (GName "const") = None -> captured m (GName "const") = false)
  /\ (lookup_group m (GName "static") = None -> captured m (GName "static") = false).
Proof.
  assert (C : forall k, tryMatch (Some m) k = captured m k).
  { intros k. unfold tryMatch, captured, group_of, group.
    destruct (lookup_group m k) as [[s|]|]; reflexivity. }
  split; [|split; [|split]].
  - intros H. simpl. unfold group. rewrite H. reflexivity.
  - intros t H. simpl. unfold group. rewrite H. simpl.
    unfold LuaType_initFlat. now rewrite !C.
  - intros H. unfold captured. now rewrite H.
  - intros H. unfold captured. now rewrite H.
Qed.

Lemma LuaType_from_match_witness :
  LuaType_init (HintMatch [(GName "type", Some "int")]) true true
  = Ok {| lt_name := Some "int"; lt_isConst := false; lt_isStatic := false |}
  /\ LuaType_init (HintMatch [(GName "name", Some "x")]) false false
     = Raise IndexError.
Proof.
  split.
  - apply (proj1 (proj2 (LuaType_from_match [(GName "type", Some "int")] true true))
             (Some "int")).
    reflexivity.
  - apply (proj1 (LuaType_from_match [(GName "name", Some "x")] false false)).
    reflexivity.
Defined.

Lemma LuaType_init_name_nonempty (h : TypeHint) (c s : bool) (t : LuaType) :
  LuaType_init h c s = Ok t -> pystr_eqb (lt_name t) "" = false.
Proof.
  destruct h as [|m|x]; simpl; intros H.
  - inversion H; reflexivity.
  - apply bind_Ok in H as (ty & _ & H). inversion H; subst.
    apply LuaType_initFlat_name_nonempty.
  - inversion H; subst. apply LuaType_initFlat_name_nonempty.
Qed.

Section ValueObjects.

Variable re : scraper_regexs.

Lemma mapM_length {A B} (f : A -> result B) (l : list A) (ys : list B) :
  mapM f l = Ok ys -> List.length ys = List.length l.
Proof.
  revert ys; induction l as [|x l IH]; intros ys H; simpl in H.
  - inversion H; reflexivity.
  - apply bind_Ok in H as (y & _ & H). apply bind_Ok in H as (ys' & H' & H).
    inversion H; subst. simpl. now rewrite (IH ys').
Qed.

Lemma mapM_Forall {A B} (f : A -> result B) (P : B -> Prop) (l : list A)
      (ys : list B) :
  (forall x y, f x = Ok y -> P y) -> mapM f l = Ok ys -> Forall P ys.
Proof.
  intros Hf. revert ys; induction l as [|x l IH]; intros ys H; simpl in H.
  - inversion H; constructor.
  - apply bind_Ok in H as (y & Hy & H). apply bind_Ok in H as (ys' & H' & H).
    inversion H; subst. constructor; eauto.
Qed.

Lemma LuaParam_init_name (line : string) (p : LuaVariable) :
  LuaParam_init re line = Ok p -> pystr_eqb (lv_name p) "" = false.
Proof.
  unfold LuaParam_init. intros H.
  apply bind_Ok in H as (n & _ & H). apply bind_Ok in H as (t & Ht & H).
  inversion H; subst. unfold LuaVariable_init; simpl.
  destruct (String.eqb n "") eqn:E; [|exact E].
  exact (LuaType_init_name_nonempty _ _ _ _ Ht).
Qed.

End ValueObjects.

Lemma split_comma_no_comma (s : string) :
  has_comma s = false -> split_comma s = [s].
Proof.
  induction s as [|c s IH]; simpl; [reflexivity|].
  intros H. apply orb_false_iff in H as [Hc Hs].
  rewrite Hc, (IH Hs). reflexivity.
Qed.

(** X3.  A parameter is never refused, and its name is never the empty
    string: text the parameter pattern does not match gives the
    parameter named ["nil"] of type nil; a parameter that is built has
    the captured name when that is not empty and the name of its type
    otherwise, which is not the empty string either; a match that
    captures neither the name nor the type gives a parameter whose name
    and whose type's name are both None; and the only error the
    constructor can raise is IndexError, never a field-level one. *)
Theorem LuaParam_name_never_empty (re : scraper_regexs) (line : string) :
  (RE_FUNCTION_PARAMETER re line = None ->
     LuaParam_init re line = Ok {| lv_name := Some "nil"; lv_luaType := nil_type |})
  /\ (forall p, LuaParam_init re line = Ok p ->
        lv_name p <> Some ""
        /\ pystr_eqb (lv_name p) "" = false
        /\ (exists n,
              tryMatchString (RE_FUNCTION_PARAMETER re line) (GName "name") = Ok n
              /\ lv_name p = if String.eqb n "" then lt_name (lv_luaType p)
                             else Some n)
        /\ (tryMatchString (RE_FUNCTION_PARAMETER re line) (GName "name") = Ok "" ->
            lv_name p = lt_name (lv_luaType p)))
  /\ (forall m, RE_FUNCTION_PARAMETER re line = Some m ->
        group m (GName "name") = Ok None ->
        group m (GName "type") = Ok None ->
        exists p, LuaParam_init re line = Ok p
          /\ lv_name p = None /\ lt_name (lv_luaType p) = None)
  /\ (forall e, LuaParam_init re line = Raise e -> e = IndexError).
Proof.
  split; [|split; [|split]].
  - intros H. unfold LuaParam_init. rewrite H. reflexivity.
  - intros p H.
    pose proof (LuaParam_init_name re line p H) as Hne.
    split; [|split; [exact Hne|split]].
    + intros E. rewrite E in Hne. discriminate Hne.
    + unfold LuaParam_init in H.
      apply bind_Ok in H as (n & Hn & H). apply bind_Ok in H as (t & _ & H).
      exists n. split; [exact Hn|]. inversion H; reflexivity.
    + intros Hn. unfold LuaParam_init in H. rewrite Hn in H. simpl in H.
      apply bind_Ok in H as (t & _ & H). inversion H; reflexivity.
  - intros m Hm Hn Ht. unfold LuaParam_init. rewrite Hm.
    unfold tryMatchString. rewrite Hn. cbn [bind hint_of_search LuaType_init].
    rewrite Ht. cbn [bind].
    eexists. split; [reflexivity|]. split; reflexivity.
  - intros e H. exact (LuaParam_init_raises re line e H).
Qed.

Lemma LuaParam_name_never_empty_witness :
  LuaParam_init Sample.patterns ""
  = Ok {| lv_name := Some "nil"; lv_luaType := nil_type |}
  /\ lv_name {| lv_name := Some "int";
                lv_luaType := {| lt_name := Some "int"; lt_isConst := false;
                                 lt_isStatic := false |} |} <> Some ""
  /\ (exists p, LuaParam_init Sample.bare_parameter "x" = Ok p
        /\ lv_name p = None /\ lt_name (lv_luaType p) = None).
Proof.
  split; [|split].
  - apply (proj1 (LuaParam_name_never_empty Sample.patterns "")). reflexivity.
  - apply (proj1 (proj2 (LuaParam_name_never_empty Sample.patterns "int"))).
    reflexivity.
  - apply (proj1 (proj2 (proj2 (LuaParam_name_never_empty Sample.bare_parameter
                                  "x")))
             [(GName "name", None); (GName "type", None);
              (GName "const", None); (GName "static", None)]);
      reflexivity.
Defined.

(** X4.  The parameters of a function: none when the signature captured
    no parameter text or an empty one; otherwise one parameter for each
    non-empty piece of the cleaned text between [", "] separators, each
    with a non-empty name - exactly one when the cleaned text is not
    empty and holds no comma. *)
Theorem findParameters_one_per_piece (re : scraper_regexs) (v : option string) :
  (truthy v = false -> findParameters re v = Ok [])
  /\ (forall s ps, v = Some s -> s <> "" -> findParameters re v = Ok ps ->
        List.length ps
        = List.length (filter (fun param => negb (String.eqb param ""))
                              (split_comma (RE_HTML_REPLACER_sub re s)))
        /\ Forall (fun p => pystr_eqb (lv_name p) "" = false) ps
        /\ (has_comma (RE_HTML_REPLACER_sub re s) = false ->
            RE_HTML_REPLACER_sub re s <> "" -> List.length ps = 1)).
Proof.
  split.
  - destruct v as [s|]; simpl; [|reflexivity].
    intros H. unfold findParameters. simpl. now rewrite H.
  - intros s ps -> Hs H. unfold findParameters in H. simpl in H.
    apply String_eqb_false_iff in Hs. rewrite Hs in H. simpl in H.
    pose proof (mapM_length _ _ _ H) as Hl.
    split; [exact Hl|]. split.
    + eapply mapM_Forall; [|exact H]. intros x y. apply LuaParam_init_name.
    + intros Hc Hne. rewrite Hl, (split_comma_no_comma _ Hc). simpl.
      apply String_eqb_false_iff in Hne. now rewrite Hne.
Qed.

Lemma findParameters_one_per_piece_witness :
  findParameters Sample.patterns (Some "") = Ok []
  /\ List.length [{| lv_name := Some "a"; lv_luaType :=
                       {| lt_name := Some "a"; lt_isConst := false;
                          lt_isStatic := false |} |};
                  {| lv_name := Some "b"; lv_luaType :=
                       {| lt_name := Some "b"; lt_isConst := false;
                          lt_isStatic := false |} |}]
     = List.length (filter (fun param => negb (String.eqb param ""))
                           (split_comma "a, , b")).
Proof.
  split.
  - apply (proj1 (findParameters_one_per_piece Sample.patterns (Some ""))).
    reflexivity.
  - apply (proj2 (findParameters_one_per_piece Sample.patterns (Some "a, , b"))
             "a, , b" _ eq_refl); [discriminate | reflexivity].
Defined.

Section LineErrors.

Variable re : scraper_regexs.

Lemma LuaFunction_init_raises (arg : FunArg) (e : exn) :
  LuaFunction_init re arg = Raise e ->
  e = InvalidFunctionRematcher \/ e = IndexError.
Proof.
  destruct arg as [[m|]|line]; simpl.
  - intros H. right. exact (LuaFunction_initMatch_raises re m e H).
  - intros H; inversion H; auto.
  - unfold LuaFunction_initLine.
    destruct (RE_FUNCTION_SIGNATURE re line) as [m|].
    + intros H. right. exact (LuaFunction_initMatch_raises re m e H).
    + intros H; inversion H; auto.
Qed.

Lemma LuaAttribute_init_raises (line : string) (e : exn) :
  LuaAttribute_init re line = Raise e ->
  (e = InvalidAttributeRematcher
   /\ tryMatchNone (RE_ATTRIBUTE re line) (GName "name") = Ok None)
  \/ e = IndexError
  \/ (e = TypeError
      /\ exists m n, RE_ATTRIBUTE re line = Some m
                     /\ group m (GName "name") = Ok (Some n)
                     /\ group m (GName "type") = Ok None).
Proof.
  unfold LuaAttribute_init. intros H.
  apply bind_raises in H as [H | ([n|] & Hn & H)].
  - right; left. unfold tryMatchNone in H.
    destruct (RE_ATTRIBUTE re line) as [m|]; [|discriminate].
    exact (group_raises _ _ _ H).
  - destruct (RE_ATTRIBUTE re line) as [m|] eqn:Em; [|discriminate].
    simpl in Hn, H.
    apply bind_raises in H as [H | (t & Ht & H)].
    + right; left. exact (group_raises _ _ _ H).
    + apply bind_raises in H as [H | (t' & Ht' & H)].
      * destruct t as [t|]; [discriminate|]. inversion H; subst.
        right; right. split; [reflexivity|]. eauto.
      * apply bind_raises in H as [H | (lt & _ & H)]; [|discriminate].
        right; left. exact (LuaType_init_raises _ _ _ _ H).
  - inversion H; subst. left. auto.
Qed.

End LineErrors.

(** X5.  A function or a method built from a line fails with
    InvalidFunctionRematcher exactly when the signature pattern does not
    match the line; any other failure is IndexError.  On such a line the
    method constructor leaves the class as it was, and the first part of
    the class loop goes on with the same class and the same [lastSet].
    A function built from an absent match fails the same way. *)
Theorem function_field_error_iff_no_signature (re : scraper_regexs) (line : string) :
  (LuaFunction_init re (ArgLine line) = Raise InvalidFunctionRematcher
   <-> RE_FUNCTION_SIGNATURE re line = None)
  /\ (forall arg e, LuaFunction_init re arg = Raise e ->
        e = InvalidFunctionRematcher \/ e = IndexError)
  /\ (RE_FUNCTION_SIGNATURE re line = None ->
      forall c lastSet,
        LuaMethod_init re (ArgLine line) c = Raise InvalidFunctionRematcher
        /\ try_method re (c, lastSet) line = Ok (c, lastSet))
  /\ LuaFunction_init re (ArgMatch None) = Raise InvalidFunctionRematcher.
Proof.
  split; [split|split; [|split]].
  - apply LuaFunction_initLine_invalid.
  - apply LuaFunction_initLine_no_match.
  - intros arg e. apply LuaFunction_init_raises.
  - intros H c ls.
    pose proof (LuaFunction_initLine_no_match re line H) as E.
    unfold try_method, LuaMethod_init. rewrite E. simpl. auto.
  - reflexivity.
Qed.

Lemma function_field_error_iff_no_signature_witness :
  LuaFunction_init Sample.patterns (ArgLine "hello")
  = Raise InvalidFunctionRematcher
  /\ RE_FUNCTION_SIGNATURE Sample.patterns "@desc x" = None.
Proof.
  split.
  - apply (proj2 (proj1 (function_field_error_iff_no_signature
                           Sample.patterns "hello"))).
    reflexivity.
  - apply (proj1 (proj1 (function_field_error_iff_no_signature
                           Sample.patterns "@desc x"))).
    reflexivity.
Defined.

(** X6.  An attribute built from a line fails with
    InvalidAttributeRematcher exactly when no name was captured (the
    attribute pattern does not match, or its group [name] took no part);
    it fails with TypeError only when a name was captured and the group
    [type] took no part, and otherwise only with IndexError.  An
    attribute that is built has the captured name as it is - the empty
    string included, there is no fall-back to the type name -, no
    description yet, and a type whose name is not the empty string. *)
Theorem attribute_field_error_iff_no_name (re : scraper_regexs) (line : string) :
  (LuaAttribute_init re line = Raise InvalidAttributeRematcher
   <-> tryMatchNone (RE_ATTRIBUTE re line) (GName "name") = Ok None)
  /\ (forall e, LuaAttribute_init re line = Raise e ->
        e = InvalidAttributeRematcher \/ e = IndexError
        \/ (e = TypeError
            /\ exists m n, RE_ATTRIBUTE re line = Some m
                           /\ group m (GName "name") = Ok (Some n)
                           /\ group m (GName "type") = Ok None))
  /\ (forall a, LuaAttribute_init re line = Ok a ->
        tryMatchNone (RE_ATTRIBUTE re line) (GName "name") = Ok (Some (la_name a))
        /\ la_description a = None
        /\ pystr_eqb (lt_name (la_luaType a)) "" = false).
Proof.
  split; [split|split].
  - intros H. apply LuaAttribute_init_raises in H
      as [(_ & H) | [H | (H & _)]]; [exact H | discriminate | discriminate].
  - intros H. unfold LuaAttribute_init. rewrite H. reflexivity.
  - intros e H. apply LuaAttribute_init_raises in H
      as [(H & _) | [H | H]]; auto.
  - intros a H. unfold LuaAttribute_init in H.
    apply bind_Ok in H as ([n|] & Hn & H); [|discriminate].
    apply bind_Ok in H as (t & _ & H). apply bind_Ok in H as (t' & _ & H).
    apply bind_Ok in H as (lt & Hlt & H). inversion H; subst; simpl.
    split; [exact Hn|]. split; [reflexivity|].
    exact (LuaType_init_name_nonempty _ _ _ _ Hlt).
Qed.

Lemma attribute_field_error_iff_no_name_witness :
  LuaAttribute_init Sample.patterns "@fn bar" = Raise InvalidAttributeRematcher
  /\ tryMatchNone (RE_ATTRIBUTE Sample.patterns "@attr size") (GName "name")
     = Ok (Some "size").
Proof.
  split.
  - apply (proj2 (proj1 (attribute_field_error_iff_no_name
                           Sample.patterns "@fn bar"))).
    reflexivity.
  - refine (proj1 (proj2 (proj2 (attribute_field_error_iff_no_name
                                   Sample.patterns "@attr size"))
                     {| la_name := "size"; la_luaType := nil_type;
                        la_description := None |} _)).
    reflexivity.
Defined.

(** X7.  [_parseDescription] gives None exactly when the description
    pattern does not match the line or its group 1 took no part in the
    match; it gives a text exactly when group 1 captured one, and the
    text is the captured one stripped, then cleaned by [subHtmlFlags];
    it raises only when the pattern has no group 1, with IndexError. *)
Theorem parseDescription_outcomes (re : scraper_regexs) (line : string) :
  (parseDescription re line = Ok None
   <-> tryMatchNone (RE_DESCRIPTION re line) (GIdx 1) = Ok None)
  /\ (forall d, parseDescription re line = Ok (Some d)
        <-> exists g, tryMatchNone (RE_DESCRIPTION re line) (GIdx 1) = Ok (Some g)
                      /\ d = subHtmlFlags re (strip g))
  /\ (forall e, parseDescription re line = Raise e
        <-> e = IndexError
            /\ exists m, RE_DESCRIPTION re line = Some m
                         /\ lookup_group m (GIdx 1) = None).
Proof.
  unfold parseDescription, try_except, tryMatchNone, group_of, group.
  destruct (RE_DESCRIPTION re line) as [m|];
    [destruct (lookup_group m (GIdx 1)) as [[g|]|] eqn:E|]; simpl.
  all: split; [split; intros H; first [discriminate H | reflexivity]|].
  all: split;
    [intros d; split; [intros H | intros (g' & H & Hd)]
    |intros e; split; [intros H | intros (He & m' & Hm & Hl)]].
  all: try discriminate H.
  - inversion H; subst. eauto.
  - inversion H; subst. reflexivity.
  - inversion Hm; subst. rewrite E in Hl. discriminate Hl.
  - inversion Hm; subst. rewrite E in Hl. discriminate Hl.
  - inversion H; subst. eauto.
  - subst e. reflexivity.
  - discriminate Hm.
Qed.

Lemma parseDescription_outcomes_witness :
  parseDescription Sample.patterns "@fn bar" = Ok None
  /\ parseDescription Sample.patterns "@desc   does bar  " = Ok (Some "does bar").
Proof.
  split.
  - apply (proj2 (proj1 (parseDescription_outcomes Sample.patterns "@fn bar"))).
    reflexivity.
  - apply (proj2 (proj1 (proj2 (parseDescription_outcomes
                                  Sample.patterns "@desc   does bar  "))
                    "does bar")).
    exists "  does bar  ". split; reflexivity.
Defined.

(* ================================================================= *)
(** ** Further properties: the class builder *)

Lemma foldM_raises {S A} (f : S -> A -> result S) (l : list A) (s : S) (e : exn) :
  foldM f l s = Raise e -> exists s' x, In x l /\ f s' x = Raise e.
Proof.
  revert s; induction l as [|x l IH]; intros s H; simpl in H; [discriminate|].
  apply bind_raises in H as [H | (s1 & _ & H)].
  - exists s, x. split; [left; reflexivity | exact H].
  - destruct (IH _ H) as (s' & y & Hin & Hy). exists s', y. split; [right|]; auto.
Qed.

Lemma update_last_raises {A} (f : A -> A) (l : list A) (e : exn) :
  update_last f l = Raise e -> e = IndexError /\ l = [].
Proof.
  destruct l as [|x l] using rev_ind.
  - simpl. intros H; inversion H; auto.
  - rewrite update_last_snoc. discriminate.
Qed.

Section ClassFacts.

Variable re : scraper_regexs.

Lemma LuaAttribute_init_name (line : string) (a : LuaAttribute) :
  LuaAttribute_init re line = Ok a ->
  tryMatchNone (RE_ATTRIBUTE re line) (GName "name") = Ok (Some (la_name a)).
Proof.
  unfold LuaAttribute_init. intros H.
  apply bind_Ok in H as ([n|] & Hn & H); [|discriminate].
  apply bind_Ok in H as (t & _ & H). apply bind_Ok in H as (t' & _ & H).
  apply bind_Ok in H as (lt & _ & H). inversion H; subst. exact Hn.
Qed.

Lemma LuaClass_line_attributes (path : string) (pre : list string) (x : string)
      (st st' : LuaClass * nat) :
  map la_name (lc_attributes (fst st)) = attribute_names re pre ->
  LuaClass_line re path st x = Ok st' ->
  map la_name (lc_attributes (fst st')) = attribute_names re (pre ++ [x])%list.
Proof.
  intros Hinv H.
  apply LuaClass_line_inv in H as ([c1 s1] & [c2 s2] & H1 & H2 & H3).
  destruct st as [c s], st' as [c' s']. simpl in *.
  unfold attribute_names. rewrite flat_map_app. simpl. rewrite app_nil_r.
  fold (attribute_names re pre).
  assert (E1 : lc_attributes c1 = lc_attributes c).
  { apply try_method_inv in H1 as [(_ & -> & _) | (m & c0 & Hmi & -> & _)];
      [reflexivity|].
    apply LuaMethod_init_inv in Hmi as (f & _ & _ & _ & [(_ & _ & ->) | (_ & _ & ->)]);
      reflexivity. }
  assert (E2 : map la_name (lc_attributes c2)
               = (attribute_names re pre ++
                  match tryMatchNone (RE_ATTRIBUTE re x) (GName "name") with
                  | Ok (Some n) => [n]
                  | _ => []
                  end)%list).
  { apply try_attribute_inv in H2 as [(Hno & -> & _) | (a & Ha & -> & _)].
    - apply LuaAttribute_init_raises in Hno as [(_ & ->) | [Hno | (Hno & _)]];
        try discriminate.
      now rewrite app_nil_r, E1.
    - rewrite (LuaAttribute_init_name _ _ Ha). simpl.
      now rewrite map_app, E1, Hinv. }
  apply attach_description_inv in H3
    as (_ & [(_ & ->) | (d & _ & [(_ & ms & _ & ->) | [(_ & az & Hu & ->) | (_ & _ & ->)]])]);
    simpl; try exact E2.
  rewrite <- E2. eapply update_last_map; [|exact Hu]. reflexivity.
Qed.

Lemma LuaClass_line_header (path : string) (st st' : LuaClass * nat) (x : string) :
  LuaClass_line re path st x = Ok st' ->
  lc_name (fst st') = lc_name (fst st)
  /\ lc_description (fst st') = lc_description (fst st)
  /\ lc_parentNames (fst st') = lc_parentNames (fst st).
Proof.
  intros H.
  apply LuaClass_line_inv in H as ([c1 s1] & [c2 s2] & H1 & H2 & H3).
  destruct st as [c s], st' as [c' s']. simpl.
  apply try_method_inv in H1 as [(_ & -> & _) | (m0 & c0 & Hmi & -> & _)].
  2: apply LuaMethod_init_inv in Hmi as (f & _ & _ & _ & [(_ & _ & ->) | (_ & _ & ->)]).
  all: apply try_attribute_inv in H2 as [(_ & -> & _) | (a0 & _ & -> & _)].
  all: apply attach_description_inv in H3
      as (_ & [(_ & ->) | (d & _ & [(_ & ms & _ & ->) | [(_ & az & _ & ->) | (_ & _ & ->)]])]).
  all: simpl; auto.
Qed.

Lemma LuaClass_line_raises (path : string) (st : LuaClass * nat) (x : string)
      (e : exn) :
  LuaClass_line re path st x = Raise e -> e = IndexError \/ e = TypeError.
Proof.
  unfold LuaClass_line. intros H. destruct st as [c s].
  apply bind_raises in H as [H | ([c1 s1] & _ & H)].
  - unfold try_method in H.
    destruct (LuaMethod_init re (ArgLine x) c) as [[m c']|e'] eqn:E; [discriminate|].
    apply LuaMethod_init_raises, LuaFunction_init_raises in E as [-> | ->];
      [discriminate | inversion H; auto].
  - apply bind_raises in H as [H | ([c2 s2] & _ & H)].
    + unfold try_attribute in H.
      destruct (LuaAttribute_init re x) as [a|e'] eqn:E; [discriminate|].
      apply LuaAttribute_init_raises in E as [(-> & _) | [-> | (-> & _)]];
        [discriminate | inversion H; auto | inversion H; auto].
    + unfold attach_description in H.
      apply bind_raises in H as [H | ([d|] & _ & H)].
      * left. exact (parseDescription_raises re x e H).
      * destruct (Nat.eqb s2 METHOD_SET).
        -- apply bind_raises in H as [H | (ms & _ & H)]; [|discriminate].
           left. exact (proj1 (update_last_raises _ _ _ H)).
        -- destruct (Nat.eqb s2 ATTRIB_SET); [|discriminate].
           apply bind_raises in H as [H | (ms & _ & H)]; [|discriminate].
           left. exact (proj1 (update_last_raises _ _ _ H)).
      * discriminate.
Qed.

Lemma LuaClass_init_raises (fs : FileSystem) (path : string) (e : exn) :
  LuaClass_init re fs path = Raise e ->
  e = OSError \/ e = AttributeError \/ e = IndexError \/ e = TypeError.
Proof.
  unfold LuaClass_init. intros H.
  apply bind_raises in H as [H | (content & _ & H)].
  { left. unfold open_read in H. destruct (String.eqb path "");
      [inversion H; reflexivity|].
    destruct (assoc path (fs_files fs)); inversion H; reflexivity. }
  apply bind_raises in H as [H | (n & _ & H)].
  { unfold group_of in H. destruct (RE_CLASS_NAME re content) as [m|].
    - right; right; left. exact (group_raises _ _ _ H).
    - inversion H; auto. }
  apply bind_raises in H as [H | (name & _ & H)].
  { destruct n; inversion H; auto. }
  apply bind_raises in H as [H | (ps & _ & H)].
  { destruct (RE_INHERITS_FROM re content) as [m|]; [|discriminate].
    apply bind_raises in H as [H | (p & _ & H)]; [|discriminate].
    right; right; left. exact (group_raises _ _ _ H). }
  apply bind_raises in H as [H | (st & _ & H)]; [|discriminate].
  apply foldM_raises in H as (s' & x & _ & H).
  apply LuaClass_line_raises in H as [-> | ->]; auto.
Qed.

End ClassFacts.

(** X8.  The attributes of a class that is built are those of the lines
    from which an attribute can be built - the attribute pattern matches
    and captures a name -, one entry per line, in file order. *)
Theorem attributes_in_file_order
        (re : scraper_regexs) (fs : FileSystem) (classPath : string) (c : LuaClass) :
  LuaClass_init re fs classPath = Ok c ->
  exists content,
    open_read fs classPath = Ok content
    /\ map la_name (lc_attributes c) = attribute_names re (file_lines content).
Proof.
  intros H.
  apply LuaClass_init_inv in H as (content & m & ps & ls & Ho & _ & _ & Hf).
  exists content. split; [exact Ho|].
  pose proof (@foldM_invariant _ _ (LuaClass_line re classPath)
                (fun pre st => map la_name (lc_attributes (fst st))
                               = attribute_names re pre)) as Inv.
  eapply Inv with (pre := []) in Hf; [exact Hf | | reflexivity].
  intros pre x s s'. apply LuaClass_line_attributes.
Qed.

Lemma attributes_in_file_order_witness :
  exists c content,
    LuaClass_init Sample.patterns Sample.tree "doc/class_foo.html" = Ok c
    /\ open_read Sample.tree "doc/class_foo.html" = Ok content
    /\ map la_name (lc_attributes c) = attribute_names Sample.patterns (file_lines content).
Proof.
  eexists.
  destruct (attributes_in_file_order Sample.patterns Sample.tree
              "doc/class_foo.html" _ eq_refl) as (content & Ho & Ha).
  exists content. split; [reflexivity | split; [exact Ho | exact Ha]].
Defined.

(** X9.  What the first pass of the class constructor sets, the line
    pass leaves alone: a class that is built is described by its name
    followed by [" instance"], with the link of its file; and it
    records at most one parent - none when the inheritance pattern does
    not match the file, otherwise group 1 of its first match. *)
Theorem class_header_is_set_by_the_first_pass
        (re : scraper_regexs) (fs : FileSystem) (classPath : string) (c : LuaClass) :
  LuaClass_init re fs classPath = Ok c ->
  exists content,
    open_read fs classPath = Ok content
    /\ lc_description c
       = {| dd_description := lc_name c ++ " instance";
            dd_link := Some (doc_base_url ++ basename classPath) |}
    /\ match RE_INHERITS_FROM re content with
       | None => lc_parentNames c = []
       | Some m => exists p, group m (GIdx 1) = Ok p /\ lc_parentNames c = [p]
       end.
Proof.
  intros H.
  pose proof H as H0. unfold LuaClass_init in H0.
  apply bind_Ok in H0 as (content & Ho & H0).
  apply bind_Ok in H0 as (n & Hn & H0).
  apply bind_Ok in H0 as (name & Hs & H0).
  apply bind_Ok in H0 as (parents & Hp & H0).
  apply bind_Ok in H0 as ([c' ls] & Hf & H0).
  inversion H0; subst; clear H0. simpl.
  pose proof (@foldM_invariant _ _ (LuaClass_line re classPath)
                (fun _ st =>
                   lc_name (fst st) = name
                   /\ lc_description (fst st)
                      = DocDescription_init (name ++ " instance") (Some classPath)
                   /\ lc_parentNames (fst st) = parents)) as Inv.
  eapply Inv with (pre := []) in Hf.
  - destruct Hf as (E1 & E2 & E3). simpl in E1, E2, E3.
    exists content. split; [exact Ho|]. split.
    + rewrite E2, E1. unfold DocDescription_init. simpl.
      pose proof (open_read_path _ _ _ Ho) as Hne.
      apply String_eqb_false_iff in Hne. rewrite Hne. reflexivity.
    + rewrite E3. destruct (RE_INHERITS_FROM re content) as [m|].
      * apply bind_Ok in Hp as (p & Hg & Hp). inversion Hp; subst. eauto.
      * inversion Hp; reflexivity.
  - intros pre x s s' (E1 & E2 & E3) Hl.
    apply LuaClass_line_header in Hl as (F1 & F2 & F3).
    rewrite F1, F2, F3. auto.
  - simpl. auto.
Qed.

Lemma class_header_is_set_by_the_first_pass_witness :
  exists c,
    LuaClass_init Sample.patterns Sample.tree "doc/class_foo.html" = Ok c
    /\ lc_description c
       = {| dd_description := lc_name c ++ " instance";
            dd_link := Some (doc_base_url ++ basename "doc/class_foo.html") |}.
Proof.
  eexists.
  destruct (class_header_is_set_by_the_first_pass Sample.patterns Sample.tree
              "doc/class_foo.html" _ eq_refl) as (content & _ & Hd & _).
  split; [reflexivity | exact Hd].
Defined.

(** X10.  The three parts of a turn of the class loop do not exclude one
    another.  A line from which both a method and an attribute can be
    built gives both, neither with a description; when that same line
    carries a description, the description goes to the attribute, the
    last one appended, and the method stays without one; a line that
    gives a method and no attribute and carries a description gives the
    method with that description. *)
Theorem class_line_dispatch_is_not_exclusive
        (re : scraper_regexs) (classPath : string) (c : LuaClass) (lastSet : nat)
        (l : string) (f : LuaFunction) :
  LuaFunction_init re (ArgLine l) = Ok f ->
  (forall a, LuaAttribute_init re l = Ok a -> parseDescription re l = Ok None ->
     exists c' m,
       LuaClass_line re classPath (c, lastSet) l = Ok (c', ATTRIB_SET)
       /\ lc_methods c' = (lc_methods c ++ [m])%list
       /\ lf_name m = lf_name f
       /\ lf_description m = None
       /\ lc_attributes c' = (lc_attributes c ++ [a])%list
       /\ la_description a = None
       /\ m = as_method (lc_name c) f)
  /\ (forall a d, LuaAttribute_init re l = Ok a ->
        parseDescription re l = Ok (Some d) ->
        exists c' m a',
          LuaClass_line re classPath (c, lastSet) l = Ok (c', ATTRIB_SET)
          /\ lc_methods c' = (lc_methods c ++ [m])%list
          /\ lf_name m = lf_name f
          /\ lf_description m = None
          /\ lc_attributes c' = (lc_attributes c ++ [a'])%list
          /\ la_name a' = la_name a
          /\ la_luaType a' = la_luaType a
          /\ la_description a' = Some (DocDescription_init d (Some classPath))
          /\ dd_description (DocDescription_init d (Some classPath)) = d
          /\ m = as_method (lc_name c) f)
  /\ (forall d, LuaAttribute_init re l = Raise InvalidAttributeRematcher ->
        parseDescription re l = Ok (Some d) ->
        exists c' m,
          LuaClass_line re classPath (c, lastSet) l = Ok (c', METHOD_SET)
          /\ lc_methods c' = (lc_methods c ++ [m])%list
          /\ lf_name m = lf_name f
          /\ lf_parameters m = lf_parameters f
          /\ lf_description m = Some (DocDescription_init d (Some classPath))
          /\ dd_description (DocDescription_init d (Some classPath)) = d
          /\ lc_attributes c' = lc_attributes c).
Proof.
  intros Hf.
  pose proof (LuaFunction_init_description re _ _ Hf) as Hfd.
  destruct (as_method_name (lc_name c) f) as (N1 & N2 & N3).
  rewrite Hfd in N3.
  split; [|split].
  - intros a Ha Hd.
    assert (exists c', LuaClass_line re classPath (c, lastSet) l
                       = Ok (c', ATTRIB_SET)
              /\ lc_methods c' = (lc_methods c ++ [as_method (lc_name c) f])%list
              /\ lc_attributes c' = (lc_attributes c ++ [a])%list)
      as (c' & E & Hm & Haa).
    { unfold LuaClass_line, try_method, LuaMethod_init, as_method.
      rewrite Hf; simpl.
      destruct (pystr_eqb (lf_name f) (lc_name c)); simpl;
        unfold try_attribute; rewrite Ha; simpl;
        unfold attach_description; rewrite Hd; simpl;
        eexists; repeat split. }
    exists c', (as_method (lc_name c) f).
    split; [exact E|]. split; [exact Hm|]. split; [exact N1|].
    split; [exact N3|]. split; [exact Haa|].
    split; [exact (LuaAttribute_init_description re l a Ha) | reflexivity].
  - intros a d Ha Hd.
    assert (exists c', LuaClass_line re classPath (c, lastSet) l
                       = Ok (c', ATTRIB_SET)
              /\ lc_methods c' = (lc_methods c ++ [as_method (lc_name c) f])%list
              /\ lc_attributes c'
                 = (lc_attributes c ++
                    [attr_with_description a
                       (DocDescription_init d (Some classPath))])%list)
      as (c' & E & Hm & Haa).
    { unfold LuaClass_line, try_method, LuaMethod_init, as_method.
      rewrite Hf; simpl.
      destruct (pystr_eqb (lf_name f) (lc_name c)); simpl;
        unfold try_attribute; rewrite Ha; simpl;
        unfold attach_description; rewrite Hd; simpl;
        rewrite update_last_snoc; simpl;
        eexists; repeat split. }
    exists c', (as_method (lc_name c) f),
      (attr_with_description a (DocDescription_init d (Some classPath))).
    split; [exact E|]. split; [exact Hm|]. split; [exact N1|].
    split; [exact N3|]. split; [exact Haa|].
    repeat split.
  - intros d Ha Hd.
    assert (exists c', LuaClass_line re classPath (c, lastSet) l
                       = Ok (c', METHOD_SET)
              /\ lc_methods c'
                 = (lc_methods c ++
                    [with_description (as_method (lc_name c) f)
                       (DocDescription_init d (Some classPath))])%list
              /\ lc_attributes c' = lc_attributes c)
      as (c' & E & Hm & Haa).
    { unfold LuaClass_line, try_method, LuaMethod_init, as_method.
      rewrite Hf; simpl.
      destruct (pystr_eqb (lf_name f) (lc_name c)); simpl;
        unfold try_attribute; rewrite Ha; simpl;
        unfold attach_description; rewrite Hd; simpl;
        rewrite update_last_snoc; simpl;
        eexists; repeat split. }
    exists c', (with_description (as_method (lc_name c) f)
                  (DocDescription_init d (Some classPath))).
    split; [exact E|]. split; [exact Hm|]. split; [exact N1|].
    split; [exact N2|]. split; [reflexivity|]. split; [reflexivity|].
    exact Haa.
Qed.

(** X11.  A description replaces the one given before: after one
    description line the last method (or the last attribute, when an
    attribute came last) has the description of that line, and after a
    second description line in a row it has the description of the
    second; the elements before the last one, and the name of the last
    one, stay as they were. *)
Theorem later_description_replaces_the_earlier
        (re : scraper_regexs) (classPath : string) (c : LuaClass)
        (l1 l2 d1 d2 : string) :
  is_description_line re l1 d1 ->
  is_description_line re l2 d2 ->
  (forall ms m, lc_methods c = (ms ++ [m])%list ->
     exists c1 m1 c2 m2,
       LuaClass_line re classPath (c, METHOD_SET) l1 = Ok (c1, METHOD_SET)
       /\ lc_methods c1 = (ms ++ [m1])%list
       /\ lf_description m1 = Some (DocDescription_init d1 (Some classPath))
       /\ foldM (LuaClass_line re classPath) [l1; l2] (c, METHOD_SET)
          = Ok (c2, METHOD_SET)
       /\ lc_methods c2 = (ms ++ [m2])%list
       /\ lf_name m2 = lf_name m
       /\ lf_parameters m2 = lf_parameters m
       /\ lf_returnType m2 = lf_returnType m
       /\ lf_description m2 = Some (DocDescription_init d2 (Some classPath))
       /\ dd_description (DocDescription_init d2 (Some classPath)) = d2
       /\ lc_attributes c2 = lc_attributes c)
  /\ (forall az a, lc_attributes c = (az ++ [a])%list ->
        exists c1 a1 c2 a2,
          LuaClass_line re classPath (c, ATTRIB_SET) l1 = Ok (c1, ATTRIB_SET)
          /\ lc_attributes c1 = (az ++ [a1])%list
          /\ la_description a1 = Some (DocDescription_init d1 (Some classPath))
          /\ foldM (LuaClass_line re classPath) [l1; l2] (c, ATTRIB_SET)
             = Ok (c2, ATTRIB_SET)
          /\ lc_attributes c2 = (az ++ [a2])%list
          /\ la_name a2 = la_name a
          /\ la_luaType a2 = la_luaType a
          /\ la_description a2 = Some (DocDescription_init d2 (Some classPath))
          /\ dd_description (DocDescription_init d2 (Some classPath)) = d2
          /\ lc_methods c2 = lc_methods c).
Proof.
  intros H1 H2. split.
  - intros ms m Hm.
    pose proof (LuaClass_line_description_method re classPath c l1 d1 ms m H1 Hm)
      as E1.
    pose proof (LuaClass_line_description_method re classPath
                  (set_methods c
                     (ms ++ [with_description m
                               (DocDescription_init d1 (Some classPath))]))
                  l2 d2 ms
                  (with_description m (DocDescription_init d1 (Some classPath)))
                  H2 eq_refl) as E2.
    do 4 eexists.
    split; [exact E1|]. split; [reflexivity|]. split; [reflexivity|].
    split; [cbn [foldM]; rewrite E1; cbn [bind]; rewrite E2; reflexivity|].
    repeat split.
  - intros az a Ha.
    pose proof (LuaClass_line_description_attribute re classPath c l1 d1 az a H1 Ha)
      as E1.
    pose proof (LuaClass_line_description_attribute re classPath
                  (set_attributes c
                     (az ++ [attr_with_description a
                               (DocDescription_init d1 (Some classPath))]))
                  l2 d2 az
                  (attr_with_description a
                     (DocDescription_init d1 (Some classPath)))
                  H2 eq_refl) as E2.
    do 4 eexists.
    split; [exact E1|]. split; [reflexivity|]. split; [reflexivity|].
    split; [cbn [foldM]; rewrite E1; cbn [bind]; rewrite E2; reflexivity|].
    repeat split.
Qed.

(* ================================================================= *)
(** ** Further properties: the namespace builder *)

Section NamespaceFacts.

Variable re : scraper_regexs.

Lemma LuaNamespace_line_names (pre : list string) (x : string)
      (fns fns' : list LuaFunction) :
  map lf_name fns = signature_names re pre ->
  LuaNamespace_line re fns x = Ok fns' ->
  map lf_name fns' = signature_names re (pre ++ [x])%list.
Proof.
  intros Hinv H. unfold LuaNamespace_line in H.
  apply bind_Ok in H as (fns1 & H1 & H2).
  rewrite signature_names_snoc.
  assert (E1 : map lf_name fns1
               = (signature_names re pre ++ signature_names re [x])%list).
  { unfold try_function in H1.
    destruct (LuaFunction_init re (ArgLine x)) as [f|e] eqn:E.
    - inversion H1; subst. simpl in E.
      apply LuaFunction_initLine_inv in E as (m & Hs & Hg & _).
      unfold signature_names at 2; simpl. rewrite Hs, Hg. simpl.
      now rewrite map_app, Hinv.
    - destruct e; try discriminate. inversion H1; subst.
      apply LuaFunction_initLine_invalid in E.
      unfold signature_names at 2; simpl. rewrite E. simpl.
      now rewrite app_nil_r. }
  unfold attach_to_function in H2.
  apply bind_Ok in H2 as ([d|] & _ & H2).
  - rewrite <- E1. eapply update_last_map; [|exact H2]. reflexivity.
  - inversion H2; subst. exact E1.
Qed.

Lemma LuaNamespace_line_raises (fns : list LuaFunction) (x : string) (e : exn) :
  LuaNamespace_line re fns x = Raise e -> e = IndexError.
Proof.
  unfold LuaNamespace_line. intros H.
  apply bind_raises in H as [H | (fns1 & _ & H)].
  - unfold try_function in H.
    destruct (LuaFunction_init re (ArgLine x)) as [f|e'] eqn:E; [discriminate|].
    apply LuaFunction_init_raises in E as [-> | ->];
      [discriminate | inversion H; reflexivity].
  - unfold attach_to_function in H.
    apply bind_raises in H as [H | ([d|] & _ & H)].
    + exact (parseDescription_raises re x e H).
    + exact (proj1 (update_last_raises _ _ _ H)).
    + discriminate.
Qed.

Lemma LuaNamespace_init_raises (fs : FileSystem) (path : string) (e : exn) :
  LuaNamespace_init re fs path = Raise e ->
  e = OSError \/ e = AttributeError \/ e = IndexError.
Proof.
  unfold LuaNamespace_init. intros H.
  apply bind_raises in H as [H | (content & _ & H)].
  { left. unfold open_read in H. destruct (String.eqb path "");
      [inversion H; reflexivity|].
    destruct (assoc path (fs_files fs)); inversion H; reflexivity. }
  apply bind_raises in H as [H | (n & _ & H)].
  { unfold LuaNamespace_name, try_except, group_of in H.
    destruct (RE_NAMESPACE_NAME re content) as [m|].
    - destruct (group m (GIdx 1)) as [v|e'] eqn:E; [discriminate|].
      apply group_raises in E. subst e'. simpl in H. inversion H; auto.
    - simpl in H.
      destruct (String.eqb (basename path) "group__funcs.html");
        inversion H; auto. }
  apply bind_raises in H as [H | (fns & _ & H)]; [|discriminate].
  apply foldM_raises in H as (s' & x & _ & H).
  right; right. exact (LuaNamespace_line_raises _ _ _ H).
Qed.

End NamespaceFacts.

Lemma LuaClass_init_raises_named (re : scraper_regexs) (fs : FileSystem)
      (path content : string) (m : Match) (e : exn) :
  open_read fs path = Ok content ->
  RE_CLASS_NAME re content = Some m ->
  LuaClass_init re fs path = Raise e ->
  e = IndexError \/ e = TypeError.
Proof.
  unfold LuaClass_init. intros Ho Hm H. rewrite Ho in H. cbn [bind] in H.
  rewrite Hm in H.
  apply bind_raises in H as [H | (n & _ & H)].
  { left. exact (group_raises _ _ _ H). }
  apply bind_raises in H as [H | (name & _ & H)].
  { destruct n; inversion H; auto. }
  apply bind_raises in H as [H | (ps & _ & H)].
  { destruct (RE_INHERITS_FROM re content) as [mi|]; [|discriminate].
    apply bind_raises in H as [H | (p & _ & H)]; [|discriminate].
    left. exact (group_raises _ _ _ H). }
  apply bind_raises in H as [H | (st & _ & H)]; [|discriminate].
  apply foldM_raises in H as (s' & x & _ & H).
  exact (LuaClass_line_raises re _ _ _ _ H).
Qed.

(** X12.  The builders catch the field-level errors of the constructors
    they call: a line from which no function can be built leaves the
    state of the method part (of a class) and of the function part (of a
    namespace) as it was, and a line from which no attribute can be
    built leaves the state of the attribute part as it was.  So no error
    that leaves either builder is a field-level one, and none is the
    structural error.  Once the file has been read, the class builder
    raises AttributeError exactly when the class-name pattern matches
    nowhere, and the namespace builder exactly when the namespace-name
    pattern matches nowhere and the file is not named
    group__funcs.html. *)
Theorem builders_raise_no_field_level_error
        (re : scraper_regexs) (fs : FileSystem) (path : string) :
  (forall c lastSet fns l,
      (LuaFunction_init re (ArgLine l) = Raise InvalidFunctionRematcher ->
       try_method re (c, lastSet) l = Ok (c, lastSet)
       /\ try_function re fns l = Ok fns)
      /\ (LuaAttribute_init re l = Raise InvalidAttributeRematcher ->
          try_attribute re (c, lastSet) l = Ok (c, lastSet)))
  /\ (forall e, LuaClass_init re fs path = Raise e ->
        is_field_level e = false /\ is_structural e = false)
  /\ (forall e, LuaNamespace_init re fs path = Raise e ->
        is_field_level e = false /\ is_structural e = false)
  /\ (forall content, open_read fs path = Ok content ->
        (LuaClass_init re fs path = Raise AttributeError
         <-> RE_CLASS_NAME re content = None)
        /\ (LuaNamespace_init re fs path = Raise AttributeError
            <-> RE_NAMESPACE_NAME re content = None
                /\ basename path <> "group__funcs.html")).
Proof.
  split; [|split; [|split]].
  - intros c lastSet fns l. split.
    + intros H. split.
      * unfold try_method, LuaMethod_init. rewrite H. reflexivity.
      * unfold try_function. rewrite H. reflexivity.
    + intros H. unfold try_attribute. rewrite H. reflexivity.
  - intros e H. apply LuaClass_init_raises in H.
    destruct H as [-> | [-> | [-> | ->]]]; split; reflexivity.
  - intros e H. apply LuaNamespace_init_raises in H.
    destruct H as [-> | [-> | ->]]; split; reflexivity.
  - intros content Ho. split; split.
    + intros H. destruct (RE_CLASS_NAME re content) as [m|] eqn:E; [|reflexivity].
      destruct (LuaClass_init_raises_named re fs path content m _ Ho E H);
        discriminate.
    + intros E. unfold LuaClass_init. rewrite Ho. cbn [bind]. rewrite E.
      reflexivity.
    + intros H. unfold LuaNamespace_init in H. rewrite Ho in H. cbn [bind] in H.
      apply bind_raises in H as [H | (n & _ & H)].
      * destruct (RE_NAMESPACE_NAME re content) as [m|] eqn:E.
        -- unfold LuaNamespace_name, try_except, group_of in H. rewrite E in H.
           destruct (group m (GIdx 1)) as [v|e'] eqn:G; [discriminate|].
           apply group_raises in G. subst e'. simpl in H. discriminate H.
        -- split; [reflexivity|].
           rewrite (LuaNamespace_name_no_match re path content E) in H.
           intros Hb. rewrite Hb in H. simpl in H. discriminate H.
      * apply bind_raises in H as [H | (fns & _ & H)]; [|discriminate].
        apply foldM_raises in H as (s' & x & _ & H).
        apply LuaNamespace_line_raises in H. discriminate H.
    + intros [E Hb]. unfold LuaNamespace_init. rewrite Ho. cbn [bind].
      rewrite (LuaNamespace_name_no_match re path content E).
      apply String_eqb_false_iff in Hb. rewrite Hb. reflexivity.
Qed.

Lemma builders_raise_no_field_level_error_witness :
  (try_method Sample.patterns (bare_class "foo", 0) "hello"
   = Ok (bare_class "foo", 0)
   /\ try_function Sample.patterns [] "hello" = Ok [])
  /\ LuaClass_init Sample.patterns Sample.tree "doc/class_empty.html"
     = Raise AttributeError
  /\ LuaNamespace_init Sample.patterns Sample.tree "doc/namespace_empty.html"
     = Raise AttributeError.
Proof.
  split; [|split].
  - apply (proj1 (proj1 (builders_raise_no_field_level_error
                           Sample.patterns Sample.tree "doc/class_empty.html")
                        (bare_class "foo") 0 [] "hello")).
    reflexivity.
  - apply (proj2 (proj1 (proj2 (proj2 (proj2
               (builders_raise_no_field_level_error
                  Sample.patterns Sample.tree "doc/class_empty.html")))
             (Sample.text ["hello"]) eq_refl))).
    reflexivity.
  - apply (proj2 (proj2 (proj2 (proj2 (proj2
               (builders_raise_no_field_level_error
                  Sample.patterns Sample.tree "doc/namespace_empty.html")))
             (Sample.text ["hello"]) eq_refl))).
    split; [reflexivity | intros H; discriminate H].
Defined.

(** X13.  The functions of a namespace that is built are those of the
    lines that match the signature pattern, one entry per line, in file
    order.  Its name is group 1 of the namespace-name pattern whenever
    the pattern matches the file - in the global-functions file too -
    and ["_G"] only when it does not. *)
Theorem namespace_functions_in_file_order
        (re : scraper_regexs) (fs : FileSystem) (namespacePath : string)
        (n : LuaNamespace) :
  LuaNamespace_init re fs namespacePath = Ok n ->
  exists content,
    open_read fs namespacePath = Ok content
    /\ map lf_name (ln_functions n) = signature_names re (file_lines content)
    /\ match RE_NAMESPACE_NAME re content with
       | Some m => group m (GIdx 1) = Ok (ln_name n)
       | None => ln_name n = Some "_G"
                 /\ basename namespacePath = "group__funcs.html"
       end.
Proof.
  unfold LuaNamespace_init. intros H.
  apply bind_Ok in H as (content & Ho & H).
  apply bind_Ok in H as (name & Hn & H).
  apply bind_Ok in H as (fns & Hf & H).
  inversion H; subst; simpl. exists content. split; [exact Ho|]. split.
  - pose proof (@foldM_invariant _ _ (LuaNamespace_line re)
                  (fun pre l => map lf_name l = signature_names re pre)) as Inv.
    eapply Inv with (pre := []) in Hf; [exact Hf | | reflexivity].
    intros pre x s s'. apply LuaNamespace_line_names.
  - unfold LuaNamespace_name, try_except, group_of in Hn.
    destruct (RE_NAMESPACE_NAME re content) as [m|].
    + destruct (group m (GIdx 1)) as [v|e] eqn:E.
      * inversion Hn; subst. reflexivity.
      * apply group_raises in E. subst e. discriminate.
    + simpl in Hn.
      destruct (String.eqb_spec (basename namespacePath) "group__funcs.html");
        [|discriminate].
      inversion Hn; auto.
Qed.

Lemma namespace_functions_in_file_order_witness :
  exists n content,
    LuaNamespace_init Sample.patterns Sample.tree "doc/group__funcs.html" = Ok n
    /\ open_read Sample.tree "doc/group__funcs.html" = Ok content
    /\ map lf_name (ln_functions n) = signature_names Sample.patterns (file_lines content).
Proof.
  eexists.
  destruct (namespace_functions_in_file_order Sample.patterns Sample.tree
              "doc/group__funcs.html" _ eq_refl) as (content & Ho & Hm & _).
  exists content. split; [reflexivity | split; [exact Ho | exact Hm]].
Defined.

Lemma class_line_dispatch_is_not_exclusive_witness :
  exists c' m,
    LuaClass_line Sample.patterns "doc/class_foo.html" (bare_class "foo", 0)
                  "@fn bar @desc hi" = Ok (c', METHOD_SET)
    /\ lc_methods c' = [m]
    /\ lf_name m = Some "bar @desc hi"
    /\ lf_description m
       = Some {| dd_description := "hi";
                 dd_link := Some (doc_base_url ++ "class_foo.html") |}.
Proof.
  destruct (proj2 (proj2 (class_line_dispatch_is_not_exclusive
                            Sample.patterns "doc/class_foo.html" (bare_class "foo") 0
                            "@fn bar @desc hi"
                            {| lf_name := Some "bar @desc hi"; lf_description := None;
                               lf_parameters := []; lf_returnType := nil_type |}
                            eq_refl)) "hi" eq_refl eq_refl)
    as (c' & m & H & Hm & Hn & _ & Hd & _).
  exists c', m. split; [exact H|]. split; [exact Hm|]. split; [exact Hn|exact Hd].
Defined.

Lemma later_description_replaces_the_earlier_witness :
  exists c2 m2,
    foldM (LuaClass_line Sample.patterns "doc/class_foo.html")
          ["@desc one"; "@desc two"]
          (set_methods (bare_class "foo")
             [{| lf_name := Some "baz"; lf_description := None;
                 lf_parameters := []; lf_returnType := nil_type |};
              {| lf_name := Some "bar"; lf_description := None;
                 lf_parameters := []; lf_returnType := nil_type |}], METHOD_SET)
    = Ok (c2, METHOD_SET)
    /\ lc_methods c2
       = [{| lf_name := Some "baz"; lf_description := None;
             lf_parameters := []; lf_returnType := nil_type |}; m2]
    /\ lf_name m2 = Some "bar"
    /\ lf_description m2
       = Some {| dd_description := "two";
                 dd_link := Some (doc_base_url ++ "class_foo.html") |}.
Proof.
  assert (D1 : is_description_line Sample.patterns "@desc one" "one")
    by (repeat split).
  assert (D2 : is_description_line Sample.patterns "@desc two" "two")
    by (repeat split).
  destruct (proj1 (later_description_replaces_the_earlier
                     Sample.patterns "doc/class_foo.html"
                     (set_methods (bare_class "foo")
                        [{| lf_name := Some "baz"; lf_description := None;
                            lf_parameters := []; lf_returnType := nil_type |};
                         {| lf_name := Some "bar"; lf_description := None;
                            lf_parameters := []; lf_returnType := nil_type |}])
                     "@desc one" "@desc two" "one" "two" D1 D2)
                  [{| lf_name := Some "baz"; lf_description := None;
                      lf_parameters := []; lf_returnType := nil_type |}]
                  {| lf_name := Some "bar"; lf_description := None;
                     lf_parameters := []; lf_returnType := nil_type |} eq_refl)
    as (c1 & m1 & c2 & m2 & _ & _ & _ & E & Hm & Hn & _ & _ & Hd & _).
  exists c2, m2. split; [exact E|]. split; [exact Hm|]. split; [exact Hn|exact Hd].
Defined.

(* ================================================================= *)
(** ** Further properties: the enumerator stream reader *)

Lemma upcoming_moved (f f' : IO) (pre rest : list string) :
  upcoming f = (pre ++ rest)%list ->
  moved_to f f' (io_pos f + total_length pre) ->
  upcoming f' = rest.
Proof.
  unfold upcoming. intros H (_ & Hc & Hp). rewrite Hc, Hp, string_drop_add.
  now apply file_lines_drop_prefix.
Qed.

Lemma upcoming_same (f f' : IO) :
  moved_to f f' (io_pos f) -> upcoming f' = upcoming f.
Proof.
  unfold upcoming. intros (_ & -> & ->). reflexivity.
Qed.

Lemma moved_to_trans (f f1 f2 : IO) (p q : nat) :
  moved_to f f1 p -> moved_to f1 f2 q -> moved_to f f2 q.
Proof.
  intros (A1 & A2 & A3) (B1 & B2 & B3). repeat split; congruence.
Qed.

Section StreamRecords.

Variable re : scraper_regexs.

(** A run of member lines adds one tag of value 0 per line, whether an
    enumerator is open or not. *)
Lemma streamInit_while_members (fileName : string) (ms : list string) :
  Forall (is_member_line re) ms ->
  forall lines f name link members,
  exists tags f',
    List.length tags = List.length ms
    /\ Forall (fun t => et_value t = 0) tags
    /\ moved_to f f' (io_pos f + total_length ms)
    /\ streamInit_while re fileName (ms ++ lines)%list f name link members
       = streamInit_while re fileName lines f' name link (members ++ tags)%list.
Proof.
  induction 1 as [|l ms Hl _ IH]; intros lines f name link members.
  - exists [], f. rewrite app_nil_r. simpl. rewrite Nat.add_0_r.
    repeat split; auto.
  - destruct Hl as (Hn & m & Hm & Hdn & Hdd).
    destruct (defines_group _ _ Hdn) as [n En].
    destruct (defines_group _ _ Hdd) as [d Ed].
    simpl app. simpl streamInit_while. rewrite Hn, Hm, Ed. simpl. rewrite En. simpl.
    match goal with
    | |- context [streamInit_while re fileName (ms ++ lines)%list ?g name link ?mem] =>
        destruct (IH lines g name link mem) as (tags & f' & Hlen & Hv & Hmv & Heq)
    end.
    exists ({| et_name := n; et_value := 0;
               et_description :=
                 RE_HTML_REPLACER_sub re
                   (match d with Some x => x | None => "" end) |} :: tags), f'.
    rewrite Heq, <- app_assoc. simpl.
    split; [now rewrite Hlen|]. split; [constructor; [reflexivity | exact Hv]|].
    split; [|reflexivity].
    destruct Hmv as (A1 & A2 & A3). unfold tell in *. simpl in *.
    repeat split; auto. lia.
Qed.

End StreamRecords.

Lemma total_length_app (a b : list string) :
  total_length (a ++ b)%list = total_length a + total_length b.
Proof.
  induction a as [|x a IH]; simpl; [reflexivity|]. rewrite IH. lia.
Qed.

(** X14.  One call of the reader on a stream that stands before member
    lines, an enum-name line and more member lines.  It returns the
    enumerator of that name with one member of value 0 for every member
    line read - those that come before the enum-name line included.
    When the end of the file follows, the stream is left at the end and
    the description is built from the captured link alone; when another
    enum-name line follows, the stream is left before that line, which
    the next call reads again, and the description is built from the
    file name, ["#"] and the captured link. *)
Theorem streamInit_reads_one_record
        (re : scraper_regexs) (f : IO) (ms0 ms1 : list string) (lX n k : string) :
  Forall (is_member_line re) ms0 ->
  is_enum_line re lX n (Some k) ->
  Forall (is_member_line re) ms1 ->
  (upcoming f = (ms0 ++ lX :: ms1)%list ->
     exists e f',
       streamInit re f = Ok (Some e, f')
       /\ upcoming f' = []
       /\ le_name e = n
       /\ List.length (le_members e) = List.length ms0 + List.length ms1
       /\ Forall (fun t => et_value t = 0) (le_members e)
       /\ le_description e = DocDescription_init ("Enum " ++ n) (Some k))
  /\ (forall lY n' k' rest,
        is_enum_line re lY n' k' ->
        upcoming f = (ms0 ++ lX :: ms1 ++ lY :: rest)%list ->
        exists e f',
          streamInit re f = Ok (Some e, f')
          /\ upcoming f' = lY :: rest
          /\ le_name e = n
          /\ List.length (le_members e) = List.length ms0 + List.length ms1
          /\ Forall (fun t => et_value t = 0) (le_members e)
          /\ le_description e
             = DocDescription_init ("Enum " ++ n) (Some (io_name f ++ "#" ++ k))).
Proof.
  intros H0 HX H1.
  assert (Common : forall lines,
             upcoming f = (ms0 ++ lX :: ms1 ++ lines)%list ->
             exists tags f3,
               List.length tags = List.length ms0 + List.length ms1
               /\ Forall (fun t => et_value t = 0) tags
               /\ moved_to f f3 (io_pos f + total_length (ms0 ++ lX :: ms1))
               /\ streamInit re f
                  = streamInit_while re (io_name f) lines f3 (Some n) (Some k) tags).
  { intros lines Hu. unfold streamInit. rewrite Hu.
    destruct (streamInit_while_members re (io_name f) ms0 H0
                (lX :: ms1 ++ lines)%list f None None [])
      as (t0 & f1 & L0 & V0 & M1 & ->).
    rewrite (streamInit_while_open re (io_name f) lX n (Some k) _ f1 _ HX).
    destruct (streamInit_while_members re (io_name f) ms1 H1 lines
                (seek f1 (io_pos f1 + String.length lX)) (Some n) (Some k)
                ([] ++ t0)%list)
      as (t1 & f3 & L1 & V1 & M3 & ->).
    exists (([] ++ t0) ++ t1)%list, f3. simpl.
    split; [rewrite length_app; lia|].
    split; [apply Forall_app; auto|]. split; [|reflexivity].
    destruct M1 as (A1 & A2 & A3), M3 as (B1 & B2 & B3). simpl in *.
    rewrite total_length_app. simpl.
    repeat split; try congruence. lia. }
  split.
  - intros Hu.
    destruct (Common []) as (tags & f3 & L & V & M & E);
      [now rewrite app_nil_r|].
    exists (LuaEnumerator_init n (Some k) tags), f3. rewrite E. simpl.
    split; [reflexivity|]. split.
    + apply (upcoming_moved f f3 (ms0 ++ lX :: ms1) []); [|exact M].
      now rewrite app_nil_r.
    + repeat split; auto.
  - intros lY n' k' rest HY Hu.
    destruct (Common (lY :: rest)) as (tags & f3 & L & V & M & E); [exact Hu|].
    exists (LuaEnumerator_init n (Some (io_name f ++ "#" ++ k)) tags),
           (seek f3 (io_pos f3)).
    rewrite E, (streamInit_while_next re _ lY n n' k k' _ _ _ HY).
    split; [reflexivity|]. split.
    + apply (upcoming_moved f _ (ms0 ++ lX :: ms1) (lY :: rest)).
      * rewrite <- app_assoc. exact Hu.
      * destruct M as (A1 & A2 & A3). repeat split; simpl; auto.
    + repeat split; auto.
Qed.

Lemma streamInit_reads_one_record_witness :
  exists e f',
    streamInit Sample.patterns
      {| io_name := "e.html";
         io_content := Sample.text ["@member Z"; "@enum EnumX"; "@member A"];
         io_pos := 0 |} = Ok (Some e, f')
    /\ upcoming f' = []
    /\ le_name e = "EnumX"
    /\ List.length (le_members e) = 1 + 1.
Proof.
  assert (M : forall x, x = "Z" \/ x = "A" ->
                        is_member_line Sample.patterns ("@member " ++ x ++ Sample.nl)).
  { intros x [-> | ->];
      (split; [reflexivity
              | eexists; split; [reflexivity | split; eexists; reflexivity]]). }
  assert (X : is_enum_line Sample.patterns ("@enum EnumX" ++ Sample.nl)
                           "EnumX" (Some "EnumX")).
  { eexists; split; [reflexivity | split; reflexivity]. }
  destruct (proj1 (streamInit_reads_one_record Sample.patterns
                     {| io_name := "e.html";
                        io_content :=
                          Sample.text ["@member Z"; "@enum EnumX"; "@member A"];
                        io_pos := 0 |}
                     ["@member Z" ++ Sample.nl] ["@member A" ++ Sample.nl]
                     ("@enum EnumX" ++ Sample.nl) "EnumX" "EnumX"
                     (Forall_cons _ (M "Z" (or_introl eq_refl)) (Forall_nil _))
                     X
                     (Forall_cons _ (M "A" (or_intror eq_refl)) (Forall_nil _)))
             eq_refl) as (e & f' & H1 & H2 & H3 & H4 & _).
  exists e, f'. repeat split; assumption.
Defined.

Section StreamDrain.

Variable re : scraper_regexs.

Lemma enum_names_cons_enum (l n : string) (k : option string) (lines : list string) :
  is_enum_line re l n k ->
  enum_names re (l :: lines) = n :: enum_names re lines.
Proof.
  intros (m & Hm & Hn & _). unfold enum_names; simpl. now rewrite Hm, Hn.
Qed.

Lemma enum_names_cons_other (l : string) (lines : list string) :
  RE_ENUM_NAME re l = None ->
  enum_names re (l :: lines) = enum_names re lines.
Proof.
  intros H. unfold enum_names; simpl. now rewrite H.
Qed.

Lemma upcoming_step (f : IO) (l : string) (lines : list string) :
  upcoming f = l :: lines ->
  upcoming (seek f (tell f + String.length l)) = lines.
Proof.
  intros H. apply (upcoming_moved f _ [l] lines); [exact H|].
  unfold tell; simpl. rewrite Nat.add_0_r. repeat split.
Qed.

Lemma streamInit_while_skip (fileName l : string) (lines : list string)
      (f : IO) (name link : option string) (members : list EnumTag) :
  RE_ENUM_NAME re l = None ->
  RE_ENUM_MEMBER re l = None ->
  streamInit_while re fileName (l :: lines) f name link members
  = streamInit_while re fileName lines
      (seek f (tell f + String.length l)) name link members.
Proof.
  intros Hn Hm. simpl. now rewrite Hn, Hm.
Qed.

(** With an enumerator open, the reader returns it and stops before the
    next enum-name line, or at the end of the file. *)
Lemma streamInit_while_opened (fileName : string) (lines : list string) :
  Forall (is_stream_line re) lines ->
  forall f n k members,
    upcoming f = lines ->
    exists e f',
      streamInit_while re fileName lines f (Some n) (Some k) members
      = Ok (Some e, f')
      /\ le_name e = n
      /\ io_name f' = io_name f
      /\ Forall (is_stream_line re) (upcoming f')
      /\ enum_names re (upcoming f') = enum_names re lines
      /\ List.length (upcoming f') <= List.length lines.
Proof.
  induction 1 as [|l lines Hl Hrest IH]; intros f n k members Hu.
  - simpl. do 2 eexists. split; [reflexivity|]. rewrite Hu.
    repeat split; auto.
  - assert (Hall : Forall (is_stream_line re) (l :: lines))
      by (constructor; assumption).
    destruct Hl as [(n' & k' & HY) | [Hm | (Hn & Hm)]].
    + rewrite (streamInit_while_next re fileName l n n' k (Some k') lines f members HY).
      do 2 eexists. split; [reflexivity|].
      assert (E : upcoming (seek f (io_pos f)) = l :: lines)
        by (rewrite <- Hu; apply upcoming_same; repeat split).
      rewrite E. repeat split; auto.
    + destruct (streamInit_while_member re fileName l lines f (Some n) (Some k)
                  members Hm) as (tag & ->).
      destruct (IH (seek f (io_pos f + String.length l)) n k (members ++ [tag])%list
                   (upcoming_step f l lines Hu))
        as (e & f' & -> & H1 & H2 & H3 & H4 & H5).
      exists e, f'. split; [reflexivity|].
      rewrite (enum_names_cons_other l lines (proj1 Hm)).
      repeat split; auto. simpl. lia.
    + rewrite (streamInit_while_skip fileName l lines f _ _ members Hn Hm).
      destruct (IH (seek f (tell f + String.length l)) n k members
                   (upcoming_step f l lines Hu))
        as (e & f' & -> & H1 & H2 & H3 & H4 & H5).
      exists e, f'. split; [reflexivity|].
      rewrite (enum_names_cons_other l lines Hn).
      repeat split; auto. simpl. lia.
Qed.

(** From the start of a call, the reader returns None when no enum-name
    line is left, and otherwise the enumerator of the first one. *)
Lemma streamInit_while_seeking (fileName : string) (lines : list string) :
  Forall (is_stream_line re) lines ->
  forall f members,
    upcoming f = lines ->
    (enum_names re lines = []
     /\ exists f', streamInit_while re fileName lines f None None members
                   = Ok (None, f'))
    \/ (exists e f',
          streamInit_while re fileName lines f None None members = Ok (Some e, f')
          /\ io_name f' = io_name f
          /\ Forall (is_stream_line re) (upcoming f')
          /\ enum_names re lines = le_name e :: enum_names re (upcoming f')
          /\ List.length (upcoming f') < List.length lines).
Proof.
  induction 1 as [|l lines Hl Hrest IH]; intros f members Hu.
  - left. split; [reflexivity|]. simpl. eauto.
  - destruct Hl as [(n & k & HX) | [Hm | (Hn & Hm)]].
    + right.
      rewrite (streamInit_while_open re fileName l n (Some k) lines f members HX).
      destruct (streamInit_while_opened fileName lines Hrest
                  (seek f (io_pos f + String.length l)) n k members
                  (upcoming_step f l lines Hu))
        as (e & f' & -> & H1 & H2 & H3 & H4 & H5).
      exists e, f'. split; [reflexivity|].
      rewrite (enum_names_cons_enum l n (Some k) lines HX), H1, H4.
      repeat split; auto. simpl. lia.
    + destruct (streamInit_while_member re fileName l lines f None None
                  members Hm) as (tag & ->).
      rewrite (enum_names_cons_other l lines (proj1 Hm)).
      destruct (IH (seek f (io_pos f + String.length l)) (members ++ [tag])%list
                   (upcoming_step f l lines Hu))
        as [(E & f' & ->) | (e & f' & -> & H2 & H3 & H4 & H5)].
      * left. eauto.
      * right. exists e, f'. repeat split; auto. simpl. lia.
    + rewrite (streamInit_while_skip fileName l lines f _ _ members Hn Hm).
      rewrite (enum_names_cons_other l lines Hn).
      destruct (IH (seek f (tell f + String.length l)) members
                   (upcoming_step f l lines Hu))
        as [(E & f' & ->) | (e & f' & -> & H2 & H3 & H4 & H5)].
      * left. eauto.
      * right. exists e, f'. repeat split; auto. simpl. lia.
Qed.

Lemma drain_enum_names (fuel : nat) :
  forall (f : IO) (s : Store),
    Forall (is_stream_line re) (upcoming f) ->
    List.length (upcoming f) < fuel ->
    exists es,
      drain re fuel f s = Some (append_enumerators s es, Ok tt)
      /\ map le_name es = enum_names re (upcoming f).
Proof.
  induction fuel as [|fuel IH]; intros f s Hf Hlen; [lia|].
  simpl. unfold streamInit.
  destruct (streamInit_while_seeking (io_name f) (upcoming f) Hf f [] eq_refl)
    as [(E & f' & ->) | (e & f' & -> & H2 & H3 & H4 & H5)].
  - exists []. rewrite append_enumerators_nil, E. auto.
  - destruct (IH f' (append_enumerators s [e]) H3) as (es & -> & Hes); [lia|].
    exists (e :: es). rewrite append_enumerators_cons.
    split; [reflexivity|]. simpl. now rewrite Hes, H4.
Qed.

Lemma file_lines_length (s : string) :
  List.length (file_lines s) <= String.length s.
Proof.
  induction s as [|c s IH]; simpl; [lia|].
  destruct (Ascii.eqb c newline); simpl; [lia|].
  destruct (file_lines s); simpl in *; lia.
Qed.

Lemma streamInit_while_raises (fileName : string) (lines : list string) :
  forall f name link members e,
    streamInit_while re fileName lines f name link members = Raise e ->
    e = IndexError \/ e = TypeError.
Proof.
  induction lines as [|l lines IH]; intros f name link members e H; simpl in H.
  - destruct name; discriminate.
  - destruct (RE_ENUM_NAME re l) as [m|].
    + destruct name as [n|].
      * apply bind_raises in H as [H | (k & _ & H)]; [|discriminate].
        destruct link; inversion H; auto.
      * apply bind_raises in H as [H | (n & _ & H)];
          [left; exact (group_raises _ _ _ H)|].
        apply bind_raises in H as [H | (k & _ & H)];
          [left; exact (group_raises _ _ _ H)|].
        exact (IH _ _ _ _ _ H).
    + destruct (RE_ENUM_MEMBER re l) as [m|].
      * apply bind_raises in H as [H | (d & _ & H)].
        { apply bind_raises in H as [H | (x & _ & H)]; [|discriminate].
          left; exact (group_raises _ _ _ H). }
        apply bind_raises in H as [H | (n & _ & H)];
          [left; exact (group_raises _ _ _ H)|].
        exact (IH _ _ _ _ _ H).
      * exact (IH _ _ _ _ _ H).
Qed.

End StreamDrain.

(** X15.  Draining a stream whose lines are enum-name lines with a
    captured name and link, member lines and lines that are neither:
    the loop ends, and the shared list it leaves is the list it found
    followed by exactly one enumerator for each enum-name line left in
    the stream, bearing its name, in file order, and nothing else. *)
Theorem drain_yields_one_enumerator_per_name_line
        (re : scraper_regexs) (f : IO) (s : Store) :
  Forall (is_stream_line re) (upcoming f) ->
  exists s' es,
    drain re (S (String.length (io_content f))) f s = Some (s', Ok tt)
    /\ st_enumerators s' = (st_enumerators s ++ es)%list
    /\ deref s' AfterbirthApi_enumerators
       = (deref s AfterbirthApi_enumerators ++ es)%list
    /\ map le_name es = enum_names re (upcoming f)
    /\ List.length (st_enumerators s')
       = List.length (st_enumerators s)
         + List.length (enum_names re (upcoming f)).
Proof.
  intros H.
  destruct (drain_enum_names re (S (String.length (io_content f))) f s H)
    as (es & E & Hes).
  { unfold upcoming.
    pose proof (file_lines_length (string_drop (io_pos f) (io_content f))) as L.
    rewrite string_drop_length in L. lia. }
  exists (append_enumerators s es), es.
  split; [exact E|]. split; [reflexivity|]. split; [reflexivity|].
  split; [exact Hes|].
  simpl. rewrite length_app, <- Hes, length_map. reflexivity.
Qed.

Lemma Sample_is_stream_line (l : string) : is_stream_line Sample.patterns l.
Proof.
  unfold is_stream_line, is_enum_line, is_member_line. simpl.
  destruct (Sample.find_tag "@enum " l) as [v|].
  - left. exists v, v. eexists. split; [reflexivity | split; reflexivity].
  - right. destruct (Sample.find_tag "@member " l) as [v|].
    + left. split; [reflexivity|]. eexists. split; [reflexivity|].
      split; eexists; reflexivity.
    + right. split; reflexivity.
Qed.

Lemma drain_yields_one_enumerator_per_name_line_witness :
  exists s' es,
    drain Sample.patterns (S (String.length Sample.enums))
          {| io_name := "doc/group__enums.html"; io_content := Sample.enums;
             io_pos := 0 |} module_loaded
    = Some (s', Ok tt)
    /\ st_enumerators s' = es
    /\ map le_name es = ["EnumX"; "EnumY"].
Proof.
  destruct (drain_yields_one_enumerator_per_name_line Sample.patterns
              {| io_name := "doc/group__enums.html"; io_content := Sample.enums;
                 io_pos := 0 |} module_loaded)
    as (s' & es & E & Hs & _ & Hn & _).
  - apply Forall_forall. intros l _. apply Sample_is_stream_line.
  - exists s', es. split; [exact E|]. split; [exact Hs | exact Hn].
Defined.

(* ================================================================= *)
(** ** Further properties: file names and the categorizer *)

Lemma strip_prefix_Some (p s r : string) :
  strip_prefix p s = Some r <-> s = p ++ r.
Proof.
  revert s; induction p as [|a p IH]; intros s; simpl.
  - split; intros H; [inversion H | subst]; reflexivity.
  - destruct s as [|b s]; [split; discriminate|].
    destruct (Ascii.eqb_spec a b) as [->|Hne].
    + rewrite IH. split; intros H; [subst | inversion H]; reflexivity.
    + split; [discriminate | intros H; inversion H; congruence].
Qed.

Lemma words_then_html_iff (s : string) :
  words_then_html s = true
  <-> exists mid, s = mid ++ ".html" /\ all_word mid = true.
Proof.
  induction s as [|c s IH].
  - simpl. split; [discriminate|]. intros ([|a mid] & H & _); discriminate.
  - cbn [words_then_html]. rewrite orb_true_iff, andb_true_iff, IH. split.
    + intros [H | (Hc & mid & -> & Hm)].
      * apply String.eqb_eq in H. exists "". split; [exact H | reflexivity].
      * exists (String c mid). split; [reflexivity|]. simpl. now rewrite Hc.
    + intros ([|a mid] & H & Hm).
      * left. simpl in H. rewrite H. reflexivity.
      * right. simpl in H, Hm. inversion H; subst.
        apply andb_true_iff in Hm as [Ha Hm]. split; [exact Ha|]. eauto.
Qed.

Lemma is_word_not_special (c : ascii) :
  is_word c = true ->
  Ascii.eqb c slash = false /\ Ascii.eqb c "-"%char = false.
Proof.
  destruct c as [[] [] [] [] [] [] [] []]; vm_compute; intros H;
    first [discriminate H | split; reflexivity].
Qed.

Lemma has_slash_app (a b : string) :
  has_slash (a ++ b) = has_slash a || has_slash b.
Proof.
  induction a as [|c a IH]; simpl; [reflexivity|].
  now rewrite IH, orb_assoc.
Qed.

Lemma has_dash_app (a b : string) :
  has_dash (a ++ b) = has_dash a || has_dash b.
Proof.
  induction a as [|c a IH]; simpl; [reflexivity|].
  now rewrite IH, orb_assoc.
Qed.

Lemma all_word_plain (s : string) :
  all_word s = true -> has_slash s = false /\ has_dash s = false.
Proof.
  induction s as [|c s IH]; simpl; [auto|].
  intros H. apply andb_true_iff in H as [Hc Hs].
  destruct (is_word_not_special c Hc) as [-> ->]. simpl. auto.
Qed.

Lemma basename_no_slash (b : string) : has_slash b = false -> basename b = b.
Proof.
  destruct b as [|c b]; simpl; [reflexivity|].
  intros H. apply orb_false_iff in H as [Hc Hb]. now rewrite Hb, Hc.
Qed.

Lemma basename_app_no_slash (a b : string) :
  has_slash b = false -> basename (a ++ b) = basename a ++ b.
Proof.
  intros Hb. induction a as [|c a IH]; simpl.
  - now apply basename_no_slash.
  - rewrite has_slash_app, Hb, orb_false_r.
    destruct (has_slash a); [exact IH|].
    destruct (Ascii.eqb c slash); reflexivity.
Qed.

Lemma ends_with_slash_has_slash (a : string) :
  ends_with_slash a = true -> has_slash a = true.
Proof.
  induction a as [|c a IH]; [discriminate|].
  destruct a as [|c' a'].
  - simpl. intros ->. reflexivity.
  - intros H. change (ends_with_slash (String c' a') = true) in H.
    change (has_slash (String c (String c' a')))
      with (Ascii.eqb c slash || has_slash (String c' a')).
    rewrite (IH H). apply orb_true_r.
Qed.

Lemma basename_ends_with_slash (a : string) :
  ends_with_slash a = true -> basename a = "".
Proof.
  induction a as [|c a IH]; [discriminate|].
  destruct a as [|c' a'].
  - simpl. intros ->. reflexivity.
  - intros H. change (ends_with_slash (String c' a') = true) in H.
    change (basename (String c (String c' a')))
      with (if has_slash (String c' a') then basename (String c' a')
            else if Ascii.eqb c slash then String c' a'
                 else String c (String c' a')).
    rewrite (ends_with_slash_has_slash _ H). exact (IH H).
Qed.

Lemma ends_with_slash_snoc (a : string) : ends_with_slash (a ++ "/") = true.
Proof.
  induction a as [|c a IH]; [reflexivity|].
  simpl. destruct (a ++ "/") eqn:E; [destruct a; discriminate | exact IH].
Qed.

Lemma append_assoc (a b c : string) : (a ++ b) ++ c = a ++ (b ++ c).
Proof.
  induction a as [|x a IH]; simpl; [reflexivity | now rewrite IH].
Qed.

Lemma basename_path_join (dir name : string) :
  has_slash name = false -> basename (path_join dir name) = name.
Proof.
  intros Hn. unfold path_join.
  assert (Hs : starts_with_slash name = false).
  { destruct name as [|c n]; [reflexivity|]. simpl in *.
    now apply orb_false_iff in Hn as [-> _]. }
  rewrite Hs.
  destruct (String.eqb_spec dir "") as [->|Hd]; simpl.
  - now apply basename_no_slash.
  - destruct (ends_with_slash dir) eqn:E.
    + rewrite (basename_app_no_slash dir name Hn).
      now rewrite (basename_ends_with_slash dir E).
    + change (dir ++ String "/" name) with (dir ++ ("/" ++ name)).
      rewrite <- append_assoc.
      rewrite (basename_app_no_slash (dir ++ "/") name Hn).
      now rewrite (basename_ends_with_slash _ (ends_with_slash_snoc dir)).
Qed.

(** X16.  The names [isClassFile] accepts are exactly ["class_"], then
    any number of letters, digits and underscores, then [".html"].  So
    no accepted name holds a dash - the member-index files
    [class_..-members.html] are refused - or a slash, and no name is
    accepted by both filters. *)
Theorem isClassFile_names (name : string) :
  (isClassFile name = true
   <-> exists mid, name = "class_" ++ mid ++ ".html" /\ all_word mid = true)
  /\ (isClassFile name = true ->
      has_dash name = false /\ has_slash name = false
      /\ isNamespaceFile name = false)
  /\ (forall stem, isClassFile ("class_" ++ stem ++ "-members.html") = false).
Proof.
  assert (Iff : forall n, isClassFile n = true
                <-> exists mid, n = "class_" ++ mid ++ ".html" /\ all_word mid = true).
  { intros n. unfold isClassFile.
    destruct (strip_prefix "class_" n) as [r|] eqn:E.
    - apply strip_prefix_Some in E. subst n. rewrite words_then_html_iff.
      split; intros (mid & H & Hm); exists mid; split; auto.
      + now rewrite H.
      + simpl in H. now inversion H.
    - split; [discriminate|]. intros (mid & -> & _).
      simpl in E. discriminate. }
  assert (Plain : forall n, isClassFile n = true ->
                            has_dash n = false /\ has_slash n = false).
  { intros n H. apply Iff in H as (mid & -> & Hm).
    apply all_word_plain in Hm as [Hs Hd].
    rewrite !has_dash_app, !has_slash_app, Hs, Hd. split; reflexivity. }
  split; [apply Iff|]. split.
  - intros H. destruct (Plain name H) as [Hd Hs].
    split; [exact Hd|]. split; [exact Hs|].
    apply Iff in H as (mid & -> & _). reflexivity.
  - intros stem.
    destruct (isClassFile ("class_" ++ stem ++ "-members.html")) eqn:E;
      [|reflexivity].
    apply Plain in E as [Hd _].
    rewrite !has_dash_app in Hd. simpl in Hd.
    rewrite !orb_true_r in Hd. discriminate.
Qed.

Lemma isClassFile_names_witness :
  isClassFile "class_Entity_9.html" = true
  /\ has_dash "class_Entity_9.html" = false.
Proof.
  split.
  - apply (proj2 (proj1 (isClassFile_names "class_Entity_9.html"))).
    exists "Entity_9". split; reflexivity.
  - apply (proj1 (proj2 (isClassFile_names "class_Entity_9.html"))).
    reflexivity.
Defined.

Lemma is_word_ascii (c : ascii) : is_word c = true -> is_ascii c = true.
Proof.
  destruct c as [[] [] [] [] [] [] [] []]; vm_compute; intros H;
    first [discriminate H | reflexivity].
Qed.

Lemma all_word_ascii (s : string) :
  all_word s = true -> is_ascii_string s = true.
Proof.
  induction s as [|c s IH]; simpl; [reflexivity|].
  intros H. apply andb_true_iff in H as [Hc Hs].
  now rewrite (is_word_ascii c Hc), (IH Hs).
Qed.

Lemma is_ascii_string_app (a b : string) :
  is_ascii_string (a ++ b) = is_ascii_string a && is_ascii_string b.
Proof.
  induction a as [|c a IH]; simpl; [reflexivity|].
  now rewrite IH, andb_assoc.
Qed.

(** X17.  On names made of ASCII characters, the names
    [isNamespaceFile] accepts are exactly ["namespace_"], then at least
    one letter, digit or underscore, then [".html"]; every name of that
    form is made of ASCII characters and is accepted.  Unlike a class
    file, whose name may be the bare [class_.html], a namespace file
    needs a name after the prefix.  (Outside ASCII the class [\w] of the
    pattern holds more than letters, digits and the underscore, and the
    characterisation says nothing.) *)
Theorem isNamespaceFile_names (name : string) :
  (is_ascii_string name = true ->
   (isNamespaceFile name = true
    <-> exists c mid, name = "namespace_" ++ String c mid ++ ".html"
                      /\ is_word c = true /\ all_word mid = true))
  /\ (forall c mid, is_word c = true -> all_word mid = true ->
        is_ascii_string ("namespace_" ++ String c mid ++ ".html") = true
        /\ isNamespaceFile ("namespace_" ++ String c mid ++ ".html") = true)
  /\ isNamespaceFile "namespace_.html" = false
  /\ isClassFile "class_.html" = true.
Proof.
  assert (Iff : forall n, isNamespaceFile n = true
                <-> exists c mid, n = "namespace_" ++ String c mid ++ ".html"
                                  /\ is_word c = true /\ all_word mid = true).
  { intros n. unfold isNamespaceFile.
    destruct (strip_prefix "namespace_" n) as [r|] eqn:E.
    - apply strip_prefix_Some in E. subst n. destruct r as [|c r].
      + split; [discriminate|]. intros (c & mid & H & _). discriminate.
      + rewrite andb_true_iff, words_then_html_iff. split.
        * intros (Hc & mid & -> & Hm). exists c, mid. auto.
        * intros (c' & mid & H & Hc & Hm). simpl in H. inversion H; subst.
          split; [exact Hc|]. eauto.
    - split; [discriminate|]. intros (c & mid & -> & _).
      simpl in E. discriminate. }
  split; [intros _; apply Iff|]. split; [|split; reflexivity].
  intros c mid Hc Hm. split.
  - change ("namespace_" ++ String c mid ++ ".html")
      with ("namespace_" ++ (String c mid ++ ".html")).
    rewrite !is_ascii_string_app. cbn [is_ascii_string].
    rewrite (is_word_ascii c Hc), (all_word_ascii mid Hm). reflexivity.
  - apply Iff. exists c, mid. auto.
Qed.

Lemma isNamespaceFile_names_witness :
  isNamespaceFile "namespace_Input.html" = true
  /\ is_ascii_string "namespace_Input.html" = true.
Proof.
  split.
  - apply (proj2 (proj1 (isNamespaceFile_names "namespace_Input.html") eq_refl)).
    exists "I"%char, "nput". repeat split.
  - apply (proj1 (proj1 (proj2 (isNamespaceFile_names "namespace_Input.html"))
                    "I"%char "nput" eq_refl eq_refl)).
Defined.

(** A name [isClassFile] accepts is made of plain characters. *)
Lemma isClassFile_plain (name : string) :
  isClassFile name = true ->
  has_dash name = false /\ has_slash name = false /\ isNamespaceFile name = false.
Proof.
  unfold isClassFile.
  destruct (strip_prefix "class_" name) as [r|] eqn:E; [|discriminate].
  apply strip_prefix_Some in E. subst name. intros H.
  apply words_then_html_iff in H as (mid & -> & Hm).
  apply all_word_plain in Hm as [Hs Hd].
  rewrite !has_dash_app, !has_slash_app, Hs, Hd. repeat split.
Qed.

Lemma allDocFiles_from_dirs (fs : FileSystem) (docPath : string)
      (entries : list DirEntry) (p : string * string) :
  In p (fst (allDocFiles_from fs docPath entries)) ->
  snd p = docPath \/ snd p = path_join docPath "search".
Proof.
  induction entries as [|e entries IH]; simpl; [tauto|].
  destruct (de_is_dir e).
  - destruct (String.eqb_spec (de_name e) "search") as [E|E]; [|simpl; tauto].
    rewrite E.
    destruct (scandir fs (path_join docPath "search")) as [l|x]; [|simpl; tauto].
    simpl. intros H. apply in_app_or in H as [H | H]; [|auto].
    apply in_map_iff in H as (sf & <- & _). right. reflexivity.
  - simpl. intros [<- | H]; [left; reflexivity | auto].
Qed.

(** When the enumeration ends without error, every regular file of the
    root and every entry of its [search] subdirectory has been yielded. *)
Lemma allDocFiles_from_complete (fs : FileSystem) (docPath : string)
      (entries : list DirEntry) :
  snd (allDocFiles_from fs docPath entries) = None ->
  (forall e, In e entries -> de_is_dir e = false ->
             In (de_name e, docPath) (fst (allDocFiles_from fs docPath entries)))
  /\ (forall e l sf, In e entries -> de_is_dir e = true ->
                     scandir fs (path_join docPath "search") = Ok l -> In sf l ->
                     In (de_name sf, path_join docPath "search")
                        (fst (allDocFiles_from fs docPath entries))).
Proof.
  induction entries as [|e entries IH]; simpl; [intros _; split; intros; tauto|].
  destruct (de_is_dir e) eqn:Ed.
  - destruct (String.eqb_spec (de_name e) "search") as [E|E]; [|discriminate].
    rewrite E.
    destruct (scandir fs (path_join docPath "search")) as [l|x] eqn:El;
      [|discriminate].
    simpl. intros Hn. destruct (IH Hn) as [IH1 IH2]. split.
    + intros e' [-> | Hin] Hd; [congruence|].
      apply in_or_app. right. auto.
    + intros e' l' sf [-> | Hin] Hd Hl Hsf.
      * inversion Hl; subst. apply in_or_app. left.
        apply in_map_iff. exists sf. auto.
      * apply in_or_app. right. eauto.
  - simpl. intros Hn. destruct (IH Hn) as [IH1 IH2]. split.
    + intros e' [-> | Hin] Hd; [left; reflexivity | right; auto].
    + intros e' l' sf [-> | Hin] Hd Hl Hsf; [congruence | right; eauto].
Qed.

(** X18.  What categorization returns when it returns.  The enum and
    function lists are the two fixed names in the root.  A class file
    is a name [isClassFile] accepts, joined to the root or to its
    [search] subdirectory, and the basename of its path is that name;
    likewise for namespace files.  Nothing is left out: every regular
    file of the root with such a name is listed, and so is every entry
    of [search] with such a name - the entries of [search] go through
    the same filters as the files of the root. *)
Theorem categorizeFiles_lists
        (fs : FileSystem) (docPath : string) (entries : list DirEntry)
        (classFiles nsFiles enumFiles funFiles : list string) :
  scandir fs docPath = Ok entries ->
  snd (categorizeFiles fs docPath) = Ok (classFiles, nsFiles, enumFiles, funFiles) ->
  enumFiles = [path_join docPath "group__enums.html"]
  /\ funFiles = [path_join docPath "group__funcs.html"]
  /\ (forall p, In p classFiles ->
        exists dir name,
          p = path_join dir name /\ isClassFile name = true /\ basename p = name
          /\ (dir = docPath \/ dir = path_join docPath "search"))
  /\ (forall p, In p nsFiles ->
        exists dir name,
          p = path_join dir name /\ isNamespaceFile name = true
          /\ (dir = docPath \/ dir = path_join docPath "search"))
  /\ (forall e, In e entries -> de_is_dir e = false ->
        (isClassFile (de_name e) = true ->
         In (path_join docPath (de_name e)) classFiles)
        /\ (isNamespaceFile (de_name e) = true ->
            In (path_join docPath (de_name e)) nsFiles))
  /\ (forall e l sf, In e entries -> de_is_dir e = true ->
        scandir fs (path_join docPath "search") = Ok l -> In sf l ->
        isClassFile (de_name sf) = true ->
        In (path_join (path_join docPath "search") (de_name sf)) classFiles).
Proof.
  intros Hs H. unfold categorizeFiles, comprehension, allDocFiles in H.
  rewrite Hs in H.
  destruct (snd (allDocFiles_from fs docPath entries)) as [x|] eqn:En;
    [discriminate|].
  simpl in H. inversion H; subst; clear H.
  destruct (allDocFiles_from_complete fs docPath entries En) as [C1 C2].
  split; [reflexivity|]. split; [reflexivity|]. split; [|split; [|split]].
  - intros p Hp. apply in_map_iff in Hp as ([name dir] & <- & Hp).
    apply filter_In in Hp as [Hin Hk].
    exists dir, name. split; [reflexivity|]. split; [exact Hk|]. split.
    + apply basename_path_join.
      apply (proj1 (proj2 (isClassFile_plain name Hk))).
    + exact (allDocFiles_from_dirs fs docPath entries (name, dir) Hin).
  - intros p Hp. apply in_map_iff in Hp as ([name dir] & <- & Hp).
    apply filter_In in Hp as [Hin Hk].
    exists dir, name. split; [reflexivity|]. split; [exact Hk|].
    exact (allDocFiles_from_dirs fs docPath entries (name, dir) Hin).
  - intros e Hin Hd. split; intros Hk.
    + apply in_map_iff. exists (de_name e, docPath). split; [reflexivity|].
      apply filter_In. split; [exact (C1 e Hin Hd) | exact Hk].
    + apply in_map_iff. exists (de_name e, docPath). split; [reflexivity|].
      apply filter_In. split; [exact (C1 e Hin Hd) | exact Hk].
  - intros e l sf Hin Hd Hl Hsf Hk.
    apply in_map_iff. exists (de_name sf, path_join docPath "search").
    split; [reflexivity|].
    apply filter_In. split; [exact (C2 e l sf Hin Hd Hl Hsf) | exact Hk].
Qed.

Lemma categorizeFiles_lists_witness :
  exists classFiles nsFiles,
    snd (categorizeFiles Sample.tree "doc")
    = Ok (classFiles, nsFiles, ["doc/group__enums.html"], ["doc/group__funcs.html"])
    /\ In (path_join "doc" "class_foo.html") classFiles.
Proof.
  do 2 eexists. split; [vm_compute; reflexivity|].
  refine (proj1 (proj1 (proj2 (proj2 (proj2 (proj2
            (categorizeFiles_lists Sample.tree "doc" _ _ _ _ _ eq_refl eq_refl)))))
            {| de_name := "class_foo.html"; de_is_dir := false |} _ eq_refl) eq_refl).
  left. reflexivity.
Defined.

(* ================================================================= *)
(** ** Further properties: the assembler *)

Lemma mapM_app {A B} (f : A -> result B) (a b : list A) (r : list B) :
  mapM f (a ++ b)%list = Ok r ->
  exists ra rb, mapM f a = Ok ra /\ mapM f b = Ok rb /\ r = (ra ++ rb)%list.
Proof.
  revert r; induction a as [|x a IH]; intros r H; simpl in *.
  - exists [], r. auto.
  - apply bind_Ok in H as (y & Hy & H). apply bind_Ok in H as (ys & Hys & H).
    inversion H; subst. destruct (IH ys Hys) as (ra & rb & Ha & Hb & ->).
    exists (y :: ra), rb. rewrite Hy, Ha. simpl. auto.
Qed.

Lemma allDocFiles_from_raises (fs : FileSystem) (docPath : string)
      (entries : list DirEntry) (e : exn) :
  snd (allDocFiles_from fs docPath entries) = Some e ->
  e = OSError
  \/ (e = UpdatedDocError /\ exists bad, In bad entries /\ offending bad = true).
Proof.
  induction entries as [|x entries IH]; simpl; [discriminate|].
  destruct (de_is_dir x) eqn:Ed.
  - destruct (String.eqb (de_name x) "search") eqn:Es.
    + unfold scandir.
      destruct (assoc (path_join docPath (de_name x)) (fs_dirs fs)); simpl.
      * intros H. destruct (IH H) as [-> | (-> & bad & Hin & Hb)]; [auto|].
        right. split; [reflexivity|]. exists bad. auto.
      * intros H; inversion H; auto.
    + simpl. intros H; inversion H; subst. right. split; [reflexivity|].
      exists x. split; [left; reflexivity|].
      unfold offending. now rewrite Ed, Es.
  - simpl. intros H. destruct (IH H) as [-> | (-> & bad & Hin & Hb)]; [auto|].
    right. split; [reflexivity|]. exists bad. auto.
Qed.

Lemma categorizeFiles_raises (fs : FileSystem) (docPath : string) (e : exn) :
  snd (categorizeFiles fs docPath) = Raise e ->
  e = OSError
  \/ (e = UpdatedDocError
      /\ exists entries bad, scandir fs docPath = Ok entries
                             /\ In bad entries /\ offending bad = true).
Proof.
  unfold categorizeFiles, comprehension, allDocFiles, scandir.
  destruct (assoc docPath (fs_dirs fs)) as [entries|]; simpl.
  - destruct (snd (allDocFiles_from fs docPath entries)) as [x|] eqn:E; simpl.
    + intros H; inversion H; subst.
      destruct (allDocFiles_from_raises fs docPath entries e E)
        as [-> | (-> & bad & Hin & Hb)]; [auto|].
      right. split; [reflexivity|]. exists entries, bad. auto.
    + discriminate.
  - intros H; inversion H; auto.
Qed.

Lemma categorizeFiles_fixed (fs : FileSystem) (docPath : string)
      (cf nf ef ff : list string) :
  snd (categorizeFiles fs docPath) = Ok (cf, nf, ef, ff) ->
  ef = [path_join docPath "group__enums.html"]
  /\ ff = [path_join docPath "group__funcs.html"].
Proof.
  unfold categorizeFiles, comprehension.
  destruct (snd (allDocFiles fs docPath)); simpl; [discriminate|].
  intros H; inversion H; auto.
Qed.

Section PipelineFacts.

Variable re : scraper_regexs.

Lemma streamInit_raises (f : IO) (e : exn) :
  streamInit re f = Raise e -> e = IndexError \/ e = TypeError.
Proof.
  unfold streamInit. apply streamInit_while_raises.
Qed.

Lemma drain_raises (fuel : nat) :
  forall f s s' e,
    drain re fuel f s = Some (s', Raise e) -> e = IndexError \/ e = TypeError.
Proof.
  induction fuel as [|fuel IH]; intros f s s' e H; [discriminate|]. simpl in H.
  destruct (streamInit re f) as [[[x|] f']|x] eqn:E.
  - exact (IH _ _ _ _ H).
  - discriminate.
  - inversion H; subst. exact (streamInit_raises f e E).
Qed.

Lemma drain_files_raises (fs : FileSystem) (files : list string) :
  forall s s' e,
    drain_files re fs files s = Some (s', Raise e) ->
    e = OSError \/ e = IndexError \/ e = TypeError.
Proof.
  induction files as [|x files IH]; intros s s' e H; cbn [drain_files] in H;
    [discriminate|].
  destruct (open_file fs x) as [io|y] eqn:Eo.
  - destruct (drain re (S (String.length (io_content io))) io s)
      as [[s1 [u|y]]|] eqn:E; [| |discriminate].
    + exact (IH _ _ _ H).
    + inversion H; subst. right. exact (drain_raises _ _ _ _ _ E).
  - inversion H; subst. left.
    unfold open_file, open_read in Eo.
    destruct (String.eqb x ""); [inversion Eo; reflexivity|].
    destruct (assoc x (fs_files fs)); inversion Eo; reflexivity.
Qed.

Lemma drain_files_reads (fs : FileSystem) (x : string) (s s' : Store) (u : unit) :
  drain_files re fs [x] s = Some (s', Ok u) ->
  exists content, open_read fs x = Ok content.
Proof.
  cbn [drain_files]. unfold open_file.
  destruct (open_read fs x) as [c|e]; simpl; [eauto|discriminate].
Qed.

End PipelineFacts.

(** X19.  What a snapshot that is built holds: one class for each class
    file, built from it, in the order of the categorizer; one namespace
    for each namespace file, in order, followed by the namespace of
    [group__funcs.html], which is therefore the last; and both
    [group__funcs.html] and [group__enums.html] could be read - without
    either of them no snapshot is built. *)
Theorem AfterbirthApi_contents
        (re : scraper_regexs) (fs : FileSystem) (docPath : string)
        (s s' : Store) (api : AfterbirthApi) :
  AfterbirthApi_init re fs docPath s = Some (s', Ok api) ->
  exists classFiles nsFiles nss g enumText,
    snd (categorizeFiles fs docPath)
    = Ok (classFiles, nsFiles, [path_join docPath "group__enums.html"],
          [path_join docPath "group__funcs.html"])
    /\ mapM (LuaClass_init re fs) classFiles = Ok (classes api)
    /\ List.length (classes api) = List.length classFiles
    /\ mapM (LuaNamespace_init re fs) nsFiles = Ok nss
    /\ LuaNamespace_init re fs (path_join docPath "group__funcs.html") = Ok g
    /\ namespaces api = (nss ++ [g])%list
    /\ List.length (namespaces api) = S (List.length nsFiles)
    /\ open_read fs (path_join docPath "group__enums.html") = Ok enumText.
Proof.
  unfold AfterbirthApi_init.
  destruct (snd (categorizeFiles fs docPath)) as [[[[cf nf] ef] ff]|e] eqn:Ec;
    [|discriminate].
  destruct (categorizeFiles_fixed fs docPath cf nf ef ff Ec) as [-> ->].
  destruct (mapM (LuaClass_init re fs) cf) as [cs|e] eqn:Em; [|discriminate].
  destruct (mapM (LuaNamespace_init re fs)
                 (nf ++ [path_join docPath "group__funcs.html"])%list)
    as [ns|e] eqn:En; [|discriminate].
  destruct (drain_files re fs [path_join docPath "group__enums.html"] s)
    as [[s1 [u|e]]|] eqn:Ed; try discriminate.
  intros H; inversion H; subst; clear H. simpl.
  apply mapM_app in En as (nss & rb & Hn & Hb & ->).
  simpl in Hb. apply bind_Ok in Hb as (g & Hg & Hb). inversion Hb; subst.
  destruct (drain_files_reads re fs _ _ _ _ Ed) as [txt Ht].
  exists cf, nf, nss, g, txt.
  split; [reflexivity|]. split; [exact Em|].
  split; [exact (mapM_length _ _ _ Em)|]. split; [exact Hn|].
  split; [exact Hg|]. split; [reflexivity|]. split; [|exact Ht].
  rewrite length_app, (mapM_length _ _ _ Hn). simpl. lia.
Qed.

Lemma AfterbirthApi_contents_witness :
  exists s' api,
    AfterbirthApi_init Sample.patterns Sample.tree "doc" module_loaded
    = Some (s', Ok api)
    /\ List.length (classes api) = 1 /\ List.length (namespaces api) = 1.
Proof.
  do 2 eexists. split; [vm_compute; reflexivity|].
  destruct (AfterbirthApi_contents Sample.patterns Sample.tree "doc"
              module_loaded _ _ eq_refl)
    as (cf & nf & nss & g & txt & _ & _ & _ & _ & _ & _ & _ & _).
  split; reflexivity.
Defined.

(** X20.  No error that leaves the assembler is a field-level one.  An
    error of the categorizer leaves the assembler as it is, before any
    file is read, so the shared list of enumerators is left as it was.
    UpdatedDocError comes from nowhere else: when the assembler raises
    it, the categorizer raised it, the root holds a subdirectory not
    named [search], and the shared list is as it was. *)
Theorem AfterbirthApi_errors
        (re : scraper_regexs) (fs : FileSystem) (docPath : string)
        (s s' : Store) (e : exn) :
  AfterbirthApi_init re fs docPath s = Some (s', Raise e) ->
  is_field_level e = false
  /\ (forall x, snd (categorizeFiles fs docPath) = Raise x -> x = e /\ s' = s)
  /\ (e = UpdatedDocError ->
      snd (categorizeFiles fs docPath) = Raise UpdatedDocError
      /\ s' = s
      /\ exists entries bad, scandir fs docPath = Ok entries
                             /\ In bad entries /\ offending bad = true).
Proof.
  intros H.
  assert (K : (snd (categorizeFiles fs docPath) = Raise e /\ s' = s
               /\ (e = OSError
                   \/ (e = UpdatedDocError
                       /\ exists entries bad, scandir fs docPath = Ok entries
                            /\ In bad entries /\ offending bad = true)))
              \/ ((exists fl, snd (categorizeFiles fs docPath) = Ok fl)
                  /\ (e = OSError \/ e = AttributeError \/ e = IndexError
                      \/ e = TypeError))).
  { unfold AfterbirthApi_init in H.
    destruct (snd (categorizeFiles fs docPath)) as [[[[cf nf] ef] ff]|x] eqn:Ec.
    - right. split; [eexists; reflexivity|].
      destruct (mapM (LuaClass_init re fs) cf) as [cs|x] eqn:Em.
      + destruct (mapM (LuaNamespace_init re fs) (nf ++ ff)%list) as [ns|x] eqn:En.
        * destruct (drain_files re fs ef s) as [[s1 [u|x]]|] eqn:Ed;
            try discriminate.
          inversion H; subst.
          apply drain_files_raises in Ed as [-> | [-> | ->]]; auto.
        * inversion H; subst. apply mapM_raises in En as (p & _ & En).
          apply LuaNamespace_init_raises in En as [-> | [-> | ->]]; auto.
      + inversion H; subst. apply mapM_raises in Em as (p & _ & Em).
        apply LuaClass_init_raises in Em as [-> | [-> | [-> | ->]]]; auto.
    - left. inversion H; subst. split; [reflexivity|]. split; [reflexivity|].
      apply categorizeFiles_raises in Ec as [-> | (-> & Hb)]; auto. }
  split; [|split].
  - destruct K as [(_ & _ & [-> | (-> & _)]) | (_ & [-> | [-> | [-> | ->]]])];
      reflexivity.
  - intros x Hx.
    destruct K as [(Hc & Hs & _) | ((fl & Hc) & _)]; rewrite Hc in Hx.
    + inversion Hx. split; [reflexivity | exact Hs].
    + discriminate Hx.
  - intros ->.
    destruct K as [(Hc & Hs & [K | (_ & Hb)]) | (_ & [K | [K | [K | K]]])];
      try discriminate K.
    split; [exact Hc|]. split; [exact Hs | exact Hb].
Qed.

Lemma AfterbirthApi_errors_witness :
  AfterbirthApi_init Sample.patterns Sample.tree "moved" module_loaded
  = Some (module_loaded, Raise UpdatedDocError)
  /\ is_field_level UpdatedDocError = false
  /\ exists entries bad, scandir Sample.tree "moved" = Ok entries
                         /\ In bad entries /\ offending bad = true.
Proof.
  split; [reflexivity|].
  destruct (AfterbirthApi_errors Sample.patterns Sample.tree "moved"
              module_loaded module_loaded UpdatedDocError eq_refl)
    as (H1 & _ & H2).
  split; [exact H1|].
  destruct (H2 eq_refl) as (_ & _ & H). exact H.
Defined.

(** X21.  The loop that drains the enum stream ends.  A call of the
    reader that returns an enumerator leaves the stream strictly further
    than it found it, and within the file; so construction always comes
    to an end, with a snapshot or with an error. *)
Theorem assembler_always_ends (re : scraper_regexs) :
  (forall f e f',
      io_pos f <= String.length (io_content f) ->
      streamInit re f = Ok (Some e, f') ->
      io_content f' = io_content f
      /\ io_pos f < io_pos f' <= String.length (io_content f))
  /\ (forall fs docPath s,
        exists s' r, AfterbirthApi_init re fs docPath s = Some (s', r)).
Proof.
  split.
  - intros f e f' Hb H. exact (streamInit_progress re f f' e Hb H).
  - intros fs docPath s.
    destruct (AfterbirthApi_init_total re fs docPath s) as [[s' r] H]. eauto.
Qed.

Lemma assembler_always_ends_witness :
  exists e f',
    streamInit Sample.patterns
      {| io_name := "e.html"; io_content := Sample.one_enum; io_pos := 0 |}
    = Ok (Some e, f')
    /\ 0 < io_pos f'.
Proof.
  do 2 eexists. split; [vm_compute; reflexivity|].
  refine (proj1 (proj2 (proj1 (assembler_always_ends Sample.patterns)
            {| io_name := "e.html"; io_content := Sample.one_enum; io_pos := 0 |}
            _ _ _ eq_refl))).
  simpl. lia.
Defined.



(** X23.  In the namespace loop a description goes to the last function
    found so far, with no link: a description line that follows a
    function line describes that function - the functions found before
    stay as they were, and the function keeps its name, parameters and
    return type -; and a line that is both a signature and a description
    describes the function it has just given, even when it is the first
    line of the file. *)
Theorem namespace_description_goes_to_the_last_function
        (re : scraper_regexs) (fns : list LuaFunction) (l1 l2 d : string)
        (f : LuaFunction) :
  LuaFunction_init re (ArgLine l1) = Ok f ->
  (parseDescription re l1 = Ok None ->
   RE_FUNCTION_SIGNATURE re l2 = None ->
   parseDescription re l2 = Ok (Some d) ->
   exists f',
     foldM (LuaNamespace_line re) [l1; l2] fns = Ok (fns ++ [f'])%list
     /\ LuaNamespace_line re fns l1 = Ok (fns ++ [f])%list
     /\ lf_description f = None
     /\ lf_name f' = lf_name f
     /\ lf_parameters f' = lf_parameters f
     /\ lf_returnType f' = lf_returnType f
     /\ lf_description f' = Some {| dd_description := d; dd_link := None |})
  /\ (parseDescription re l1 = Ok (Some d) ->
      exists f',
        LuaNamespace_line re [] l1 = Ok [f']
        /\ lf_name f' = lf_name f
        /\ lf_parameters f' = lf_parameters f
        /\ lf_returnType f' = lf_returnType f
        /\ lf_description f' = Some {| dd_description := d; dd_link := None |}).
Proof.
  intros Hf.
  pose proof (LuaFunction_init_description re _ _ Hf) as Hnone.
  split.
  - intros H1 H2 Hd.
    assert (E1 : LuaNamespace_line re fns l1 = Ok (fns ++ [f])%list).
    { unfold LuaNamespace_line, try_function. rewrite Hf. cbn [bind].
      unfold attach_to_function. rewrite H1. reflexivity. }
    exists (with_description f (DocDescription_init d None)).
    split.
    { cbn [foldM]. rewrite E1. cbn [bind].
      unfold LuaNamespace_line.
      rewrite (try_function_no_signature re _ l2 H2). cbn [bind].
      unfold attach_to_function. rewrite Hd. cbn [bind].
      rewrite update_last_snoc. reflexivity. }
    split; [exact E1|]. split; [exact Hnone|]. repeat split.
  - intros Hd.
    exists (with_description f (DocDescription_init d None)).
    split; [|repeat split].
    unfold LuaNamespace_line, try_function. rewrite Hf. cbn [bind].
    unfold attach_to_function. rewrite Hd. reflexivity.
Qed.

Lemma namespace_description_goes_to_the_last_function_witness :
  exists f',
    foldM (LuaNamespace_line Sample.patterns) ["@fn print"; "@desc prints"]
          [{| lf_name := Some "log"; lf_description := None;
              lf_parameters := []; lf_returnType := nil_type |}]
    = Ok [{| lf_name := Some "log"; lf_description := None;
             lf_parameters := []; lf_returnType := nil_type |}; f']
    /\ lf_name f' = Some "print"
    /\ lf_description f'
       = Some {| dd_description := "prints"; dd_link := None |}.
Proof.
  destruct (proj1 (namespace_description_goes_to_the_last_function
                     Sample.patterns
                     [{| lf_name := Some "log"; lf_description := None;
                         lf_parameters := []; lf_returnType := nil_type |}]
                     "@fn print" "@desc prints" "prints"
                     {| lf_name := Some "print"; lf_description := None;
                        lf_parameters := []; lf_returnType := nil_type |}
                     eq_refl) eq_refl eq_refl eq_refl)
    as (f' & E & _ & _ & Hn & _ & _ & Hd).
  exists f'. split; [exact E|]. split; [exact Hn | exact Hd].
Defined.
